(** * Loss weighting and weight annealing of [models/losses.py]

    A shallow embedding of the [Loss] object of [src/models/losses.py]:
    the attributes set by [__init__], the lazily built control-point list of
    [update_div_weight], the bracket search, the three annealing kernels and
    the preset-selected linear combination of [forward].  The four sibling
    methods [update_heat_weight], [update_eikonal_weight],
    [update_heat_lambda] and [update_boundary_coef] are embedded the same way
    and related to one shared schema.

    Numbers.  The source computes on Python ints and floats.  The object and
    its methods are embedded with exact rationals ([Q]): numeric equality is
    [==] ([Qeq]) and the comparisons of the source are [Qle_bool] and
    [Qlt_bool].  That reading is used for what does not depend on a rounded
    result: which exception a call raises, what a call leaves alone, which
    control points a query selects, and the values a query copies from a
    control point.  [update_div_weight] is embedded a second time, in module
    [Binary64], on Python's own numbers: ints of any size and IEEE 754
    binary64 floats, with the rounding, the exact mixed comparisons and the
    [OverflowError] of the int-to-float conversion.  The statements about the
    value an interpolation stores and about the guard
    [current_iteration < s * n_iterations] are made there.

    Effects.  A method call is a function from the object before the call to
    the object after it together with either a returned value or the raised
    exception: an exception keeps every attribute write made before it, as in
    Python. *)

From stdpp Require Import base list strings.
From Stdlib Require Import QArith Lqa.
From Stdlib Require Floats.

Open Scope Q_scope.

(** ** Python primitives *)

Inductive exn : Type :=
  | AssertionError
  | TypeError
  | ValueError
  | ZeroDivisionError
  | IndexError
  | Warning.

Inductive result (A : Type) : Type :=
  | Ok (a : A)
  | Raise (e : exn).
Arguments Ok {A} a.
Arguments Raise {A} e.

Definition Qlt_bool (x y : Q) : bool := negb (Qle_bool y x).

Module Py.

(** [len(x)] where [x] may be [None]. *)
Definition len {A} (x : option (list A)) : result nat :=
  match x with
  | None => Raise TypeError
  | Some l => Ok (length l)
  end.

(** [l[1:-1]] *)
Definition slice_1_m1 {A} (l : list A) : list A := removelast (tail l).

(** [l[::2]] *)
Fixpoint slice_step2 {A} (l : list A) : list A :=
  match l with
  | [] => []
  | x :: r => x :: match r with
                   | [] => []
                   | _ :: r' => slice_step2 r'
                   end
  end.

(** [l[1::2]] *)
Definition slice_1_step2 {A} (l : list A) : list A := slice_step2 (tail l).

(** [l[0]] *)
Definition getitem_0 {A} (l : list A) : result A :=
  match l with
  | [] => Raise IndexError
  | x :: _ => Ok x
  end.

(** [l[-1]] *)
Definition getitem_m1 {A} (l : list A) : result A :=
  match last l with
  | None => Raise IndexError
  | Some x => Ok x
  end.

(** [l[i]] for a non-negative literal index [i]. *)
Definition getitem {A} (l : list A) (i : nat) : result A :=
  match l !! i with
  | None => Raise IndexError
  | Some x => Ok x
  end.

(** [l[i] = v] for a non-negative literal index [i]: the list after the
    store, or [IndexError] when [i] is out of range. *)
Definition setitem {A} (l : list A) (i : nat) (v : A) : result (list A) :=
  if decide (i < length l)%nat then Ok (<[i:=v]> l) else Raise IndexError.

(** [a / b], true division. *)
Definition truediv (a b : Q) : result Q :=
  if Qeq_bool b 0 then Raise ZeroDivisionError else Ok (a / b).

(** [min(l, key=key)]: the first element whose key is minimal. *)
Fixpoint min_from {A} (key : A -> Q) (best : A) (l : list A) : A :=
  match l with
  | [] => best
  | x :: r => if Qlt_bool (key x) (key best) then min_from key x r
              else min_from key best r
  end.

Definition min {A} (key : A -> Q) (l : list A) : result A :=
  match l with
  | [] => Raise ValueError
  | x :: r => Ok (min_from key x r)
  end.

(** [max(l, key=key)]: the first element whose key is maximal. *)
Fixpoint max_from {A} (key : A -> Q) (best : A) (l : list A) : A :=
  match l with
  | [] => best
  | x :: r => if Qlt_bool (key best) (key x) then max_from key x r
              else max_from key best r
  end.

Definition max {A} (key : A -> Q) (l : list A) : result A :=
  match l with
  | [] => Raise ValueError
  | x :: r => Ok (max_from key x r)
  end.

(** [sub in s] on strings. *)
Fixpoint contains (sub s : string) : bool :=
  String.prefix sub s
  || match s with
     | EmptyString => false
     | String _ s' => contains sub s'
     end.

End Py.

(** ** The [Loss] object *)

(** A control point is a tuple [(value, fraction)], as [zip] builds it. *)
Definition control_point : Type := Q * Q.

Record Loss : Type := mkLoss {
  weights : list Q;
  loss_type : string;
  div_decay : string;
  div_type : string;
  heat_lambda : Q;
  phase_epsilon : Q;
  heat_decay : string;
  eikonal_decay : string;
  heat_lambda_decay : string;
  boundary_coef_decay : string;
  use_div : bool;
  use_heat : bool;
  use_phase : bool;
  importance_sampling : bool;
  (** Attributes created on the first call of an update method; [None] is
      [not hasattr(self, ...)]. *)
  decay_params_list : option (list control_point);
  heat_decay_params_list : option (list control_point);
  eikonal_decay_params_list : option (list control_point);
  heat_lambda_decay_params_list : option (list control_point);
  boundary_coef_decay_params_list : option (list control_point)
}.

(** [Loss.__init__] (lines 96-124). *)
Definition Loss_init (weights : list Q) (loss_type div_decay div_type : string)
    (heat_lambda phase_epsilon : Q)
    (heat_decay heat_lambda_decay eikonal_decay boundary_coef_decay : string)
    (importance_sampling : bool) : Loss :=
  {| weights := weights;
     loss_type := loss_type;
     div_decay := div_decay;
     div_type := div_type;
     heat_lambda := heat_lambda;
     phase_epsilon := phase_epsilon;
     heat_decay := heat_decay;
     eikonal_decay := eikonal_decay;
     heat_lambda_decay := heat_lambda_decay;
     boundary_coef_decay := boundary_coef_decay;
     use_div := Py.contains "div" loss_type;
     use_heat := Py.contains "heat" loss_type;
     use_phase := Py.contains "phase" loss_type;
     importance_sampling := importance_sampling;
     decay_params_list := None;
     heat_decay_params_list := None;
     eikonal_decay_params_list := None;
     heat_lambda_decay_params_list := None;
     boundary_coef_decay_params_list := None |}.

Definition set_weights (w : list Q) (self : Loss) : Loss :=
  {| weights := w;
     loss_type := loss_type self;
     div_decay := div_decay self;
     div_type := div_type self;
     heat_lambda := heat_lambda self;
     phase_epsilon := phase_epsilon self;
     heat_decay := heat_decay self;
     eikonal_decay := eikonal_decay self;
     heat_lambda_decay := heat_lambda_decay self;
     boundary_coef_decay := boundary_coef_decay self;
     use_div := use_div self;
     use_heat := use_heat self;
     use_phase := use_phase self;
     importance_sampling := importance_sampling self;
     decay_params_list := decay_params_list self;
     heat_decay_params_list := heat_decay_params_list self;
     eikonal_decay_params_list := eikonal_decay_params_list self;
     heat_lambda_decay_params_list := heat_lambda_decay_params_list self;
     boundary_coef_decay_params_list := boundary_coef_decay_params_list self |}.

Definition set_decay_params_list (l : list control_point) (self : Loss) : Loss :=
  {| weights := weights self;
     loss_type := loss_type self;
     div_decay := div_decay self;
     div_type := div_type self;
     heat_lambda := heat_lambda self;
     phase_epsilon := phase_epsilon self;
     heat_decay := heat_decay self;
     eikonal_decay := eikonal_decay self;
     heat_lambda_decay := heat_lambda_decay self;
     boundary_coef_decay := boundary_coef_decay self;
     use_div := use_div self;
     use_heat := use_heat self;
     use_phase := use_phase self;
     importance_sampling := importance_sampling self;
     decay_params_list := Some l;
     heat_decay_params_list := heat_decay_params_list self;
     eikonal_decay_params_list := eikonal_decay_params_list self;
     heat_lambda_decay_params_list := heat_lambda_decay_params_list self;
     boundary_coef_decay_params_list := boundary_coef_decay_params_list self |}.

Definition set_heat_decay_params_list (l : list control_point) (self : Loss) : Loss :=
  {| weights := weights self;
     loss_type := loss_type self;
     div_decay := div_decay self;
     div_type := div_type self;
     heat_lambda := heat_lambda self;
     phase_epsilon := phase_epsilon self;
     heat_decay := heat_decay self;
     eikonal_decay := eikonal_decay self;
     heat_lambda_decay := heat_lambda_decay self;
     boundary_coef_decay := boundary_coef_decay self;
     use_div := use_div self;
     use_heat := use_heat self;
     use_phase := use_phase self;
     importance_sampling := importance_sampling self;
     decay_params_list := decay_params_list self;
     heat_decay_params_list := Some l;
     eikonal_decay_params_list := eikonal_decay_params_list self;
     heat_lambda_decay_params_list := heat_lambda_decay_params_list self;
     boundary_coef_decay_params_list := boundary_coef_decay_params_list self |}.

Definition set_eikonal_decay_params_list (l : list control_point) (self : Loss) : Loss :=
  {| weights := weights self;
     loss_type := loss_type self;
     div_decay := div_decay self;
     div_type := div_type self;
     heat_lambda := heat_lambda self;
     phase_epsilon := phase_epsilon self;
     heat_decay := heat_decay self;
     eikonal_decay := eikonal_decay self;
     heat_lambda_decay := heat_lambda_decay self;
     boundary_coef_decay := boundary_coef_decay self;
     use_div := use_div self;
     use_heat := use_heat self;
     use_phase := use_phase self;
     importance_sampling := importance_sampling self;
     decay_params_list := decay_params_list self;
     heat_decay_params_list := heat_decay_params_list self;
     eikonal_decay_params_list := Some l;
     heat_lambda_decay_params_list := heat_lambda_decay_params_list self;
     boundary_coef_decay_params_list := boundary_coef_decay_params_list self |}.

Definition set_heat_lambda_decay_params_list (l : list control_point) (self : Loss) : Loss :=
  {| weights := weights self;
     loss_type := loss_type self;
     div_decay := div_decay self;
     div_type := div_type self;
     heat_lambda := heat_lambda self;
     phase_epsilon := phase_epsilon self;
     heat_decay := heat_decay self;
     eikonal_decay := eikonal_decay self;
     heat_lambda_decay := heat_lambda_decay self;
     boundary_coef_decay := boundary_coef_decay self;
     use_div := use_div self;
     use_heat := use_heat self;
     use_phase := use_phase self;
     importance_sampling := importance_sampling self;
     decay_params_list := decay_params_list self;
     heat_decay_params_list := heat_decay_params_list self;
     eikonal_decay_params_list := eikonal_decay_params_list self;
     heat_lambda_decay_params_list := Some l;
     boundary_coef_decay_params_list := boundary_coef_decay_params_list self |}.

Definition set_boundary_coef_decay_params_list (l : list control_point) (self : Loss) : Loss :=
  {| weights := weights self;
     loss_type := loss_type self;
     div_decay := div_decay self;
     div_type := div_type self;
     heat_lambda := heat_lambda self;
     phase_epsilon := phase_epsilon self;
     heat_decay := heat_decay self;
     eikonal_decay := eikonal_decay self;
     heat_lambda_decay := heat_lambda_decay self;
     boundary_coef_decay := boundary_coef_decay self;
     use_div := use_div self;
     use_heat := use_heat self;
     use_phase := use_phase self;
     importance_sampling := importance_sampling self;
     decay_params_list := decay_params_list self;
     heat_decay_params_list := heat_decay_params_list self;
     eikonal_decay_params_list := eikonal_decay_params_list self;
     heat_lambda_decay_params_list := heat_lambda_decay_params_list self;
     boundary_coef_decay_params_list := Some l |}.

Definition set_heat_lambda (v : Q) (self : Loss) : Loss :=
  {| weights := weights self;
     loss_type := loss_type self;
     div_decay := div_decay self;
     div_type := div_type self;
     heat_lambda := v;
     phase_epsilon := phase_epsilon self;
     heat_decay := heat_decay self;
     eikonal_decay := eikonal_decay self;
     heat_lambda_decay := heat_lambda_decay self;
     boundary_coef_decay := boundary_coef_decay self;
     use_div := use_div self;
     use_heat := use_heat self;
     use_phase := use_phase self;
     importance_sampling := importance_sampling self;
     decay_params_list := decay_params_list self;
     heat_decay_params_list := heat_decay_params_list self;
     eikonal_decay_params_list := eikonal_decay_params_list self;
     heat_lambda_decay_params_list := heat_lambda_decay_params_list self;
     boundary_coef_decay_params_list := boundary_coef_decay_params_list self |}.

(** ** Method calls: state and exceptions *)

Definition M (A : Type) : Type := Loss -> Loss * result A.

Definition ret {A} (a : A) : M A := fun self => (self, Ok a).

Definition raise {A} (e : exn) : M A := fun self => (self, Raise e).

Definition bind {A B} (m : M A) (k : A -> M B) : M B :=
  fun self =>
    match m self with
    | (self', Ok a) => k a self'
    | (self', Raise e) => (self', Raise e)
    end.

Notation "'let*' x ':=' m 'in' k" := (bind m (fun x => k))
  (at level 10, x name, m at level 100, k at level 200).
Notation "'let*' ' p ':=' m 'in' k" := (bind m (fun x => let 'p := x in k))
  (at level 10, p pattern, m at level 100, k at level 200).
Notation "'run' m 'in' k" := (bind m (fun _ => k))
  (at level 10, m at level 100, k at level 200).

(** Read an attribute of [self]. *)
Definition attr {A} (f : Loss -> A) : M A := fun self => (self, Ok (f self)).

(** Run a computation that does not touch [self]. *)
Definition lift {A} (r : result A) : M A := fun self => (self, r).

(** [assert b] *)
Definition assert (b : bool) : M unit :=
  if b then ret tt else raise AssertionError.

(** [self.weights[i] = v] (one attribute read, one item store) *)
Definition store_weight (i : nat) (v : Q) : M unit :=
  fun self =>
    match Py.setitem (weights self) i v with
    | Ok w => (set_weights w self, Ok tt)
    | Raise e => (self, Raise e)
    end.

(** [self.decay_params_list = l] *)
Definition store_decay_params_list (l : list control_point) : M unit :=
  fun self => (set_decay_params_list l self, Ok tt).

(** [self.heat_decay_params_list = l] and its three siblings *)
Definition store_heat_decay_params_list (l : list control_point) : M unit :=
  fun self => (set_heat_decay_params_list l self, Ok tt).

Definition store_eikonal_decay_params_list (l : list control_point) : M unit :=
  fun self => (set_eikonal_decay_params_list l self, Ok tt).

Definition store_heat_lambda_decay_params_list (l : list control_point) : M unit :=
  fun self => (set_heat_lambda_decay_params_list l self, Ok tt).

Definition store_boundary_coef_decay_params_list (l : list control_point) : M unit :=
  fun self => (set_boundary_coef_decay_params_list l self, Ok tt).

(** [self.heat_lambda = v] *)
Definition store_heat_lambda (v : Q) : M unit :=
  fun self => (set_heat_lambda v self, Ok tt).

(** [self.weights[i]] *)
Definition load_weight (i : nat) : M Q :=
  fun self => (self, Py.getitem (weights self) i).

(** ** [Loss.update_div_weight] (lines 386-432) *)

(** Lines 392-397: the control-point list is built on the first call only.
    [params] is [None] when the caller leaves the default. *)
Definition build_decay_params_list (params : option (list Q)) : M unit :=
  let* cached := attr decay_params_list in
  match cached with
  | Some _ => ret tt
  | None =>
      let* n := lift (Py.len params) in
      run assert (2 <=? n)%nat in
      let params := default [] params in
      run assert (length (Py.slice_1_m1 params) mod 2 =? 0)%nat in
      let* first := lift (Py.getitem_0 params) in
      let* final := lift (Py.getitem_m1 params) in
      let values := first :: Py.slice_1_step2 (Py.slice_1_m1 params) ++ [final] in
      let fractions := 0 :: Py.slice_step2 (Py.slice_1_m1 params) ++ [1] in
      store_decay_params_list (zip values fractions)
  end.

(** Lines 400-402: [min([tup for tup in l if tup[1] >= curr], key=...)]. *)
Definition upper_bracket (l : list control_point) (curr : Q) : result control_point :=
  Py.min snd (List.filter (fun tup => Qle_bool curr (snd tup)) l).

(** Lines 403-405: [max([tup for tup in l if tup[1] <= curr], key=...)]. *)
Definition lower_bracket (l : list control_point) (curr : Q) : result control_point :=
  Py.max snd (List.filter (fun tup => Qle_bool (snd tup) curr) l).

(** The guards of lines 409, 416, 425 and of lines 411, 418, with the exact
    products.  The source rounds [s * n_iterations] when [s] is a float;
    [Binary64.before_start] and [Binary64.in_window] below have the rounded
    products, and the statements that depend on the rounding are made on
    them. *)
Definition before_start (s : Q) (current_iteration n_iterations : Z) : bool :=
  Qlt_bool (inject_Z current_iteration) (s * inject_Z n_iterations).

Definition in_window (s e : Q) (current_iteration n_iterations : Z) : bool :=
  Qle_bool (s * inject_Z n_iterations) (inject_Z current_iteration)
  && Qlt_bool (inject_Z current_iteration) (e * inject_Z n_iterations).

(** Lines 408-432: the annealing kernels, selected by [self.div_decay].  The
    interpolated values of lines 412 and 419-421 are the exact ones here;
    [Binary64.div_kernel] has the rounded ones. *)
Definition div_kernel (w0 s we e : Q) (current_iteration n_iterations : Z) : M unit :=
  let ci := inject_Z current_iteration in
  let n := inject_Z n_iterations in
  let* mode := attr div_decay in
  if String.eqb mode "linear" then
    if before_start s current_iteration n_iterations then store_weight 4 w0
    else if in_window s e current_iteration n_iterations then
      let* p := lift (Py.truediv ci n) in
      let* d := lift (Py.truediv ((we - w0) * (p - s)) (e - s)) in
      store_weight 4 (w0 + d)
    else store_weight 4 we
  else if String.eqb mode "quintic" then
    if before_start s current_iteration n_iterations then store_weight 4 w0
    else if in_window s e current_iteration n_iterations then
      let* p := lift (Py.truediv ci n) in
      let* d := lift (Py.truediv (p - s) (e - s)) in
      store_weight 4 (w0 + (we - w0) * (1 - (1 - d) ^ 5))
    else store_weight 4 we
  else if String.eqb mode "step" then
    if before_start s current_iteration n_iterations then store_weight 4 w0
    else store_weight 4 we
  else if String.eqb mode "none" then ret tt
  else raise Warning.

Definition update_div_weight (current_iteration n_iterations : Z)
    (params : option (list Q)) : M unit :=
  run build_decay_params_list params in
  (* the attribute exists from here on: it was found or has just been set *)
  let* l := attr decay_params_list in
  let l := default [] l in
  let* curr := lift (Py.truediv (inject_Z current_iteration) (inject_Z n_iterations)) in
  let* '(we, e) := lift (upper_bracket l curr) in
  let* '(w0, s) := lift (lower_bracket l curr) in
  div_kernel w0 s we e current_iteration n_iterations.

(** ** [Loss.update_heat_weight] (lines 434-480) *)

(** Lines 440-445: the control-point list is built on the first call only.
    [params] is [None] when the caller leaves the default. *)
Definition build_heat_decay_params_list (params : option (list Q)) : M unit :=
  let* cached := attr heat_decay_params_list in
  match cached with
  | Some _ => ret tt
  | None =>
      let* n := lift (Py.len params) in
      run assert (2 <=? n)%nat in
      let params := default [] params in
      run assert (length (Py.slice_1_m1 params) mod 2 =? 0)%nat in
      let* first := lift (Py.getitem_0 params) in
      let* final := lift (Py.getitem_m1 params) in
      let values := first :: Py.slice_1_step2 (Py.slice_1_m1 params) ++ [final] in
      let fractions := 0 :: Py.slice_step2 (Py.slice_1_m1 params) ++ [1] in
      store_heat_decay_params_list (zip values fractions)
  end.

(** Lines 456-480: the annealing kernels, selected by [self.heat_decay]. *)
Definition heat_kernel (w0 s we e : Q) (current_iteration n_iterations : Z) : M unit :=
  let ci := inject_Z current_iteration in
  let n := inject_Z n_iterations in
  let* mode := attr heat_decay in
  if String.eqb mode "linear" then
    if before_start s current_iteration n_iterations then store_weight 6 w0
    else if in_window s e current_iteration n_iterations then
      let* p := lift (Py.truediv ci n) in
      let* d := lift (Py.truediv ((we - w0) * (p - s)) (e - s)) in
      store_weight 6 (w0 + d)
    else store_weight 6 we
  else if String.eqb mode "quintic" then
    if before_start s current_iteration n_iterations then store_weight 6 w0
    else if in_window s e current_iteration n_iterations then
      let* p := lift (Py.truediv ci n) in
      let* d := lift (Py.truediv (p - s) (e - s)) in
      store_weight 6 (w0 + (we - w0) * (1 - (1 - d) ^ 5))
    else store_weight 6 we
  else if String.eqb mode "step" then
    if before_start s current_iteration n_iterations then store_weight 6 w0
    else store_weight 6 we
  else if String.eqb mode "none" then ret tt
  else raise Warning.

Definition update_heat_weight (current_iteration n_iterations : Z)
    (params : option (list Q)) : M unit :=
  run build_heat_decay_params_list params in
  (* the attribute exists from here on: it was found or has just been set *)
  let* l := attr heat_decay_params_list in
  let l := default [] l in
  let* curr := lift (Py.truediv (inject_Z current_iteration) (inject_Z n_iterations)) in
  let* '(we, e) := lift (upper_bracket l curr) in
  let* '(w0, s) := lift (lower_bracket l curr) in
  heat_kernel w0 s we e current_iteration n_iterations.

(** ** [Loss.update_eikonal_weight] (lines 482-530) *)

(** Lines 488-493: the control-point list is built on the first call only.
    [params] is [None] when the caller leaves the default. *)
Definition build_eikonal_decay_params_list (params : option (list Q)) : M unit :=
  let* cached := attr eikonal_decay_params_list in
  match cached with
  | Some _ => ret tt
  | None =>
      let* n := lift (Py.len params) in
      run assert (2 <=? n)%nat in
      let params := default [] params in
      run assert (length (Py.slice_1_m1 params) mod 2 =? 0)%nat in
      let* first := lift (Py.getitem_0 params) in
      let* final := lift (Py.getitem_m1 params) in
      let values := first :: Py.slice_1_step2 (Py.slice_1_m1 params) ++ [final] in
      let fractions := 0 :: Py.slice_step2 (Py.slice_1_m1 params) ++ [1] in
      store_eikonal_decay_params_list (zip values fractions)
  end.

(** Lines 506-530: the annealing kernels, selected by [self.eikonal_decay]. *)
Definition eikonal_kernel (w0 s we e : Q) (current_iteration n_iterations : Z) : M unit :=
  let ci := inject_Z current_iteration in
  let n := inject_Z n_iterations in
  let* mode := attr eikonal_decay in
  if String.eqb mode "linear" then
    if before_start s current_iteration n_iterations then store_weight 3 w0
    else if in_window s e current_iteration n_iterations then
      let* p := lift (Py.truediv ci n) in
      let* d := lift (Py.truediv ((we - w0) * (p - s)) (e - s)) in
      store_weight 3 (w0 + d)
    else store_weight 3 we
  else if String.eqb mode "quintic" then
    if before_start s current_iteration n_iterations then store_weight 3 w0
    else if in_window s e current_iteration n_iterations then
      let* p := lift (Py.truediv ci n) in
      let* d := lift (Py.truediv (p - s) (e - s)) in
      store_weight 3 (w0 + (we - w0) * (1 - (1 - d) ^ 5))
    else store_weight 3 we
  else if String.eqb mode "step" then
    if before_start s current_iteration n_iterations then store_weight 3 w0
    else store_weight 3 we
  else if String.eqb mode "none" then ret tt
  else raise Warning.

Definition update_eikonal_weight (current_iteration n_iterations : Z)
    (params : option (list Q)) : M unit :=
  run build_eikonal_decay_params_list params in
  (* the attribute exists from here on: it was found or has just been set *)
  let* l := attr eikonal_decay_params_list in
  let l := default [] l in
  let* curr := lift (Py.truediv (inject_Z current_iteration) (inject_Z n_iterations)) in
  let* '(we, e) := lift (upper_bracket l curr) in
  let* '(w0, s) := lift (lower_bracket l curr) in
  eikonal_kernel w0 s we e current_iteration n_iterations.

(** ** [Loss.update_heat_lambda] (lines 532-580) *)

(** Lines 538-543: the control-point list is built on the first call only.
    [params] is [None] when the caller leaves the default. *)
Definition build_heat_lambda_decay_params_list (params : option (list Q)) : M unit :=
  let* cached := attr heat_lambda_decay_params_list in
  match cached with
  | Some _ => ret tt
  | None =>
      let* n := lift (Py.len params) in
      run assert (2 <=? n)%nat in
      let params := default [] params in
      run assert (length (Py.slice_1_m1 params) mod 2 =? 0)%nat in
      let* first := lift (Py.getitem_0 params) in
      let* final := lift (Py.getitem_m1 params) in
      let values := first :: Py.slice_1_step2 (Py.slice_1_m1 params) ++ [final] in
      let fractions := 0 :: Py.slice_step2 (Py.slice_1_m1 params) ++ [1] in
      store_heat_lambda_decay_params_list (zip values fractions)
  end.

(** Lines 556-580: the annealing kernels, selected by [self.heat_lambda_decay]. *)
Definition heat_lambda_kernel (w0 s we e : Q) (current_iteration n_iterations : Z) : M unit :=
  let ci := inject_Z current_iteration in
  let n := inject_Z n_iterations in
  let* mode := attr heat_lambda_decay in
  if String.eqb mode "linear" then
    if before_start s current_iteration n_iterations then store_heat_lambda w0
    else if in_window s e current_iteration n_iterations then
      let* p := lift (Py.truediv ci n) in
      let* d := lift (Py.truediv ((we - w0) * (p - s)) (e - s)) in
      store_heat_lambda (w0 + d)
    else store_heat_lambda we
  else if String.eqb mode "quintic" then
    if before_start s current_iteration n_iterations then store_heat_lambda w0
    else if in_window s e current_iteration n_iterations then
      let* p := lift (Py.truediv ci n) in
      let* d := lift (Py.truediv (p - s) (e - s)) in
      store_heat_lambda (w0 + (we - w0) * (1 - (1 - d) ^ 5))
    else store_heat_lambda we
  else if String.eqb mode "step" then
    if before_start s current_iteration n_iterations then store_heat_lambda w0
    else store_heat_lambda we
  else if String.eqb mode "none" then ret tt
  else raise Warning.

Definition update_heat_lambda (current_iteration n_iterations : Z)
    (params : option (list Q)) : M unit :=
  run build_heat_lambda_decay_params_list params in
  (* the attribute exists from here on: it was found or has just been set *)
  let* l := attr heat_lambda_decay_params_list in
  let l := default [] l in
  let* curr := lift (Py.truediv (inject_Z current_iteration) (inject_Z n_iterations)) in
  let* '(we, e) := lift (upper_bracket l curr) in
  let* '(w0, s) := lift (lower_bracket l curr) in
  heat_lambda_kernel w0 s we e current_iteration n_iterations.

(** ** [Loss.update_boundary_coef] (lines 582-632) *)

(** Lines 588-593: the control-point list is built on the first call only.
    [params] is [None] when the caller leaves the default. *)
Definition build_boundary_coef_decay_params_list (params : option (list Q)) : M unit :=
  let* cached := attr boundary_coef_decay_params_list in
  match cached with
  | Some _ => ret tt
  | None =>
      let* n := lift (Py.len params) in
      run assert (2 <=? n)%nat in
      let params := default [] params in
      run assert (length (Py.slice_1_m1 params) mod 2 =? 0)%nat in
      let* first := lift (Py.getitem_0 params) in
      let* final := lift (Py.getitem_m1 params) in
      let values := first :: Py.slice_1_step2 (Py.slice_1_m1 params) ++ [final] in
      let fractions := 0 :: Py.slice_step2 (Py.slice_1_m1 params) ++ [1] in
      store_boundary_coef_decay_params_list (zip values fractions)
  end.

(** Lines 606-632: the annealing kernels, selected by [self.boundary_coef_decay]. *)
Definition boundary_coef_kernel (w0 s we e : Q) (current_iteration n_iterations : Z) : M unit :=
  let ci := inject_Z current_iteration in
  let n := inject_Z n_iterations in
  let* mode := attr boundary_coef_decay in
  if String.eqb mode "linear" then
    if before_start s current_iteration n_iterations then store_weight 0 w0
    else if in_window s e current_iteration n_iterations then
      let* p := lift (Py.truediv ci n) in
      let* d := lift (Py.truediv ((we - w0) * (p - s)) (e - s)) in
      store_weight 0 (w0 + d)
    else store_weight 0 we
  else if String.eqb mode "quintic" then
    if before_start s current_iteration n_iterations then store_weight 0 w0
    else if in_window s e current_iteration n_iterations then
      let* p := lift (Py.truediv ci n) in
      let* d := lift (Py.truediv (p - s) (e - s)) in
      store_weight 0 (w0 + (we - w0) * (1 - (1 - d) ^ 5))
    else store_weight 0 we
  else if String.eqb mode "step" then
    if before_start s current_iteration n_iterations then store_weight 0 w0
    else store_weight 0 we
  else if String.eqb mode "none" then ret tt
  else raise Warning.

Definition update_boundary_coef (current_iteration n_iterations : Z)
    (params : option (list Q)) : M unit :=
  run build_boundary_coef_decay_params_list params in
  (* the attribute exists from here on: it was found or has just been set *)
  let* l := attr boundary_coef_decay_params_list in
  let l := default [] l in
  let* curr := lift (Py.truediv (inject_Z current_iteration) (inject_Z n_iterations)) in
  let* '(we, e) := lift (upper_bracket l curr) in
  let* '(w0, s) := lift (lower_bracket l curr) in
  boundary_coef_kernel w0 s we e current_iteration n_iterations.

(** ** The five update methods side by side *)

(** The scalar a method governs. *)
Inductive scalar : Type :=
  | DivWeight
  | HeatWeight
  | EikonalWeight
  | HeatLambda
  | BoundaryCoef.

Definition update_of (sc : scalar) : Z -> Z -> option (list Q) -> M unit :=
  match sc with
  | DivWeight => update_div_weight
  | HeatWeight => update_heat_weight
  | EikonalWeight => update_eikonal_weight
  | HeatLambda => update_heat_lambda
  | BoundaryCoef => update_boundary_coef
  end.

(** The attribute that caches the method's control points. *)
Definition cache_of (sc : scalar) : Loss -> option (list control_point) :=
  match sc with
  | DivWeight => decay_params_list
  | HeatWeight => heat_decay_params_list
  | EikonalWeight => eikonal_decay_params_list
  | HeatLambda => heat_lambda_decay_params_list
  | BoundaryCoef => boundary_coef_decay_params_list
  end.

Definition set_cache_of (sc : scalar) : list control_point -> Loss -> Loss :=
  match sc with
  | DivWeight => set_decay_params_list
  | HeatWeight => set_heat_decay_params_list
  | EikonalWeight => set_eikonal_decay_params_list
  | HeatLambda => set_heat_lambda_decay_params_list
  | BoundaryCoef => set_boundary_coef_decay_params_list
  end.

(** The attribute that selects the method's kernel. *)
Definition mode_of (sc : scalar) : Loss -> string :=
  match sc with
  | DivWeight => div_decay
  | HeatWeight => heat_decay
  | EikonalWeight => eikonal_decay
  | HeatLambda => heat_lambda_decay
  | BoundaryCoef => boundary_coef_decay
  end.

(** The entry of [weights] the method stores to; [None] for the method that
    stores to [self.heat_lambda]. *)
Definition target_index (sc : scalar) : option nat :=
  match sc with
  | DivWeight => Some 4%nat
  | HeatWeight => Some 6%nat
  | EikonalWeight => Some 3%nat
  | HeatLambda => None
  | BoundaryCoef => Some 0%nat
  end.

(** The method's assignment statement. *)
Definition assign_of (sc : scalar) (v : Q) : M unit :=
  match target_index sc with
  | Some i => store_weight i v
  | None => store_heat_lambda v
  end.

(** The text the five methods share, written once over the attributes
    above: construction, search, kernel. *)
Definition build_scalar (sc : scalar) (params : option (list Q)) : M unit :=
  let* cached := attr (cache_of sc) in
  match cached with
  | Some _ => ret tt
  | None =>
      let* n := lift (Py.len params) in
      run assert (2 <=? n)%nat in
      let params := default [] params in
      run assert (length (Py.slice_1_m1 params) mod 2 =? 0)%nat in
      let* first := lift (Py.getitem_0 params) in
      let* final := lift (Py.getitem_m1 params) in
      let values := first :: Py.slice_1_step2 (Py.slice_1_m1 params) ++ [final] in
      let fractions := 0 :: Py.slice_step2 (Py.slice_1_m1 params) ++ [1] in
      fun self => (set_cache_of sc (zip values fractions) self, Ok tt)
  end.

Definition kernel_scalar (sc : scalar) (w0 s we e : Q)
    (current_iteration n_iterations : Z) : M unit :=
  let ci := inject_Z current_iteration in
  let n := inject_Z n_iterations in
  let* mode := attr (mode_of sc) in
  if String.eqb mode "linear" then
    if before_start s current_iteration n_iterations then assign_of sc w0
    else if in_window s e current_iteration n_iterations then
      let* p := lift (Py.truediv ci n) in
      let* d := lift (Py.truediv ((we - w0) * (p - s)) (e - s)) in
      assign_of sc (w0 + d)
    else assign_of sc we
  else if String.eqb mode "quintic" then
    if before_start s current_iteration n_iterations then assign_of sc w0
    else if in_window s e current_iteration n_iterations then
      let* p := lift (Py.truediv ci n) in
      let* d := lift (Py.truediv (p - s) (e - s)) in
      assign_of sc (w0 + (we - w0) * (1 - (1 - d) ^ 5))
    else assign_of sc we
  else if String.eqb mode "step" then
    if before_start s current_iteration n_iterations then assign_of sc w0
    else assign_of sc we
  else if String.eqb mode "none" then ret tt
  else raise Warning.

Definition update_scalar (sc : scalar) (current_iteration n_iterations : Z)
    (params : option (list Q)) : M unit :=
  run build_scalar sc params in
  let* l := attr (cache_of sc) in
  let l := default [] l in
  let* curr := lift (Py.truediv (inject_Z current_iteration) (inject_Z n_iterations)) in
  let* '(we, e) := lift (upper_bracket l curr) in
  let* '(w0, s) := lift (lower_bracket l curr) in
  kernel_scalar sc w0 s we e current_iteration n_iterations.

(** ** [Loss.forward] (lines 126-384) *)

(** The scalars that the tensor runtime computes for one batch.  The model
    takes them as given: [torch] and [utils.gradient] are external.  Where
    [forward] chooses between two expressions by an attribute of [self], both
    values are fields and [forward] below makes the choice. *)
Record Batch : Type := mkBatch {
  (** a NaN or Inf is detected at lines 160-163 or 182-187 *)
  numeric_fault : bool;
  (** [nonmnfld_divergence_term.mean()] for each supported [div_type] *)
  full_l2_div : Q;
  full_l1_div : Q;
  dir_l2_div : Q;
  dir_l1_div : Q;
  (** [eikonal_loss(...)] with [eikonal_type] "abs" and "squared" *)
  eikonal_abs : Q;
  eikonal_squared : Q;
  (** [None] when [mnfld_normals_gt is None]; else the normal term of lines
      225 and 227-232 *)
  normals_gt : option (Q * Q);
  (** [torch.abs(mnfld_pred).mean()] *)
  boundary : Q;
  (** [torch.exp(-1e2 * torch.abs(nonmnfld_dist_pred)).mean()] *)
  inter : Q;
  (** [heat_loss(...)] divided by the number of points *)
  heat : Q;
  (** [phase_loss(...)] *)
  phase : Q;
  (** [None] when [nonmnfld_dists_gt is None] *)
  dists_gt : option Q;
  (** [None] when [nonmnfld_dists_sal is None] *)
  dists_sal : option Q;
  (** [Some (latent_rg_loss(...))] when [latent] and [latent_reg] are given *)
  latent_reg : option Q
}.

Record Output : Type := mkOutput {
  loss : Q;
  boundary_term : Q;
  inter_term : Q;
  latent_reg_term : Q;
  eikonal_term : Q;
  normal_term : Q;
  div_term : Q;
  sal_term : Q;
  heat_term : Q;
  diff_term : Q
}.

(** [if self.weights[i] > 0.0: term = m], with [term] initialised to zero. *)
Definition when_weight_positive (i : nat) (m : M Q) : M Q :=
  let* w := load_weight i in
  if Qlt_bool 0 w then m else ret 0.

(** [self.weights[i] * term] *)
Definition weighted (i : nat) (term : Q) : M Q :=
  let* w := load_weight i in
  ret (w * term).

(** Lines 290-364: the preset-selected linear combination. *)
Definition combine_terms (boundary_term inter_term normal_term eikonal_term
    div_term sal_term heat_term phase_term : Q) : M Q :=
  let* preset := attr loss_type in
  if String.eqb preset "siren" then
    let* a := weighted 0 boundary_term in let* b := weighted 1 inter_term in
    let* c := weighted 2 normal_term in let* d := weighted 3 eikonal_term in
    ret (a + b + c + d)
  else if String.eqb preset "siren_wo_n" then
    run store_weight 2 0 in
    let* a := weighted 0 boundary_term in let* b := weighted 1 inter_term in
    let* d := weighted 3 eikonal_term in
    ret (a + b + d)
  else if String.eqb preset "igr" then
    run store_weight 1 0 in
    let* a := weighted 0 boundary_term in let* c := weighted 2 normal_term in
    let* d := weighted 3 eikonal_term in
    ret (a + c + d)
  else if String.eqb preset "igr_wo_n" then
    run store_weight 1 0 in
    run store_weight 2 0 in
    let* a := weighted 0 boundary_term in let* d := weighted 3 eikonal_term in
    ret (a + d)
  else if String.eqb preset "siren_w_div" then
    let* a := weighted 0 boundary_term in let* b := weighted 1 inter_term in
    let* c := weighted 2 normal_term in let* d := weighted 3 eikonal_term in
    let* f := weighted 4 div_term in
    ret (a + b + c + d + f)
  else if String.eqb preset "siren_wo_n_w_div" then
    let* a := weighted 0 boundary_term in let* b := weighted 1 inter_term in
    let* d := weighted 3 eikonal_term in let* f := weighted 4 div_term in
    ret (a + b + d + f)
  else if String.eqb preset "igr_wo_eik_w_heat" then
    let* a := weighted 0 boundary_term in let* h := weighted 6 heat_term in
    ret (a + h)
  else if String.eqb preset "igr_w_heat" then
    let* a := weighted 0 boundary_term in let* d := weighted 3 eikonal_term in
    let* h := weighted 6 heat_term in
    ret (a + d + h)
  else if String.eqb preset "sal" then
    let* a := weighted 0 boundary_term in let* g := weighted 5 sal_term in
    ret (a + g)
  else if String.eqb preset "phase" then
    let* a := weighted 0 boundary_term in let* c := weighted 2 normal_term in
    let* d := weighted 3 eikonal_term in let* k := weighted 7 phase_term in
    ret (a + c + d + k)
  else if String.eqb preset "everything_including_div_heat_sal" then
    let* a := weighted 0 boundary_term in let* b := weighted 1 inter_term in
    let* c := weighted 2 normal_term in let* d := weighted 3 eikonal_term in
    let* f := weighted 4 div_term in let* g := weighted 5 sal_term in
    let* h := weighted 6 heat_term in
    ret (a + b + c + d + f + g + h)
  else raise Warning.

Definition forward (batch : Batch) : M Output :=
  run (if numeric_fault batch then raise ValueError else ret tt) in
  (* div_term, lines 148 and 190-208 *)
  let* with_div := attr use_div in
  let* div_term :=
    (if with_div then
       when_weight_positive 4
         (let* kind := attr div_type in
          if String.eqb kind "full_l2" then ret (full_l2_div batch)
          else if String.eqb kind "full_l1" then ret (full_l1_div batch)
          else if String.eqb kind "dir_l2" then ret (dir_l2_div batch)
          else if String.eqb kind "dir_l1" then ret (dir_l1_div batch)
          else raise Warning)
     else ret 0) in
  (* eikonal term, lines 211-218 *)
  let* preset := attr loss_type in
  let* eikonal_term :=
    when_weight_positive 3
      (ret (if String.eqb preset "phase" then eikonal_squared batch
            else eikonal_abs batch)) in
  (* normal term, lines 221-232 *)
  let* normal_term :=
    match normals_gt batch with
    | None => ret 0
    | Some (by_difference, by_cosine) =>
        when_weight_positive 2
          (ret (if Py.contains "igr" preset || Py.contains "phase" preset
                then by_difference else by_cosine))
    end in
  (* boundary and inter terms, lines 235-240 *)
  let boundary_term := boundary batch in
  let* inter_term := when_weight_positive 1 (ret (inter batch)) in
  (* heat and phase terms, lines 243-269 *)
  let* with_heat := attr use_heat in
  let* heat_term :=
    (if with_heat then when_weight_positive 6 (ret (heat batch)) else ret 0) in
  let* with_phase := attr use_phase in
  let* phase_term :=
    (if with_phase then when_weight_positive 7 (ret (phase batch)) else ret 0) in
  (* lines 272-283 *)
  let nonmnfld_dists_loss := default 0 (dists_gt batch) in
  let sal_term := default 0 (dists_sal batch) in
  (* lines 290-364 *)
  let* total := combine_terms boundary_term inter_term normal_term eikonal_term
            div_term sal_term heat_term phase_term in
  (* latent regularisation, lines 367-371 *)
  let latent_reg_term := default 0 (latent_reg batch) in
  let* total :=
    match latent_reg batch with
    | None => ret total
    | Some reg => let* extra := weighted 5 reg in ret (total + extra)
    end in
  ret {| loss := total;
         boundary_term := boundary_term;
         inter_term := inter_term;
         latent_reg_term := latent_reg_term;
         eikonal_term := eikonal_term;
         normal_term := normal_term;
         div_term := div_term;
         sal_term := sal_term;
         heat_term := heat_term;
         diff_term := nonmnfld_dists_loss |}.

(** The eleven presets that [forward] recognises. *)
Definition presets : list string :=
  [ "siren"; "siren_wo_n"; "igr"; "igr_wo_n"; "siren_w_div";
    "siren_wo_n_w_div"; "igr_wo_eik_w_heat"; "igr_w_heat"; "sal"; "phase";
    "everything_including_div_heat_sal" ].

(** ** A running example: the schedule of the source's comment *)

Definition example_loss (mode preset : string) : Loss :=
  Loss_init [1; 1; 1; 1; 1; 1; 1; 1] preset mode "dir_l1" 100 (1 # 100)
            "none" "none" "none" "none" true.

Definition example_params : option (list Q) :=
  Some [100; 1 # 2; 100; 3 # 4; 0; 0].

Definition example_batch : Batch :=
  {| numeric_fault := false;
     full_l2_div := 1; full_l1_div := 1; dir_l2_div := 1; dir_l1_div := 1;
     eikonal_abs := 1; eikonal_squared := 1;
     normals_gt := Some (1, 1);
     boundary := 1; inter := 1; heat := 1; phase := 1;
     dists_gt := None; dists_sal := None; latent_reg := None |}.

(** ** Notions of the statements *)

(** The progress fraction [current_iteration / n_iterations] of line 399. *)
Definition progress (current_iteration n_iterations : Z) : Q :=
  inject_Z current_iteration / inject_Z n_iterations.

(** The first element of a list whose key is numerically [p]. *)
Definition first_at {A} (key : A -> Q) (p : Q) (l : list A) : option A :=
  List.find (fun x => Qeq_bool (key x) p) l.

(** The list that lines 395-397 build from an accepted params sequence. *)
Definition built_list (params : list Q) : list control_point :=
  zip (default 0 (head params)
         :: Py.slice_1_step2 (Py.slice_1_m1 params) ++ [default 0 (last params)])
      (0 :: Py.slice_step2 (Py.slice_1_m1 params) ++ [1]).

(** Both assertions of lines 393-394 pass. *)
Definition accepted (params : list Q) : bool :=
  (2 <=? length params)%nat && (length (Py.slice_1_m1 params) mod 2 =? 0)%nat.

(** The values that lines 412 and 419-421 compute. *)
Definition linear_value (w0 s we e : Q) (ci n : Z) : Q :=
  w0 + (we - w0) * (progress ci n - s) / (e - s).

Definition quintic_value (w0 s we e : Q) (ci n : Z) : Q :=
  w0 + (we - w0) * (1 - (1 - (progress ci n - s) / (e - s)) ^ 5).

(** The first phase of a call went through and left the list [l] in the
    cache: either [l] was there before, or this call built it. *)
Definition constructed (params : option (list Q)) (self self' : Loss)
    (l : list control_point) : Prop :=
  build_decay_params_list params self = (self', Ok tt)
  /\ decay_params_list self' = Some l.

(** No two control points of the schedule share a fraction. *)
Definition distinct_fractions (l : list control_point) : Prop :=
  forall a b, In a l -> In b l -> snd a == snd b -> a = b.

(** The middle of a params sequence, from its [(fraction, value)] pairs. *)
Fixpoint middle (mids : list (Q * Q)) : list Q :=
  match mids with
  | [] => []
  | (fraction, value) :: r => fraction :: value :: middle r
  end.

(** The [(fraction, value)] pairs of a middle of even length. *)
Fixpoint pairs (l : list Q) : list (Q * Q) :=
  match l with
  | fraction :: value :: r => (fraction, value) :: pairs r
  | _ => []
  end.

(** A computation that only reads [self]. *)
Definition pure {A} (m : M A) : Prop := forall self, fst (m self) = self.

(** The indices of [weights] that [forward] overwrites for a preset
    (lines 298, 305, 312-313). *)
Definition forward_writes (preset : string) : list nat :=
  if String.eqb preset "siren_wo_n" then [2%nat]
  else if String.eqb preset "igr" then [1%nat]
  else if String.eqb preset "igr_wo_n" then [1%nat; 2%nat]
  else [].

(** [self'] is [self] except that entries of [weights] at indices of [idx]
    may have become 0. *)
Definition zeroed_at (idx : list nat) (self self' : Loss) : Prop :=
  self' = set_weights (weights self') self
  /\ forall i, weights self' !! i = weights self !! i
               \/ (In i idx /\ weights self' !! i = Some 0).

(** The outcome of a run from [self]: only the listed weights may have been
    zeroed, and all of them have been when the run returns. *)
Definition zeroes {A} (idx : list nat) (self : Loss) (out : Loss * result A) : Prop :=
  zeroed_at idx self (fst out)
  /\ forall a, snd out = Ok a ->
               forall i, In i idx -> weights (fst out) !! i = Some 0.

(** The control points a call works on: the cached ones, or those built
    from [params] after the two assertions. *)
Definition checked_list (cache : option (list control_point))
    (params : option (list Q)) : result (list control_point) :=
  match cache, params with
  | Some l, _ => Ok l
  | None, None => Raise TypeError
  | None, Some ps => if accepted ps then Ok (built_list ps) else Raise AssertionError
  end.

(** The value a kernel assigns for a mode; [Ok None] when it assigns
    nothing. *)
Definition anneal_value (mode : string) (w0 s we e : Q) (ci n : Z) : result (option Q) :=
  if String.eqb mode "linear" then
    Ok (Some (if before_start s ci n then w0
              else if in_window s e ci n then linear_value w0 s we e ci n
              else we))
  else if String.eqb mode "quintic" then
    Ok (Some (if before_start s ci n then w0
              else if in_window s e ci n then quintic_value w0 s we e ci n
              else we))
  else if String.eqb mode "step" then
    Ok (Some (if before_start s ci n then w0 else we))
  else if String.eqb mode "none" then Ok None
  else Raise Warning.

(** The query of a call on the control points [l]. *)
Definition scheduled (l : list control_point) (mode : string) (ci n : Z)
    : result (option Q) :=
  if Qeq_bool (inject_Z n) 0 then Raise ZeroDivisionError
  else match upper_bracket l (progress ci n) with
       | Raise x => Raise x
       | Ok (we, e) =>
           match lower_bracket l (progress ci n) with
           | Raise x => Raise x
           | Ok (w0, s) => anneal_value mode w0 s we e ci n
           end
       end.

(** [self] once the control points [l] are in the method's cache. *)
Definition with_cache (sc : scalar) (l : list control_point) (self : Loss) : Loss :=
  match cache_of sc self with
  | Some _ => self
  | None => set_cache_of sc l self
  end.

(** The assignment of [assign_of] can be carried out. *)
Definition in_range (sc : scalar) (self : Loss) : Prop :=
  match target_index sc with
  | Some i => (i < length (weights self))%nat
  | None => True
  end.

(** [self] after the assignment of [v]. *)
Definition assigned (sc : scalar) (v : Q) (self : Loss) : Loss :=
  match target_index sc with
  | Some i => set_weights (<[i:=v]> (weights self)) self
  | None => set_heat_lambda v self
  end.

(** The current value of the governed scalar. *)
Definition scalar_of (sc : scalar) (self : Loss) : option Q :=
  match target_index sc with
  | Some i => weights self !! i
  | None => Some (heat_lambda self)
  end.

(** The known kernel names. *)
Definition known_mode (mode : string) : Prop :=
  mode = "linear"%string \/ mode = "quintic"%string
  \/ mode = "step"%string \/ mode = "none"%string.

(** The attributes no update method ever writes. *)
Definition fixed_attributes (self : Loss)
    : string * string * Q * bool * bool * bool * bool :=
  (loss_type self, div_type self, phase_epsilon self, use_div self, use_heat self,
   use_phase self, importance_sampling self).

(** An object whose five decay modes are all [mode], for examples. *)
Definition annealing_loss (mode : string) : Loss :=
  Loss_init [1; 1; 1; 1; 1; 1; 1; 1] "everything_including_div_heat_sal" mode
            "dir_l1" 100 (1 # 100) mode mode mode mode true.

(** The three kernel names that assign. *)
Definition assigning_mode (mode : string) : Prop :=
  mode = "linear"%string \/ mode = "quintic"%string \/ mode = "step"%string.

(** [self.weights[i]], or 0 when there is no such entry. *)
Definition weight (self : Loss) (i : nat) : Q := default 0 (weights self !! i).

(** The four presets of the paper that use neither divergence, heat, SAL
    nor phase. *)
Definition paper_presets : list string :=
  [ "siren"; "siren_wo_n"; "igr"; "igr_wo_n" ].

(** The divergence kinds that [forward] supports. *)
Definition div_types : list string := [ "full_l2"; "full_l1"; "dir_l2"; "dir_l1" ].

(** The presets whose combination has a divergence term, a heat term. *)
Definition div_presets : list string :=
  [ "siren_w_div"; "siren_wo_n_w_div"; "everything_including_div_heat_sal" ].

Definition heat_presets : list string :=
  [ "igr_wo_eik_w_heat"; "igr_w_heat"; "everything_including_div_heat_sal" ].

(** The divergence value of a batch for a supported kind. *)
Definition divergence_value (batch : Batch) (kind : string) : Q :=
  if String.eqb kind "full_l2" then full_l2_div batch
  else if String.eqb kind "full_l1" then full_l1_div batch
  else if String.eqb kind "dir_l2" then dir_l2_div batch
  else dir_l1_div batch.


(** * [Loss.update_div_weight] on Python's numbers *)

(** The second embedding of lines 386-432.  A number is a Python [int] or a
    Python [float]; a float is an IEEE 754 binary64 and its operations are
    the primitive ones, which round to nearest, ties to even.  Iteration
    counts are ints.  Only the three attributes the method reads or writes
    are kept. *)
Module Binary64.

Import PrimFloat SpecFloat FloatOps.
Local Open Scope Z_scope.

(** ** Exceptions *)

(** What can be raised: an exception of [exn], or the [OverflowError] of an
    operation that takes an int beyond the range of floats. *)
Inductive error : Type :=
  | OverflowError
  | Exn (e : exn).

Inductive outcome (A : Type) : Type :=
  | Returns (a : A)
  | Raises (e : error).
Arguments Returns {A} a.
Arguments Raises {A} e.

(** A result of the primitives of [Py]. *)
Definition py {A} (r : result A) : outcome A :=
  match r with
  | Ok a => Returns a
  | Raise e => Raises (Exn e)
  end.

(** Evaluate [r], then [k] on its value. *)
Definition and_then {A B} (r : outcome A) (k : A -> outcome B) : outcome B :=
  match r with
  | Returns a => k a
  | Raises e => Raises e
  end.

Notation "'let?' x ':=' r 'in' k" := (and_then r (fun x => k))
  (at level 10, x name, r at level 100, k at level 200).

(** ** Python numbers *)

Module Num.

Inductive num : Type :=
  | Int (z : Z)
  | Float (f : float).

(** The float nearest to [m * 2 ^ e], ties to even; [OverflowError] when it
    is beyond the largest float.  A zero takes the given sign. *)
Definition nearest (m e : Z) (negative_zero : bool) : outcome float :=
  let f := SF2Prim (binary_normalize prec emax m e negative_zero) in
  if is_infinity f then Raises OverflowError else Returns f.

(** [float(z)], the conversion of an int operand of a float operation. *)
Definition float_of_int (z : Z) : outcome float := nearest z 0 false.

Definition as_float (x : num) : outcome float :=
  match x with
  | Int z => float_of_int z
  | Float f => Returns f
  end.

(** [a / b] on two ints: the float nearest to the exact quotient.  The
    quotient is taken to at least 66 bits, with one more bit that records a
    non-zero remainder; this rounds as the exact quotient does. *)
Definition int_truediv (a b : Z) : outcome float :=
  if b =? 0 then Raises (Exn ZeroDivisionError)
  else
    let negative := xorb (a <? 0) (b <? 0) in
    let k := Z.max 0 (Z.log2 (Z.abs b) - Z.log2 (Z.abs a) + 66) in
    let (q, r) := Z.div_eucl (Z.shiftl (Z.abs a) k) (Z.abs b) in
    let m := 2 * q + (if r =? 0 then 0 else 1) in
    nearest (if negative then - m else m) (- k - 1) negative.

(** The order of an int and a float, decided exactly as Python does;
    [None] for a NaN. *)
Definition compare_int_float (z : Z) (f : float) : option comparison :=
  match Prim2SF f with
  | S754_nan => None
  | S754_infinity negative => Some (if negative then Gt else Lt)
  | S754_zero _ => Some (z ?= 0)
  | S754_finite negative m e =>
      let v := if negative then Z.neg m else Z.pos m in
      Some (if 0 <=? e then z ?= v * 2 ^ e else z * 2 ^ (- e) ?= v)
  end.

Definition compare (x y : num) : option comparison :=
  match x, y with
  | Int a, Int b => Some (a ?= b)
  | Int a, Float g => compare_int_float a g
  | Float f, Int b => option_map CompOpp (compare_int_float b f)
  | Float f, Float g =>
      match PrimFloat.compare f g with
      | FEq => Some Eq
      | FLt => Some Lt
      | FGt => Some Gt
      | FNotComparable => None
      end
  end.

(** [x < y], [x <= y], [x > y], [x >= y], [x == y] *)
Definition lt (x y : num) : bool :=
  match compare x y with
  | Some Lt => true
  | _ => false
  end.

Definition le (x y : num) : bool :=
  match compare x y with
  | Some Lt | Some Eq => true
  | _ => false
  end.

Definition gt (x y : num) : bool := lt y x.

Definition ge (x y : num) : bool := le y x.

Definition eq (x y : num) : bool :=
  match compare x y with
  | Some Eq => true
  | _ => false
  end.

(** [x + y], [x - y], [x * y]: exact on two ints; otherwise both operands
    are taken as floats and the float operation rounds. *)
Definition arith (on_int : Z -> Z -> Z) (on_float : float -> float -> float)
    (x y : num) : outcome num :=
  match x, y with
  | Int a, Int b => Returns (Int (on_int a b))
  | _, _ =>
      let? f := as_float x in
      let? g := as_float y in
      Returns (Float (on_float f g))
  end.

Definition add : num -> num -> outcome num := arith Z.add PrimFloat.add.

Definition sub : num -> num -> outcome num := arith Z.sub PrimFloat.sub.

Definition mul : num -> num -> outcome num := arith Z.mul PrimFloat.mul.

(** [x / y] *)
Definition truediv (x y : num) : outcome num :=
  match x, y with
  | Int a, Int b => let? q := int_truediv a b in Returns (Float q)
  | _, _ =>
      let? f := as_float x in
      let? g := as_float y in
      if PrimFloat.eqb g 0 then Raises (Exn ZeroDivisionError)
      else Returns (Float (PrimFloat.div f g))
  end.

(** [x ** k] for a positive int literal [k].  On a float CPython calls the
    C library's [pow] and raises [OverflowError] when the result overflows.
    [pow] is taken here as correctly rounded, which the C standard does not
    promise: a value of the quintic kernel may differ from the library's in
    its last bit.  No statement of this development is about such a value. *)
Definition pow (x : num) (k : positive) : outcome num :=
  match x with
  | Int a => Returns (Int (a ^ Z.pos k))
  | Float f =>
      match Prim2SF f with
      | S754_finite negative m e =>
          let v := if negative then Z.neg m else Z.pos m in
          let? r := nearest (v ^ Z.pos k) (Z.pos k * e) false in
          Returns (Float r)
      | S754_zero negative =>
          Returns (Float (if negative && Z.odd (Z.pos k) then neg_zero else zero))
      | S754_infinity negative =>
          Returns (Float (if negative && Z.odd (Z.pos k) then neg_infinity
                          else infinity))
      | S754_nan => Returns (Float f)
      end
  end.

(** [min(l, key=key)] and [max(l, key=key)]: an item replaces the current
    best when its key is [<], respectively [>], the best's. *)
Fixpoint min_from {A} (key : A -> num) (best : A) (l : list A) : A :=
  match l with
  | [] => best
  | x :: r => if lt (key x) (key best) then min_from key x r
              else min_from key best r
  end.

Definition min {A} (key : A -> num) (l : list A) : outcome A :=
  match l with
  | [] => Raises (Exn ValueError)
  | x :: r => Returns (min_from key x r)
  end.

Fixpoint max_from {A} (key : A -> num) (best : A) (l : list A) : A :=
  match l with
  | [] => best
  | x :: r => if gt (key x) (key best) then max_from key x r
              else max_from key best r
  end.

Definition max {A} (key : A -> num) (l : list A) : outcome A :=
  match l with
  | [] => Raises (Exn ValueError)
  | x :: r => Returns (max_from key x r)
  end.

End Num.

(** ** The object *)

Definition control_point : Type := Num.num * Num.num.

Record Loss : Type := mkLoss {
  weights : list Num.num;
  div_decay : string;
  decay_params_list : option (list control_point)
}.

Definition set_weights (w : list Num.num) (self : Loss) : Loss :=
  {| weights := w;
     div_decay := div_decay self;
     decay_params_list := decay_params_list self |}.

Definition set_decay_params_list (l : list control_point) (self : Loss) : Loss :=
  {| weights := weights self;
     div_decay := div_decay self;
     decay_params_list := Some l |}.

(** ** Method calls *)

Definition M (A : Type) : Type := Loss -> Loss * outcome A.

Definition ret {A} (a : A) : M A := fun self => (self, Returns a).

Definition raise {A} (e : exn) : M A := fun self => (self, Raises (Exn e)).

Definition bind {A B} (m : M A) (k : A -> M B) : M B :=
  fun self =>
    match m self with
    | (self', Returns a) => k a self'
    | (self', Raises e) => (self', Raises e)
    end.

Declare Scope binary64_scope.
Notation "'let*' x ':=' m 'in' k" := (bind m (fun x => k))
  (at level 10, x name, m at level 100, k at level 200) : binary64_scope.
Notation "'let*' ' p ':=' m 'in' k" := (bind m (fun x => let 'p := x in k))
  (at level 10, p pattern, m at level 100, k at level 200) : binary64_scope.
Notation "'run' m 'in' k" := (bind m (fun _ => k))
  (at level 10, m at level 100, k at level 200) : binary64_scope.
Local Open Scope binary64_scope.

Definition attr {A} (f : Loss -> A) : M A := fun self => (self, Returns (f self)).

Definition lift {A} (r : outcome A) : M A := fun self => (self, r).

Definition assert (b : bool) : M unit :=
  if b then ret tt else raise AssertionError.

(** [self.weights[i] = v] *)
Definition store_weight (i : nat) (v : Num.num) : M unit :=
  fun self =>
    match Py.setitem (weights self) i v with
    | Ok w => (set_weights w self, Returns tt)
    | Raise e => (self, Raises (Exn e))
    end.

(** [self.decay_params_list = l] *)
Definition store_decay_params_list (l : list control_point) : M unit :=
  fun self => (set_decay_params_list l self, Returns tt).

(** ** The method *)

(** Lines 392-397.  The fractions [0] and [1] that [zip] adds are int
    literals. *)
Definition build_decay_params_list (params : option (list Num.num)) : M unit :=
  let* cached := attr decay_params_list in
  match cached with
  | Some _ => ret tt
  | None =>
      let* n := lift (py (Py.len params)) in
      run assert (2 <=? n)%nat in
      let params := default [] params in
      run assert (length (Py.slice_1_m1 params) mod 2 =? 0)%nat in
      let* first := lift (py (Py.getitem_0 params)) in
      let* final := lift (py (Py.getitem_m1 params)) in
      let values := first :: Py.slice_1_step2 (Py.slice_1_m1 params) ++ [final] in
      let fractions :=
        Num.Int 0 :: Py.slice_step2 (Py.slice_1_m1 params) ++ [Num.Int 1] in
      store_decay_params_list (zip values fractions)
  end.

(** Lines 400-402 and 403-405; [curr] is the float of line 399. *)
Definition upper_bracket (l : list control_point) (curr : float)
    : outcome control_point :=
  Num.min snd (List.filter (fun tup => Num.ge (snd tup) (Num.Float curr)) l).

Definition lower_bracket (l : list control_point) (curr : float)
    : outcome control_point :=
  Num.max snd (List.filter (fun tup => Num.le (snd tup) (Num.Float curr)) l).

(** Lines 409, 416, 425: [current_iteration < s * n_iterations].  The
    product is an int when [s] is one, and a rounded float otherwise. *)
Definition before_start (s : Num.num) (current_iteration n_iterations : Z)
    : outcome bool :=
  let? start := Num.mul s (Num.Int n_iterations) in
  Returns (Num.lt (Num.Int current_iteration) start).

(** Lines 411, 418: [current_iteration >= s * n_iterations and
    current_iteration < e * n_iterations]; [and] evaluates its second
    operand only when the first is true. *)
Definition in_window (s e : Num.num) (current_iteration n_iterations : Z)
    : outcome bool :=
  let? start := Num.mul s (Num.Int n_iterations) in
  if Num.ge (Num.Int current_iteration) start then
    let? stop := Num.mul e (Num.Int n_iterations) in
    Returns (Num.lt (Num.Int current_iteration) stop)
  else Returns false.

(** Line 412, the right-hand side
    [w0 + (we - w0) * (current_iteration / n_iterations - s) / (e - s)],
    operation by operation in Python's order of evaluation. *)
Definition linear_rhs (w0 s we e : Num.num) (current_iteration n_iterations : Z)
    : outcome Num.num :=
  let? rise := Num.sub we w0 in
  let? p := Num.int_truediv current_iteration n_iterations in
  let? offset := Num.sub (Num.Float p) s in
  let? scaled := Num.mul rise offset in
  let? width := Num.sub e s in
  let? d := Num.truediv scaled width in
  Num.add w0 d.

(** Lines 419-421, the right-hand side
    [w0 + (we - w0) * (1 - (1 - (current_iteration / n_iterations - s) / (e - s)) ** 5)]. *)
Definition quintic_rhs (w0 s we e : Num.num) (current_iteration n_iterations : Z)
    : outcome Num.num :=
  let? rise := Num.sub we w0 in
  let? p := Num.int_truediv current_iteration n_iterations in
  let? offset := Num.sub (Num.Float p) s in
  let? width := Num.sub e s in
  let? d := Num.truediv offset width in
  let? rest := Num.sub (Num.Int 1) d in
  let? fifth := Num.pow rest 5 in
  let? blend := Num.sub (Num.Int 1) fifth in
  let? scaled := Num.mul rise blend in
  Num.add w0 scaled.

(** Lines 408-432. *)
Definition div_kernel (w0 s we e : Num.num) (current_iteration n_iterations : Z)
    : M unit :=
  let* mode := attr div_decay in
  if String.eqb mode "linear" then
    let* early := lift (before_start s current_iteration n_iterations) in
    if early then store_weight 4 w0
    else
      let* inside := lift (in_window s e current_iteration n_iterations) in
      if inside then
        let* v := lift (linear_rhs w0 s we e current_iteration n_iterations) in
        store_weight 4 v
      else store_weight 4 we
  else if String.eqb mode "quintic" then
    let* early := lift (before_start s current_iteration n_iterations) in
    if early then store_weight 4 w0
    else
      let* inside := lift (in_window s e current_iteration n_iterations) in
      if inside then
        let* v := lift (quintic_rhs w0 s we e current_iteration n_iterations) in
        store_weight 4 v
      else store_weight 4 we
  else if String.eqb mode "step" then
    let* early := lift (before_start s current_iteration n_iterations) in
    if early then store_weight 4 w0 else store_weight 4 we
  else if String.eqb mode "none" then ret tt
  else raise Warning.

Definition update_div_weight (current_iteration n_iterations : Z)
    (params : option (list Num.num)) : M unit :=
  run build_decay_params_list params in
  let* l := attr decay_params_list in
  let l := default [] l in
  let* curr := lift (Num.int_truediv current_iteration n_iterations) in
  let* '(we, e) := lift (upper_bracket l curr) in
  let* '(w0, s) := lift (lower_bracket l curr) in
  div_kernel w0 s we e current_iteration n_iterations.

(** ** Notions of the statements *)

(** The first phase of a call went through and left the list [l] in the
    cache. *)
Definition constructed (params : option (list Num.num)) (self self' : Loss)
    (l : list control_point) : Prop :=
  build_decay_params_list params self = (self', Returns tt)
  /\ decay_params_list self' = Some l.

(** The interpolation formula [w0 + (we - w0) * (p - s) / (e - s)] at a
    progress [p], in Python's arithmetic. *)
Definition interpolate (w0 s we e p : Num.num) : outcome Num.num :=
  let? rise := Num.sub we w0 in
  let? offset := Num.sub p s in
  let? scaled := Num.mul rise offset in
  let? width := Num.sub e s in
  let? d := Num.truediv scaled width in
  Num.add w0 d.

(** The kernel names that assign. *)
Definition assigning_mode (mode : string) : Prop :=
  mode = "linear"%string \/ mode = "quintic"%string \/ mode = "step"%string.

(** The running example: eight weights of 1.0 and the params of the
    source's comment, as floats. *)
Definition example_loss (mode : string) : Loss :=
  {| weights := [Num.Float 1; Num.Float 1; Num.Float 1; Num.Float 1;
                 Num.Float 1; Num.Float 1; Num.Float 1; Num.Float 1];
     div_decay := mode;
     decay_params_list := None |}.

Definition example_params : option (list Num.num) :=
  Some [Num.Float 100; Num.Float 0.5; Num.Float 100; Num.Float 0.75;
        Num.Float 0; Num.Float 0].

(** The control points built from [example_params]. *)
Definition example_list : list control_point :=
  [(Num.Float 100, Num.Int 0); (Num.Float 100, Num.Float 0.5);
   (Num.Float 0, Num.Float 0.75); (Num.Float 0, Num.Int 1)].

End Binary64.

(** * Properties *)

(** ** Comparisons on rationals *)

Lemma Qlt_bool_true (x y : Q) : Qlt_bool x y = true <-> x < y.
Proof.
  unfold Qlt_bool. rewrite negb_true_iff, <- not_true_iff_false, Qle_bool_iff.
  split; [apply Qnot_le_lt | apply Qlt_not_le].
Qed.

Lemma Qlt_bool_false (x y : Q) : Qlt_bool x y = false <-> y <= x.
Proof.
  unfold Qlt_bool. rewrite negb_false_iff. apply Qle_bool_iff.
Qed.

Lemma Qle_bool_false (x y : Q) : Qle_bool x y = false <-> y < x.
Proof.
  rewrite <- not_true_iff_false, Qle_bool_iff.
  split; [apply Qnot_le_lt | apply Qlt_not_le].
Qed.

Lemma inject_Z_pos (n : Z) : (0 < n)%Z -> 0 < inject_Z n.
Proof. intros H. change 0 with (inject_Z 0). rewrite <- Zlt_Qlt. exact H. Qed.

Lemma inject_Z_nonzero (n : Z) : n <> 0%Z -> ~ inject_Z n == 0.
Proof.
  intros H E. apply H. apply inject_Z_injective. exact E.
Qed.

(** Scaling a comparison with the progress [ci / n] by a positive [n]. *)
Lemma scale_le (s ci n : Q) : 0 < n -> (s <= ci / n <-> s * n <= ci).
Proof.
  intros Hn. split; intros H.
  - assert (E : ci / n * n == ci) by (field; lra).
    apply Qle_trans with (ci / n * n); [|rewrite E; apply Qle_refl].
    apply Qmult_le_compat_r; lra.
  - apply Qle_shift_div_l; assumption.
Qed.

Lemma scale_lt (e ci n : Q) : 0 < n -> (ci / n < e <-> ci < e * n).
Proof.
  intros Hn. split; intros H.
  - assert (E : ci / n * n == ci) by (field; lra).
    apply Qle_lt_trans with (ci / n * n); [rewrite E; apply Qle_refl|].
    apply Qmult_lt_compat_r; assumption.
  - apply Qlt_shift_div_r; assumption.
Qed.

Lemma truediv_ok (a b : Q) : ~ b == 0 -> Py.truediv a b = Ok (a / b).
Proof.
  intros H. unfold Py.truediv.
  destruct (Qeq_bool b 0) eqn:E; [|reflexivity].
  apply Qeq_bool_eq in E. contradiction.
Qed.

Lemma truediv_zero (a b : Q) : b == 0 -> Py.truediv a b = Raise ZeroDivisionError.
Proof.
  intros H. unfold Py.truediv. now rewrite (Qeq_eq_bool _ _ H).
Qed.

Lemma before_start_false (s : Q) (ci n : Z) :
  (0 < n)%Z -> (before_start s ci n = false <-> s <= progress ci n).
Proof.
  intros Hn. apply inject_Z_pos in Hn. unfold before_start, progress.
  rewrite Qlt_bool_false. symmetry. now apply scale_le.
Qed.

(** The window is empty when it has no width, whatever [n] is. *)
Lemma in_window_degenerate (s e : Q) (ci n : Z) :
  s == e -> in_window s e ci n = false.
Proof.
  intros H. unfold in_window. apply andb_false_iff.
  destruct (Qle_bool (s * inject_Z n) (inject_Z ci)) eqn:E; [right | now left].
  apply Qle_bool_iff in E. apply Qlt_bool_false. rewrite <- H. exact E.
Qed.

Lemma in_window_lt (s e : Q) (ci n : Z) :
  in_window s e ci n = true -> ~ e - s == 0.
Proof.
  intros H E. rewrite in_window_degenerate in H; [discriminate | lra].
Qed.

(** ** [min] and [max] with a key *)

Section Selection.
Context {A : Type} (key : A -> Q).

Lemma min_from_In (l : list A) : forall best, In (Py.min_from key best l) (best :: l).
Proof.
  induction l as [|x r IH]; intros best; simpl; [now left|].
  destruct (Qlt_bool (key x) (key best)).
  - right. apply IH.
  - destruct (IH best) as [E|E]; [now left | now right; right].
Qed.

Lemma max_from_In (l : list A) : forall best, In (Py.max_from key best l) (best :: l).
Proof.
  induction l as [|x r IH]; intros best; simpl; [now left|].
  destruct (Qlt_bool (key best) (key x)).
  - right. apply IH.
  - destruct (IH best) as [E|E]; [now left | now right; right].
Qed.

Lemma min_from_le (l : list A) :
  forall best x, In x (best :: l) -> key (Py.min_from key best l) <= key x.
Proof.
  induction l as [|y r IH]; intros best x Hx; simpl.
  - destruct Hx as [<-|[]]. apply Qle_refl.
  - destruct (Qlt_bool (key y) (key best)) eqn:E.
    + apply Qlt_bool_true in E.
      destruct Hx as [<-|[<-|Hx]].
      * apply Qle_trans with (key y); [apply IH; now left | lra].
      * apply IH. now left.
      * apply IH. now right.
    + apply Qlt_bool_false in E.
      destruct Hx as [<-|[<-|Hx]].
      * apply IH. now left.
      * apply Qle_trans with (key best); [apply IH; now left | lra].
      * apply IH. now right.
Qed.

Lemma max_from_ge (l : list A) :
  forall best x, In x (best :: l) -> key x <= key (Py.max_from key best l).
Proof.
  induction l as [|y r IH]; intros best x Hx; simpl.
  - destruct Hx as [<-|[]]. apply Qle_refl.
  - destruct (Qlt_bool (key best) (key y)) eqn:E.
    + apply Qlt_bool_true in E.
      destruct Hx as [<-|[<-|Hx]].
      * apply Qle_trans with (key y); [lra | apply IH; now left].
      * apply IH. now left.
      * apply IH. now right.
    + apply Qlt_bool_false in E.
      destruct Hx as [<-|[<-|Hx]].
      * apply IH. now left.
      * apply Qle_trans with (key best); [lra | apply IH; now left].
      * apply IH. now right.
Qed.

(** When no key lies below [p], [min] returns the first element at [p]. *)
Lemma min_from_first_at (p : Q) (l : list A) :
  forall best cp,
    (forall x, In x (best :: l) -> p <= key x) ->
    first_at key p (best :: l) = Some cp ->
    Py.min_from key best l = cp.
Proof.
  unfold first_at.
  induction l as [|y r IH]; intros best cp Hall Hfind; simpl in *.
  - destruct (Qeq_bool (key best) p); congruence.
  - assert (Hb : p <= key best) by (apply Hall; now left).
    assert (Hy : p <= key y) by (apply Hall; right; now left).
    destruct (Qlt_bool (key y) (key best)) eqn:E.
    + apply Qlt_bool_true in E. apply IH.
      * intros x [<-|Hx]; [assumption | apply Hall; now right; right].
      * destruct (Qeq_bool (key best) p) eqn:Eb; [|exact Hfind].
        apply Qeq_bool_eq in Eb. lra.
    + apply Qlt_bool_false in E. apply IH.
      * intros x [<-|Hx]; [assumption | apply Hall; now right; right].
      * destruct (Qeq_bool (key best) p) eqn:Eb; [exact Hfind|].
        destruct (Qeq_bool (key y) p) eqn:Ey; [|exact Hfind].
        apply Qeq_bool_eq in Ey. apply Qeq_bool_neq in Eb.
        exfalso. apply Eb. lra.
Qed.

(** When no key lies above [p], [max] returns the first element at [p]. *)
Lemma max_from_first_at (p : Q) (l : list A) :
  forall best cp,
    (forall x, In x (best :: l) -> key x <= p) ->
    first_at key p (best :: l) = Some cp ->
    Py.max_from key best l = cp.
Proof.
  unfold first_at.
  induction l as [|y r IH]; intros best cp Hall Hfind; simpl in *.
  - destruct (Qeq_bool (key best) p); congruence.
  - assert (Hb : key best <= p) by (apply Hall; now left).
    assert (Hy : key y <= p) by (apply Hall; right; now left).
    destruct (Qlt_bool (key best) (key y)) eqn:E.
    + apply Qlt_bool_true in E. apply IH.
      * intros x [<-|Hx]; [assumption | apply Hall; now right; right].
      * destruct (Qeq_bool (key best) p) eqn:Eb; [|exact Hfind].
        apply Qeq_bool_eq in Eb. lra.
    + apply Qlt_bool_false in E. apply IH.
      * intros x [<-|Hx]; [assumption | apply Hall; now right; right].
      * destruct (Qeq_bool (key best) p) eqn:Eb; [exact Hfind|].
        destruct (Qeq_bool (key y) p) eqn:Ey; [|exact Hfind].
        apply Qeq_bool_eq in Ey. apply Qeq_bool_neq in Eb.
        exfalso. apply Eb. lra.
Qed.

Lemma first_at_filter (p : Q) (keep : A -> bool) (l : list A) :
  (forall x, key x == p -> keep x = true) ->
  first_at key p (List.filter keep l) = first_at key p l.
Proof.
  intros Hkeep. unfold first_at.
  induction l as [|x r IH]; simpl; [reflexivity|].
  destruct (Qeq_bool (key x) p) eqn:E.
  - rewrite (Hkeep x (Qeq_bool_eq _ _ E)). simpl. now rewrite E.
  - destruct (keep x); simpl; [rewrite E|]; exact IH.
Qed.

Lemma first_at_In (p : Q) (l : list A) (cp : A) :
  first_at key p l = Some cp -> In cp l /\ key cp == p.
Proof.
  intros H. apply List.find_some in H. destruct H as [H1 H2].
  split; [assumption | now apply Qeq_bool_eq].
Qed.


End Selection.

(** ** The bracket search *)

(** Case analysis on the selection a bracket search runs on. *)
Ltac case_selection b r E :=
  match goal with
  | H : context [List.filter ?f ?l] |- _ =>
      destruct (List.filter f l) as [|b r] eqn:E
  | |- context [List.filter ?f ?l] =>
      destruct (List.filter f l) as [|b r] eqn:E
  end.

Lemma upper_bracket_spec (l : list control_point) (p : Q) (cp : control_point) :
  upper_bracket l p = Ok cp ->
  In cp l /\ p <= snd cp /\ forall x, In x l -> p <= snd x -> snd cp <= snd x.
Proof.
  unfold upper_bracket, Py.min. intros H.
  case_selection b r E; [discriminate|].
  injection H as <-.
  assert (Hin : In (Py.min_from snd b r) (List.filter (fun tup => Qle_bool p (snd tup)) l))
    by (rewrite E; apply min_from_In).
  apply List.filter_In in Hin. destruct Hin as [Hin Hle].
  apply Qle_bool_iff in Hle. repeat split; [assumption..|].
  intros x Hx Hpx. apply min_from_le. rewrite <- E.
  apply List.filter_In. split; [assumption | now apply Qle_bool_iff].
Qed.

Lemma lower_bracket_spec (l : list control_point) (p : Q) (cp : control_point) :
  lower_bracket l p = Ok cp ->
  In cp l /\ snd cp <= p /\ forall x, In x l -> snd x <= p -> snd x <= snd cp.
Proof.
  unfold lower_bracket, Py.max. intros H.
  case_selection b r E; [discriminate|].
  injection H as <-.
  assert (Hin : In (Py.max_from snd b r) (List.filter (fun tup => Qle_bool (snd tup) p) l))
    by (rewrite E; apply max_from_In).
  apply List.filter_In in Hin. destruct Hin as [Hin Hle].
  apply Qle_bool_iff in Hle. repeat split; [assumption..|].
  intros x Hx Hpx. apply max_from_ge. rewrite <- E.
  apply List.filter_In. split; [assumption | now apply Qle_bool_iff].
Qed.

(** The only failure of the searches is [ValueError], on an empty selection. *)
Lemma upper_bracket_raise (l : list control_point) (p : Q) (e : exn) :
  upper_bracket l p = Raise e ->
  e = ValueError /\ forall x, In x l -> snd x < p.
Proof.
  unfold upper_bracket, Py.min. intros H.
  case_selection b r E; [|discriminate].
  split; [congruence|]. intros x Hx.
  apply Qle_bool_false. destruct (Qle_bool p (snd x)) eqn:C; [|reflexivity].
  assert (Hin : In x (List.filter (fun tup => Qle_bool p (snd tup)) l))
    by (apply List.filter_In; split; assumption).
  rewrite E in Hin. destruct Hin.
Qed.

Lemma lower_bracket_raise (l : list control_point) (p : Q) (e : exn) :
  lower_bracket l p = Raise e ->
  e = ValueError /\ forall x, In x l -> p < snd x.
Proof.
  unfold lower_bracket, Py.max. intros H.
  case_selection b r E; [|discriminate].
  split; [congruence|]. intros x Hx.
  apply Qle_bool_false. destruct (Qle_bool (snd x) p) eqn:C; [|reflexivity].
  assert (Hin : In x (List.filter (fun tup => Qle_bool (snd tup) p) l))
    by (apply List.filter_In; split; assumption).
  rewrite E in Hin. destruct Hin.
Qed.

Lemma upper_bracket_empty (l : list control_point) (p : Q) :
  (forall x, In x l -> snd x < p) -> upper_bracket l p = Raise ValueError.
Proof.
  intros H. unfold upper_bracket.
  replace (List.filter _ l) with (@nil control_point); [reflexivity|].
  symmetry. induction l as [|x r IH]; simpl; [reflexivity|].
  assert (Hx : Qle_bool p (snd x) = false)
    by (apply Qle_bool_false, H; now left).
  rewrite Hx. apply IH. intros y Hy. apply H. now right.
Qed.

(** A progress that is the fraction of a control point is bracketed from
    both sides by one and the same control point: the first at it. *)
Lemma brackets_at_fraction (l : list control_point) (p : Q) (cp : control_point) :
  first_at snd p l = Some cp ->
  upper_bracket l p = Ok cp /\ lower_bracket l p = Ok cp.
Proof.
  intros H. split.
  - unfold upper_bracket, Py.min.
    rewrite <- (first_at_filter snd p (fun tup => Qle_bool p (snd tup))) in H
      by (intros x Hx; apply Qle_bool_iff; lra).
    case_selection b r E; [discriminate|].
    f_equal. apply (min_from_first_at snd p); [|exact H].
    intros x Hx. rewrite <- E in Hx. apply List.filter_In in Hx.
    now apply Qle_bool_iff.
  - unfold lower_bracket, Py.max.
    rewrite <- (first_at_filter snd p (fun tup => Qle_bool (snd tup) p)) in H
      by (intros x Hx; apply Qle_bool_iff; lra).
    case_selection b r E; [discriminate|].
    f_equal. apply (max_from_first_at snd p); [|exact H].
    intros x Hx. rewrite <- E in Hx. apply List.filter_In in Hx.
    now apply Qle_bool_iff.
Qed.

(** A control point on the right side of the progress makes a search
    succeed. *)
Lemma lower_bracket_exists (l : list control_point) (p : Q) (cp : control_point) :
  In cp l -> snd cp <= p -> exists b, lower_bracket l p = Ok b.
Proof.
  intros Hin Hle. destruct (lower_bracket l p) as [b|x] eqn:E; [eauto|].
  apply lower_bracket_raise in E. destruct E as [_ E].
  specialize (E cp Hin). lra.
Qed.

Lemma upper_bracket_exists (l : list control_point) (p : Q) (cp : control_point) :
  In cp l -> p <= snd cp -> exists b, upper_bracket l p = Ok b.
Proof.
  intros Hin Hle. destruct (upper_bracket l p) as [b|x] eqn:E; [eauto|].
  apply upper_bracket_raise in E. destruct E as [_ E].
  specialize (E cp Hin). lra.
Qed.

(** ** Reading method calls *)

Lemma set_weights_same (self : Loss) : set_weights (weights self) self = self.
Proof. now destruct self. Qed.

Lemma store_weight_ok (i : nat) (v : Q) (self : Loss) :
  (i < length (weights self))%nat ->
  store_weight i v self = (set_weights (<[i:=v]> (weights self)) self, Ok tt).
Proof.
  intros H. unfold store_weight, Py.setitem.
  destruct (decide (i < length (weights self))%nat); [reflexivity | contradiction].
Qed.

Lemma store_weight_cases (i : nat) (v : Q) (self : Loss) :
  store_weight i v self = (set_weights (<[i:=v]> (weights self)) self, Ok tt)
  \/ store_weight i v self = (self, Raise IndexError).
Proof.
  unfold store_weight, Py.setitem.
  destruct (decide (i < length (weights self))%nat); [now left | now right].
Qed.

Lemma store_weight_cache (i : nat) (v : Q) (self : Loss) :
  decay_params_list (fst (store_weight i v self)) = decay_params_list self.
Proof. destruct (store_weight_cases i v self) as [-> | ->]; reflexivity. Qed.

Lemma store_weight_raise (i : nat) (v : Q) (self : Loss) (e : exn) :
  snd (store_weight i v self) = Raise e -> e = IndexError.
Proof.
  destruct (store_weight_cases i v self) as [-> | ->]; simpl; congruence.
Qed.

(** Lines 392-397, case by case. *)
Lemma build_cached (params : option (list Q)) (self : Loss) (l : list control_point) :
  decay_params_list self = Some l ->
  build_decay_params_list params self = (self, Ok tt).
Proof.
  intros H. unfold build_decay_params_list, bind, attr. now rewrite H.
Qed.

Lemma build_default (self : Loss) :
  decay_params_list self = None ->
  build_decay_params_list None self = (self, Raise TypeError).
Proof.
  intros H. unfold build_decay_params_list, bind, attr. now rewrite H.
Qed.

Lemma build_first (params : list Q) (self : Loss) :
  decay_params_list self = None ->
  build_decay_params_list (Some params) self =
    if accepted params
    then (set_decay_params_list (built_list params) self, Ok tt)
    else (self, Raise AssertionError).
Proof.
  intros H. unfold build_decay_params_list, accepted, bind, attr. rewrite H.
  unfold lift, Py.len, assert.
  change (default [] (Some params)) with params.
  destruct (2 <=? length params)%nat eqn:E1; [|reflexivity].
  cbn [ret raise andb].
  destruct (length (Py.slice_1_m1 params) mod 2 =? 0)%nat eqn:E2; [|reflexivity].
  cbn [ret]. unfold Py.getitem_0, Py.getitem_m1, built_list.
  destruct params as [|x r]; [discriminate|].
  destruct (last (x :: r)) as [y|] eqn:E3; [reflexivity|].
  apply last_None in E3. discriminate.
Qed.

(** Every outcome of the construction step. *)
Lemma build_cases (params : option (list Q)) (self : Loss) :
  (exists l, decay_params_list self = Some l
             /\ build_decay_params_list params self = (self, Ok tt))
  \/ (decay_params_list self = None /\ params = None
      /\ build_decay_params_list params self = (self, Raise TypeError))
  \/ (exists ps, decay_params_list self = None /\ params = Some ps
                 /\ accepted ps = false
                 /\ build_decay_params_list params self = (self, Raise AssertionError))
  \/ (exists ps, decay_params_list self = None /\ params = Some ps
                 /\ accepted ps = true
                 /\ build_decay_params_list params self
                    = (set_decay_params_list (built_list ps) self, Ok tt)).
Proof.
  destruct (decay_params_list self) as [l|] eqn:E.
  - left. exists l. split; [reflexivity | now apply build_cached with l].
  - right. destruct params as [ps|].
    + right. pose proof (build_first ps self E) as B.
      destruct (accepted ps) eqn:Ea; [right | left]; exists ps; auto.
    + left. auto using build_default.
Qed.

(** Lines 408-432 as a total function of the guards: the two divisions of
    the interpolating branch always have a non-zero divisor. *)
Lemma in_window_n_nonzero (s e : Q) (ci n : Z) :
  in_window s e ci n = true -> ~ inject_Z n == 0.
Proof.
  unfold in_window. rewrite andb_true_iff, Qle_bool_iff, Qlt_bool_true.
  intros [H1 H2] E. rewrite E in H1, H2. lra.
Qed.

Lemma div_kernel_linear (w0 s we e : Q) (ci n : Z) (self : Loss) :
  div_decay self = "linear"%string ->
  div_kernel w0 s we e ci n self =
    if before_start s ci n then store_weight 4 w0 self
    else if in_window s e ci n then store_weight 4 (linear_value w0 s we e ci n) self
    else store_weight 4 we self.
Proof.
  intros Hm. unfold div_kernel, bind, attr. rewrite Hm. cbn [String.eqb Ascii.eqb Bool.eqb].
  destruct (before_start s ci n); [reflexivity|].
  destruct (in_window s e ci n) eqn:W; [|reflexivity].
  unfold lift.
  rewrite (truediv_ok _ _ (in_window_n_nonzero _ _ _ _ W)).
  rewrite (truediv_ok _ _ (in_window_lt _ _ _ _ W)).
  reflexivity.
Qed.

Lemma div_kernel_quintic (w0 s we e : Q) (ci n : Z) (self : Loss) :
  div_decay self = "quintic"%string ->
  div_kernel w0 s we e ci n self =
    if before_start s ci n then store_weight 4 w0 self
    else if in_window s e ci n then store_weight 4 (quintic_value w0 s we e ci n) self
    else store_weight 4 we self.
Proof.
  intros Hm. unfold div_kernel, bind, attr. rewrite Hm. cbn [String.eqb Ascii.eqb Bool.eqb].
  destruct (before_start s ci n); [reflexivity|].
  destruct (in_window s e ci n) eqn:W; [|reflexivity].
  unfold lift.
  rewrite (truediv_ok _ _ (in_window_n_nonzero _ _ _ _ W)).
  rewrite (truediv_ok _ _ (in_window_lt _ _ _ _ W)).
  reflexivity.
Qed.

Lemma div_kernel_step (w0 s we e : Q) (ci n : Z) (self : Loss) :
  div_decay self = "step"%string ->
  div_kernel w0 s we e ci n self =
    if before_start s ci n then store_weight 4 w0 self else store_weight 4 we self.
Proof.
  intros Hm. unfold div_kernel, bind, attr. rewrite Hm.
  cbn [String.eqb Ascii.eqb Bool.eqb].
  destruct (before_start s ci n); reflexivity.
Qed.

(** Whatever the mode, the kernel either returns after at most one store to
    [weights[4]], or raises [IndexError] or [Warning] with [self] untouched. *)
Lemma div_kernel_cases (w0 s we e : Q) (ci n : Z) (self : Loss) :
  (exists v, div_kernel w0 s we e ci n self = store_weight 4 v self)
  \/ div_kernel w0 s we e ci n self = (self, Ok tt)
  \/ div_kernel w0 s we e ci n self = (self, Raise Warning).
Proof.
  destruct (String.eqb (div_decay self) "linear") eqn:E1.
  { apply String.eqb_eq in E1. rewrite (div_kernel_linear _ _ _ _ _ _ _ E1). left.
    destruct (before_start s ci n); [eauto|]. destruct (in_window s e ci n); eauto. }
  destruct (String.eqb (div_decay self) "quintic") eqn:E2.
  { apply String.eqb_eq in E2. rewrite (div_kernel_quintic _ _ _ _ _ _ _ E2). left.
    destruct (before_start s ci n); [eauto|]. destruct (in_window s e ci n); eauto. }
  destruct (String.eqb (div_decay self) "step") eqn:E3.
  { apply String.eqb_eq in E3. rewrite (div_kernel_step _ _ _ _ _ _ _ E3). left.
    destruct (before_start s ci n); eauto. }
  right. unfold div_kernel, bind, attr. rewrite E1, E2, E3.
  destruct (String.eqb (div_decay self) "none"); [now left | now right].
Qed.

(** ** [update_div_weight], step by step *)

Lemma update_unfold (params : option (list Q)) (ci n : Z) (self : Loss) :
  update_div_weight ci n params self =
    match build_decay_params_list params self with
    | (self', Raise x) => (self', Raise x)
    | (self', Ok _) =>
        match Py.truediv (inject_Z ci) (inject_Z n) with
        | Raise x => (self', Raise x)
        | Ok curr =>
            match upper_bracket (default [] (decay_params_list self')) curr with
            | Raise x => (self', Raise x)
            | Ok (we, e) =>
                match lower_bracket (default [] (decay_params_list self')) curr with
                | Raise x => (self', Raise x)
                | Ok (w0, s) => div_kernel w0 s we e ci n self'
                end
            end
        end
    end.
Proof.
  unfold update_div_weight, bind at 1.
  destruct (build_decay_params_list params self) as [self' [[]|x]]; [|reflexivity].
  unfold bind, attr, lift.
  destruct (Py.truediv (inject_Z ci) (inject_Z n)) as [curr|x]; [|reflexivity].
  destruct (upper_bracket _ curr) as [[we e]|x]; [|reflexivity].
  destruct (lower_bracket _ curr) as [[w0 s]|x]; reflexivity.
Qed.



(** The exceptions a call can raise once the list is in place. *)
Lemma update_raise_after_build (params : option (list Q)) (ci n : Z)
    (self self' : Loss) (x : exn) :
  build_decay_params_list params self = (self', Ok tt) ->
  snd (update_div_weight ci n params self) = Raise x ->
  (x = ZeroDivisionError /\ n = 0%Z) \/ x = ValueError \/ x = IndexError \/ x = Warning.
Proof.
  intros B. rewrite update_unfold, B. unfold Py.truediv.
  destruct (Qeq_bool (inject_Z n) 0) eqn:En.
  { simpl. intros [= <-]. left. split; [reflexivity|].
    apply Qeq_bool_eq in En. apply inject_Z_injective. exact En. }
  destruct (upper_bracket _ _) as [[we e]|y] eqn:U.
  2:{ simpl. intros [= <-]. apply upper_bracket_raise in U. right; left. tauto. }
  destruct (lower_bracket _ _) as [[w0 s]|y] eqn:L.
  2:{ simpl. intros [= <-]. apply lower_bracket_raise in L. right; left. tauto. }
  destruct (div_kernel_cases w0 s we e ci n self') as [[v ->] | [-> | ->]]; simpl.
  - intros H. apply store_weight_raise in H. tauto.
  - discriminate.
  - intros [= <-]. tauto.
Qed.

(** No step after the construction touches the cached list. *)
Lemma update_keeps_cache (params : option (list Q)) (ci n : Z) (self : Loss) :
  decay_params_list (fst (update_div_weight ci n params self))
  = decay_params_list (fst (build_decay_params_list params self)).
Proof.
  rewrite update_unfold.
  destruct (build_decay_params_list params self) as [self' [[]|x]]; [|reflexivity].
  destruct (Py.truediv _ _) as [curr|x]; [|reflexivity].
  destruct (upper_bracket _ curr) as [[we e]|x]; [|reflexivity].
  destruct (lower_bracket _ curr) as [[w0 s]|x]; [|reflexivity].
  destruct (div_kernel_cases w0 s we e ci n self') as [[v ->] | [-> | ->]];
    [apply store_weight_cache | reflexivity..].
Qed.

(** ** The step kernel *)







(** ** A progress that falls on a control point *)




(** ** Brackets that share a fraction *)

(** C3, as the code has it.  When the two brackets share a fraction, the
    guard of the interpolating branch is false, so neither the linear nor the
    quintic kernel reaches the division by [e - s]: the kernel stores [w0]
    when [current_iteration < s * n_iterations] and [we] otherwise, and it
    does not raise [ZeroDivisionError]. *)
Theorem shared_fraction_skips_division
    (w0 s we e : Q) (ci n : Z) (self : Loss) :
  s == e ->
  div_decay self = "linear"%string \/ div_decay self = "quintic"%string ->
  in_window s e ci n = false
  /\ div_kernel w0 s we e ci n self
     = (if before_start s ci n then store_weight 4 w0 self
        else store_weight 4 we self)
  /\ snd (div_kernel w0 s we e ci n self) <> Raise ZeroDivisionError.
Proof.
  intros Hse Hm.
  assert (W : in_window s e ci n = false) by (now apply in_window_degenerate).
  assert (K : div_kernel w0 s we e ci n self
              = (if before_start s ci n then store_weight 4 w0 self
                 else store_weight 4 we self)).
  { destruct Hm as [Hm | Hm].
    - rewrite div_kernel_linear by assumption. now rewrite W.
    - rewrite div_kernel_quintic by assumption. now rewrite W. }
  repeat split; [assumption..|].
  rewrite K. intros H.
  destruct (before_start s ci n); apply store_weight_raise in H; discriminate.
Qed.

Lemma shared_fraction_skips_division_witness :
  let self := example_loss "linear" "siren_w_div" in
  div_kernel 100 (1 # 2) 0 (1 # 2) 5000 10000 self = store_weight 4 0 self.
Proof.
  intros self.
  destruct (shared_fraction_skips_division 100 (1 # 2) 0 (1 # 2) 5000 10000 self)
    as (_ & K & _); [reflexivity | now left | exact K].
Defined.

(** The kernel never raises [ZeroDivisionError], whatever it is run on. *)
Lemma div_kernel_no_zero_division (w0 s we e : Q) (ci n : Z) (self : Loss) :
  snd (div_kernel w0 s we e ci n self) <> Raise ZeroDivisionError.
Proof.
  destruct (div_kernel_cases w0 s we e ci n self) as [[v ->] | [-> | ->]];
    simpl; try discriminate.
  intros H. apply store_weight_raise in H. discriminate.
Qed.

(** A whole call divides by zero only at line 399, when [n_iterations] is 0. *)
Lemma update_zero_division (params : option (list Q)) (ci n : Z) (self : Loss) :
  snd (update_div_weight ci n params self) = Raise ZeroDivisionError -> n = 0%Z.
Proof.
  intros H.
  destruct (build_decay_params_list params self) as [self' [[]|x]] eqn:B.
  - destruct (update_raise_after_build params ci n self self' _ B H)
      as [[_ ?] | [? | [? | ?]]]; [assumption | discriminate..].
  - rewrite update_unfold, B in H. simpl in H. injection H as ->.
    destruct (build_cases params self)
      as [(l0 & _ & E) | [(_ & _ & E) | [(ps & _ & _ & _ & E) | (ps & _ & _ & _ & E)]]];
      rewrite E in B; discriminate.
Qed.

(** C3, as stated, does not hold: no schedule and no query make a kernel
    divide by a zero [e - s], neither on its own nor inside a whole call. *)
Lemma shared_fraction_division_by_zero_refuted :
  (~ exists (w0 s we e : Q) (ci n : Z) (self : Loss),
       s == e
       /\ (div_decay self = "linear"%string \/ div_decay self = "quintic"%string)
       /\ snd (div_kernel w0 s we e ci n self) = Raise ZeroDivisionError)
  /\ (~ exists (params : option (list Q)) (ci n : Z) (self : Loss),
         n <> 0%Z
         /\ snd (update_div_weight ci n params self) = Raise ZeroDivisionError).
Proof.
  split.
  - intros (w0 & s & we & e & ci & n & self & _ & _ & H).
    exact (div_kernel_no_zero_division w0 s we e ci n self H).
  - intros (params & ci & n & self & Hn & H).
    exact (Hn (update_zero_division params ci n self H)).
Qed.

(** ** A progress beyond the schedule *)



(** For a schedule whose fractions are all at most 1, every progress above
    1 is beyond the schedule. *)
Corollary progress_above_one_fails
    (params : option (list Q)) (ci n : Z) (self self' : Loss)
    (l : list control_point) :
  constructed params self self' l ->
  n <> 0%Z ->
  (forall cp, In cp l -> snd cp <= 1) ->
  1 < progress ci n ->
  update_div_weight ci n params self = (self', Raise ValueError).
Proof.
  intros C Hn Hall Hp.
  assert (U : upper_bracket l (progress ci n) = Raise ValueError).
  { apply upper_bracket_empty. intros cp Hcp. specialize (Hall cp Hcp). lra. }
  destruct C as [B Hl]. rewrite update_unfold, B, Hl.
  rewrite (truediv_ok _ _ (inject_Z_nonzero n Hn)). cbn [default from_option id].
  fold (progress ci n). now rewrite U.
Qed.


(** ** Construction of the control-point list *)

Lemma slice_1_m1_middle (start final : Q) (mids : list (Q * Q)) :
  Py.slice_1_m1 (start :: middle mids ++ [final]) = middle mids.
Proof. unfold Py.slice_1_m1. cbn [tail]. apply removelast_last. Qed.

Lemma slice_step2_middle (mids : list (Q * Q)) :
  Py.slice_step2 (middle mids) = map fst mids.
Proof.
  induction mids as [|[f v] r IH]; [reflexivity|].
  cbn [middle Py.slice_step2 map fmap list_fmap fst]. now rewrite IH.
Qed.

Lemma slice_1_step2_middle (mids : list (Q * Q)) :
  Py.slice_1_step2 (middle mids) = map snd mids.
Proof.
  unfold Py.slice_1_step2.
  induction mids as [|[f v] r IH]; [reflexivity|].
  cbn [middle tail Py.slice_step2 map snd].
  destruct r as [|[f' v'] r']; [reflexivity|].
  cbn [middle tail map snd] in *. now rewrite IH.
Qed.

Lemma length_middle (mids : list (Q * Q)) :
  length (middle mids) = (2 * length mids)%nat.
Proof.
  induction mids as [|[f v] r IH]; [reflexivity|].
  cbn [middle length]. lia.
Qed.

Lemma last_middle (start final : Q) (mids : list (Q * Q)) :
  last (start :: middle mids ++ [final]) = Some final.
Proof. rewrite app_comm_cons. apply last_snoc. Qed.

Lemma accepted_middle (start final : Q) (mids : list (Q * Q)) :
  accepted (start :: middle mids ++ [final]) = true.
Proof.
  unfold accepted. rewrite slice_1_m1_middle, length_middle.
  apply andb_true_intro. split.
  - apply Nat.leb_le. cbn [length]. rewrite length_app. cbn [length]. lia.
  - apply Nat.eqb_eq. rewrite Nat.mul_comm. apply Nat.Div0.mod_mul.
Qed.

Lemma zip_values_fractions (final : Q) (mids : list (Q * Q)) :
  zip (map snd mids ++ [final]) (map fst mids ++ [1])
  = map (fun m => (snd m, fst m)) mids ++ [(final, 1)].
Proof.
  induction mids as [|[f v] r IH]; [reflexivity|].
  cbn [map app zip_with fst snd]. now rewrite <- IH.
Qed.

Lemma built_list_middle (start final : Q) (mids : list (Q * Q)) :
  built_list (start :: middle mids ++ [final])
  = (start, 0) :: map (fun m => (snd m, fst m)) mids ++ [(final, 1)].
Proof.
  unfold built_list.
  rewrite last_middle, slice_1_m1_middle, slice_1_step2_middle, slice_step2_middle.
  cbn [head default from_option id zip_with]. f_equal. apply zip_values_fractions.
Qed.

Lemma middle_pairs (l : list Q) :
  (length l mod 2 = 0)%nat -> middle (pairs l) = l.
Proof.
  revert l. fix IH 1. intros [|f [|v r]] H.
  - reflexivity.
  - discriminate.
  - cbn [pairs middle]. rewrite IH; [reflexivity|].
    cbn [length] in H.
    replace (S (S (length r))) with (length r + 1 * 2)%nat in H by lia.
    now rewrite Nat.Div0.mod_add in H.
Qed.

(** Every accepted params sequence is a start value, pairs, an end value. *)
Lemma accepted_shape (ps : list Q) :
  accepted ps = true ->
  exists start mids final, ps = start :: middle mids ++ [final].
Proof.
  unfold accepted. intros H. apply andb_prop in H. destruct H as [H1 H2].
  apply Nat.leb_le in H1. apply Nat.eqb_eq in H2.
  destruct ps as [|start r]; [cbn in H1; lia|].
  destruct (exists_last (l:=r)) as (m & final & ->).
  { intros ->. cbn in H1. lia. }
  exists start, (pairs m), final.
  unfold Py.slice_1_m1 in H2. cbn [tail] in H2. rewrite removelast_last in H2.
  now rewrite middle_pairs.
Qed.

(** C4.  The first call on params [(start, [fraction, value]*, final)]
    builds the list [(start, 0), (value_1, fraction_1), ..., (final, 1)]:
    its values are the start value, the second element of every middle pair
    and the end value; its fractions are 0, the first element of every middle
    pair and 1.  The list stays in the cache whatever the query does. *)
Theorem construction_builds_control_points
    (start final : Q) (mids : list (Q * Q)) (ci n : Z) (self : Loss) :
  decay_params_list self = None ->
  let params := start :: middle mids ++ [final] in
  let l := (start, 0) :: map (fun m => (snd m, fst m)) mids ++ [(final, 1)] in
  build_decay_params_list (Some params) self = (set_decay_params_list l self, Ok tt)
  /\ decay_params_list (fst (update_div_weight ci n (Some params) self)) = Some l
  /\ map fst l
     = start :: Py.slice_1_step2 (Py.slice_1_m1 params) ++ [final]
  /\ map snd l
     = 0 :: Py.slice_step2 (Py.slice_1_m1 params) ++ [1].
Proof.
  intros Hc params l.
  assert (B : build_decay_params_list (Some params) self
              = (set_decay_params_list l self, Ok tt)).
  { subst params l. rewrite build_first by assumption.
    now rewrite accepted_middle, built_list_middle. }
  split; [exact B|]. split; [now rewrite update_keeps_cache, B|].
  subst params l. rewrite slice_1_m1_middle, slice_1_step2_middle, slice_step2_middle.
  cbn [map fst snd]. rewrite !map_app, !map_map. cbn [map fst snd]. split; reflexivity.
Qed.

Lemma construction_builds_control_points_witness :
  let self := example_loss "linear" "siren_w_div" in
  decay_params_list (fst (update_div_weight 6000 10000 example_params self))
  = Some [(100, 0); (100, 1 # 2); (0, 3 # 4); (0, 1)].
Proof.
  intros self.
  destruct (construction_builds_control_points 100 0 [(1 # 2, 100); (3 # 4, 0)]
              6000 10000 self) as (_ & H & _); [reflexivity | exact H].
Defined.

(** ** Validation of the params sequence *)

Lemma accepted_false (ps : list Q) :
  accepted ps = false
  <-> (length ps < 2)%nat \/ (length (Py.slice_1_m1 ps) mod 2 <> 0)%nat.
Proof.
  unfold accepted. rewrite andb_false_iff, Nat.leb_gt, Nat.eqb_neq. reflexivity.
Qed.

(** C9, as the code has it.  A first call raises [AssertionError] exactly
    when the params sequence has fewer than 2 elements or a middle of odd
    length, and then nothing of [self] has changed: no list is built and no
    weight is stored.  Every other sequence is accepted and its list built. *)
Theorem malformed_params_rejected (ps : list Q) (ci n : Z) (self : Loss) :
  decay_params_list self = None ->
  (snd (update_div_weight ci n (Some ps) self) = Raise AssertionError
   <-> (length ps < 2)%nat \/ (length (Py.slice_1_m1 ps) mod 2 <> 0)%nat)
  /\ (snd (update_div_weight ci n (Some ps) self) = Raise AssertionError ->
      fst (update_div_weight ci n (Some ps) self) = self)
  /\ (snd (update_div_weight ci n (Some ps) self) <> Raise AssertionError ->
      decay_params_list (fst (update_div_weight ci n (Some ps) self))
      = Some (built_list ps)).
Proof.
  intros Hc. pose proof (build_first ps self Hc) as B.
  rewrite <- accepted_false.
  destruct (accepted ps) eqn:A.
  - assert (N : snd (update_div_weight ci n (Some ps) self) <> Raise AssertionError).
    { intros H.
      destruct (update_raise_after_build _ ci n self _ _ B H)
        as [[? _] | [? | [? | ?]]]; discriminate. }
    split; [|split].
    + split; [intros H; contradiction | discriminate].
    + intros H. contradiction.
    + intros _. now rewrite update_keeps_cache, B.
  - assert (E : update_div_weight ci n (Some ps) self = (self, Raise AssertionError))
      by (now rewrite update_unfold, B).
    rewrite E. simpl. split; [|split]; [tauto | reflexivity | congruence].
Qed.

(** Three values, hence one middle element: rejected, [self] unchanged. *)
Lemma malformed_params_rejected_witness :
  let self := example_loss "linear" "siren_w_div" in
  update_div_weight 0 1 (Some [1; 1 # 2; 3]) self = (self, Raise AssertionError).
Proof.
  intros self.
  destruct (malformed_params_rejected [1; 1 # 2; 3] 0 1 self) as ([_ R] & F & _);
    [reflexivity|].
  assert (H : snd (update_div_weight 0 1 (Some [1; 1 # 2; 3]) self) = Raise AssertionError)
    by (apply R; right; discriminate).
  specialize (F H).
  destruct (update_div_weight 0 1 (Some [1; 1 # 2; 3]) self) as [s r].
  simpl in *. now subst.
Defined.

(** C9, as stated, does not hold on its example: params (1, 1/2, 2, 3) has
    two middle elements, passes both assertions and builds
    [(1,0), (2,1/2), (3,1)]. *)
Lemma four_params_accepted :
  let self := example_loss "linear" "siren_w_div" in
  length (Py.slice_1_m1 [1; 1 # 2; 2; 3]) = 2%nat
  /\ snd (update_div_weight 0 1 (Some [1; 1 # 2; 2; 3]) self) = Ok tt
  /\ decay_params_list (fst (update_div_weight 0 1 (Some [1; 1 # 2; 2; 3]) self))
     = Some [(1, 0); (2, 1 # 2); (3, 1)].
Proof. intros self. repeat split. Qed.

(** ** Memoisation of the list *)



(** ** What [forward] does to [self] *)

Lemma pure_ret {A} (a : A) : pure (ret a).
Proof. intros self. reflexivity. Qed.

Lemma pure_raise {A} (e : exn) : pure (@raise A e).
Proof. intros self. reflexivity. Qed.

Lemma pure_attr {A} (f : Loss -> A) : pure (attr f).
Proof. intros self. reflexivity. Qed.

Lemma pure_lift {A} (r : result A) : pure (lift r).
Proof. intros self. reflexivity. Qed.

Lemma pure_load_weight (i : nat) : pure (load_weight i).
Proof. intros self. reflexivity. Qed.

Lemma pure_bind {A B} (m : M A) (k : A -> M B) :
  pure m -> (forall a, pure (k a)) -> pure (bind m k).
Proof.
  intros Hm Hk self. unfold bind. specialize (Hm self).
  destruct (m self) as [self' [a|e]]; simpl in *; subst; [apply Hk | reflexivity].
Qed.

Lemma pure_weighted (i : nat) (term : Q) : pure (weighted i term).
Proof.
  apply pure_bind; [apply pure_load_weight | intros w; apply pure_ret].
Qed.

Lemma pure_when_weight_positive (i : nat) (m : M Q) :
  pure m -> pure (when_weight_positive i m).
Proof.
  intros Hm. apply pure_bind; [apply pure_load_weight|].
  intros w. destruct (Qlt_bool 0 w); [exact Hm | apply pure_ret].
Qed.

Create HintDb pure_db.
#[local] Hint Resolve pure_ret pure_raise pure_attr pure_lift pure_load_weight
  pure_weighted pure_when_weight_positive : pure_db.

Ltac prove_pure :=
  repeat first
    [ solve [auto with pure_db]
    | apply pure_when_weight_positive
    | apply pure_bind; [|intros ?]
    | match goal with
      | |- pure (if ?b then _ else _) => destruct b
      | |- pure (match ?x with _ => _ end) => destruct x
      end ].

Lemma bind_pure_l {A B} (m : M A) (k : A -> M B) (self : Loss) :
  pure m ->
  bind m k self = match snd (m self) with
                  | Ok a => k a self
                  | Raise e => (self, Raise e)
                  end.
Proof.
  intros Hm. unfold bind. specialize (Hm self).
  destruct (m self) as [self' [a|e]]; simpl in *; now subst.
Qed.

Lemma bind_pure_r {A B} (m : M A) (k : A -> M B) (self : Loss) :
  (forall a, pure (k a)) ->
  fst (bind m k self) = fst (m self)
  /\ forall b, snd (bind m k self) = Ok b -> exists a, snd (m self) = Ok a.
Proof.
  intros Hk. unfold bind.
  destruct (m self) as [self' [a|e]]; simpl.
  - split; [apply Hk | eauto].
  - split; [reflexivity | discriminate].
Qed.

Lemma zeroed_at_refl (idx : list nat) (self : Loss) : zeroed_at idx self self.
Proof. split; [symmetry; apply set_weights_same | now left]. Qed.

Lemma zeroed_at_nil (self self' : Loss) : zeroed_at [] self self' -> self' = self.
Proof.
  intros [E H]. rewrite E. rewrite <- (set_weights_same self) at 2. f_equal.
  apply list_eq. intros i. destruct (H i) as [? | [[] _]]. assumption.
Qed.

Lemma zeroes_raise {A} (idx : list nat) (self : Loss) (e : exn) :
  @zeroes A idx self (self, Raise e).
Proof. split; [apply zeroed_at_refl | discriminate]. Qed.

Lemma zeroes_nil {A} (m : M A) (self : Loss) : pure m -> zeroes [] self (m self).
Proof.
  intros Hm. split; [rewrite Hm; apply zeroed_at_refl | intros a _ i []].
Qed.

Lemma zeroes_pure_bind {A B} (idx : list nat) (m : M A) (k : A -> M B) (self : Loss) :
  pure m ->
  (forall a, zeroes idx self (k a self)) ->
  zeroes idx self (bind m k self).
Proof.
  intros Hm Hk. rewrite bind_pure_l by assumption.
  destruct (snd (m self)); [apply Hk | apply zeroes_raise].
Qed.

Lemma zeroes_bind_pure {A B} (idx : list nat) (m : M A) (k : A -> M B) (self : Loss) :
  zeroes idx self (m self) ->
  (forall a, pure (k a)) ->
  zeroes idx self (bind m k self).
Proof.
  intros [Z O] Hk. destruct (bind_pure_r m k self Hk) as [E S].
  split; rewrite E; [exact Z|].
  intros b Hb. destruct (S b Hb) as [a Ha]. now apply (O a).
Qed.

(** One store of 0, then reads only. *)
Lemma zeroes_store {A} (i : nat) (k : unit -> M A) (self : Loss) :
  (forall a, pure (k a)) ->
  zeroes [i] self (bind (store_weight i 0) k self).
Proof.
  intros Hk. apply zeroes_bind_pure; [|assumption].
  unfold store_weight, Py.setitem.
  destruct (decide (i < length (weights self))%nat) as [Hi|Hi];
    [|apply zeroes_raise].
  split; simpl.
  - split; [reflexivity|]. intros j. simpl.
    destruct (decide (j = i)) as [->|Hj].
    + right. split; [now left | now apply list_lookup_insert_eq].
    + left. now apply list_lookup_insert_ne.
  - intros _ _ j [<-|[]]. now apply list_lookup_insert_eq.
Qed.

(** Two stores of 0, then reads only. *)
Lemma zeroes_store_store {A} (i j : nat) (k : unit -> M A) (self : Loss) :
  i <> j ->
  (forall a, pure (k a)) ->
  zeroes [i; j] self
    (bind (store_weight i 0) (fun _ => bind (store_weight j 0) k) self).
Proof.
  intros Hij Hk. unfold bind at 1. unfold store_weight at 1, Py.setitem.
  destruct (decide (i < length (weights self))%nat) as [Hi|Hi];
    [|apply zeroes_raise].
  set (self1 := set_weights (<[i:=0]> (weights self)) self).
  destruct (zeroes_store j k self1 Hk) as [[E Z] O].
  assert (W : forall x, weights self1 !! x = weights self !! x
                        \/ (x = i /\ weights self1 !! x = Some 0)).
  { intros x. simpl. destruct (decide (x = i)) as [->|Hx].
    - right. split; [reflexivity | now apply list_lookup_insert_eq].
    - left. now apply list_lookup_insert_ne. }
  split; [split|].
  - rewrite E at 1. reflexivity.
  - intros x. destruct (Z x) as [Zx | [[<-|[]] Zx]].
    + rewrite Zx. destruct (W x) as [Wx | [-> Wx]];
        [now left | right; split; [now left | exact Wx]].
    + right. split; [right; now left | exact Zx].
  - intros a Ha x [<-|[<-|[]]].
    + destruct (Z i) as [Zi | [[C|[]] _]]; [|congruence].
      rewrite Zi. simpl. now apply list_lookup_insert_eq.
    + apply (O a Ha). now left.
Qed.

Lemma string_eqb_true (a b : string) : String.eqb a b = true -> a = b.
Proof. apply String.eqb_eq. Qed.

(** Lines 290-364: each preset writes what [forward_writes] lists. *)
Lemma combine_terms_zeroes
    (boundary_term inter_term normal_term eikonal_term div_term sal_term
       heat_term phase_term : Q) (self : Loss) :
  zeroes (forward_writes (loss_type self)) self
    (combine_terms boundary_term inter_term normal_term eikonal_term div_term
       sal_term heat_term phase_term self).
Proof.
  unfold combine_terms. unfold bind at 1. unfold attr at 1.
  unfold forward_writes.
  destruct (String.eqb (loss_type self) "siren") eqn:E1.
  { rewrite (string_eqb_true _ _ E1). apply zeroes_nil. prove_pure. }
  destruct (String.eqb (loss_type self) "siren_wo_n") eqn:E2.
  { apply zeroes_store. intros ?. prove_pure. }
  destruct (String.eqb (loss_type self) "igr") eqn:E3.
  { apply zeroes_store. intros ?. prove_pure. }
  destruct (String.eqb (loss_type self) "igr_wo_n") eqn:E4.
  { apply zeroes_store_store; [discriminate|]. intros ?. prove_pure. }
  apply zeroes_nil.
  repeat match goal with
         | |- pure (if ?b then _ else _) => destruct b
         end; prove_pure.
Qed.

Lemma forward_zeroes (batch : Batch) (self : Loss) :
  zeroes (forward_writes (loss_type self)) self (forward batch self).
Proof.
  unfold forward.
  do 11 (apply zeroes_pure_bind; [prove_pure | intros ?]).
  apply zeroes_bind_pure; [apply combine_terms_zeroes|].
  intros ?. prove_pure.
Qed.

(** C2, as the code has it.  A call of [forward] changes no attribute of
    [self] other than [weights]; in [weights] it changes nothing outside the
    entries its preset zeroes, namely entry 2 for "siren_wo_n", entry 1 for
    "igr" and entries 1 and 2 for "igr_wo_n", and these are 0 when the call
    returns.  For any other [loss_type], [self] is left as it was. *)
Theorem forward_effect_on_self (batch : Batch) (self : Loss) :
  let self' := fst (forward batch self) in
  let idx := forward_writes (loss_type self) in
  self' = set_weights (weights self') self
  /\ (forall i, weights self' !! i = weights self !! i
                \/ (In i idx /\ weights self' !! i = Some 0))
  /\ (forall out, snd (forward batch self) = Ok out ->
                  forall i, In i idx -> weights self' !! i = Some 0)
  /\ (loss_type self <> "siren_wo_n"%string ->
      loss_type self <> "igr"%string ->
      loss_type self <> "igr_wo_n"%string ->
      self' = self).
Proof.
  intros self' idx. destruct (forward_zeroes batch self) as [[E Z] O].
  repeat split; [exact E | exact Z | exact O |].
  intros N1 N2 N3. apply zeroed_at_nil.
  assert (I : forward_writes (loss_type self) = []).
  { unfold forward_writes.
    apply String.eqb_neq in N1, N2, N3. now rewrite N1, N2, N3. }
  rewrite <- I. split; [exact E | exact Z].
Qed.

Lemma forward_effect_on_self_witness :
  let self := example_loss "none" "siren_w_div" in
  fst (forward example_batch self) = self.
Proof.
  intros self.
  destruct (forward_effect_on_self example_batch self) as (_ & _ & _ & F).
  apply F; discriminate.
Defined.

(** C2, as stated, does not hold: with the preset "igr" a call that returns
    has overwritten [weights[1]], here from 1 to 0. *)
Lemma forward_igr_writes_weights :
  let self := example_loss "none" "igr" in
  In (loss_type self) presets
  /\ (exists out, snd (forward example_batch self) = Ok out)
  /\ weights self = [1; 1; 1; 1; 1; 1; 1; 1]
  /\ weights (fst (forward example_batch self)) = [1; 0; 1; 1; 1; 1; 1; 1]
  /\ fst (forward example_batch self) <> self.
Proof.
  intros self. split; [right; right; now left|].
  split; [eexists; reflexivity|].
  split; [reflexivity|]. split; [reflexivity|].
  intros H. apply (f_equal weights) in H. discriminate.
Qed.

(** * Further properties *)

(** ** The five update methods are one schema *)

Lemma update_of_scalar (sc : scalar) : update_of sc = update_scalar sc.
Proof. destruct sc; reflexivity. Qed.

Lemma cache_of_set_cache (sc : scalar) (l : list control_point) (self : Loss) :
  cache_of sc (set_cache_of sc l self) = Some l.
Proof. destruct sc; reflexivity. Qed.

Lemma mode_of_set_cache (sc sc' : scalar) (l : list control_point) (self : Loss) :
  mode_of sc (set_cache_of sc' l self) = mode_of sc self.
Proof. destruct sc, sc'; reflexivity. Qed.

Lemma mode_of_with_cache (sc sc' : scalar) (l : list control_point) (self : Loss) :
  mode_of sc (with_cache sc' l self) = mode_of sc self.
Proof.
  unfold with_cache. destruct (cache_of sc' self); [reflexivity|].
  apply mode_of_set_cache.
Qed.

Lemma cache_of_with_cache (sc : scalar) (l : list control_point) (self : Loss) :
  cache_of sc self = None \/ cache_of sc self = Some l ->
  cache_of sc (with_cache sc l self) = Some l.
Proof.
  unfold with_cache. intros [H | H]; rewrite H; [apply cache_of_set_cache | exact H].
Qed.

Lemma assign_in_range (sc : scalar) (v : Q) (self : Loss) :
  in_range sc self -> assign_of sc v self = (assigned sc v self, Ok tt).
Proof.
  unfold in_range, assign_of, assigned.
  destruct (target_index sc) as [i|]; [apply store_weight_ok | reflexivity].
Qed.

Lemma assign_out_of_range (sc : scalar) (v : Q) (self : Loss) :
  ~ in_range sc self -> assign_of sc v self = (self, Raise IndexError).
Proof.
  unfold in_range, assign_of.
  destruct (target_index sc) as [i|]; [|tauto].
  intros H. unfold store_weight, Py.setitem.
  destruct (decide (i < length (weights self))%nat); [contradiction | reflexivity].
Qed.

Lemma in_range_dec (sc : scalar) (self : Loss) : in_range sc self \/ ~ in_range sc self.
Proof.
  unfold in_range. destruct (target_index sc) as [i|]; [|now left].
  destruct (decide (i < length (weights self))%nat); [now left | now right].
Qed.

Lemma build_scalar_spec (sc : scalar) (params : option (list Q)) (self : Loss) :
  build_scalar sc params self =
    match checked_list (cache_of sc self) params with
    | Ok l => (with_cache sc l self, Ok tt)
    | Raise x => (self, Raise x)
    end.
Proof.
  unfold build_scalar, checked_list, with_cache, bind, attr.
  destruct (cache_of sc self) as [l|] eqn:C; [reflexivity|].
  destruct params as [ps|]; [|reflexivity].
  unfold lift, Py.len, assert, accepted.
  change (default [] (Some ps)) with ps.
  destruct (2 <=? length ps)%nat eqn:E1; [|reflexivity].
  cbn [ret raise andb].
  destruct (length (Py.slice_1_m1 ps) mod 2 =? 0)%nat eqn:E2; [|reflexivity].
  cbn [ret]. unfold Py.getitem_0, Py.getitem_m1, built_list.
  destruct ps as [|x r]; [discriminate|].
  destruct (last (x :: r)) as [y|] eqn:E3; [reflexivity|].
  apply last_None in E3. discriminate.
Qed.

Lemma kernel_scalar_spec (sc : scalar) (w0 s we e : Q) (ci n : Z) (self : Loss) :
  kernel_scalar sc w0 s we e ci n self =
    match anneal_value (mode_of sc self) w0 s we e ci n with
    | Ok (Some v) => assign_of sc v self
    | Ok None => (self, Ok tt)
    | Raise x => (self, Raise x)
    end.
Proof.
  unfold kernel_scalar, anneal_value, bind at 1, attr.
  destruct (String.eqb (mode_of sc self) "linear").
  { destruct (before_start s ci n); [reflexivity|].
    destruct (in_window s e ci n) eqn:W; [|reflexivity].
    unfold bind, lift.
    rewrite (truediv_ok _ _ (in_window_n_nonzero _ _ _ _ W)).
    rewrite (truediv_ok _ _ (in_window_lt _ _ _ _ W)). reflexivity. }
  destruct (String.eqb (mode_of sc self) "quintic").
  { destruct (before_start s ci n); [reflexivity|].
    destruct (in_window s e ci n) eqn:W; [|reflexivity].
    unfold bind, lift.
    rewrite (truediv_ok _ _ (in_window_n_nonzero _ _ _ _ W)).
    rewrite (truediv_ok _ _ (in_window_lt _ _ _ _ W)). reflexivity. }
  destruct (String.eqb (mode_of sc self) "step").
  { destruct (before_start s ci n); reflexivity. }
  destruct (String.eqb (mode_of sc self) "none"); reflexivity.
Qed.

(** A call of any of the five methods, in closed form. *)
Lemma update_of_spec (sc : scalar) (ci n : Z) (params : option (list Q)) (self : Loss) :
  update_of sc ci n params self =
    match checked_list (cache_of sc self) params with
    | Raise x => (self, Raise x)
    | Ok l =>
        match scheduled l (mode_of sc self) ci n with
        | Raise x => (with_cache sc l self, Raise x)
        | Ok None => (with_cache sc l self, Ok tt)
        | Ok (Some v) => assign_of sc v (with_cache sc l self)
        end
    end.
Proof.
  rewrite update_of_scalar. unfold update_scalar, bind at 1.
  rewrite build_scalar_spec.
  destruct (checked_list (cache_of sc self) params) as [l|x] eqn:C; [|reflexivity].
  assert (Hc : cache_of sc (with_cache sc l self) = Some l).
  { apply cache_of_with_cache. unfold checked_list in C.
    destruct (cache_of sc self) as [l0|]; [right; congruence | now left]. }
  unfold bind at 1. unfold attr at 1. rewrite Hc. cbn [default from_option id].
  unfold scheduled, Py.truediv, bind at 1, lift at 1.
  destruct (Qeq_bool (inject_Z n) 0); [reflexivity|].
  fold (progress ci n). unfold bind at 1, lift at 1.
  destruct (upper_bracket l (progress ci n)) as [[we e]|x]; [|reflexivity].
  unfold bind at 1, lift at 1.
  destruct (lower_bracket l (progress ci n)) as [[w0 s]|x]; [|reflexivity].
  rewrite kernel_scalar_spec, mode_of_with_cache. reflexivity.
Qed.

(** ** What a call leaves alone *)

Lemma set_cache_other (sc sc' : scalar) (l : list control_point) (self : Loss) :
  sc' <> sc -> cache_of sc' (set_cache_of sc l self) = cache_of sc' self.
Proof. destruct sc, sc'; intros H; try reflexivity; contradiction. Qed.

Lemma with_cache_other (sc sc' : scalar) (l : list control_point) (self : Loss) :
  sc' <> sc -> cache_of sc' (with_cache sc l self) = cache_of sc' self.
Proof.
  intros H. unfold with_cache. destruct (cache_of sc self); [reflexivity|].
  now apply set_cache_other.
Qed.

Lemma with_cache_weights (sc : scalar) (l : list control_point) (self : Loss) :
  weights (with_cache sc l self) = weights self
  /\ heat_lambda (with_cache sc l self) = heat_lambda self.
Proof.
  unfold with_cache. destruct (cache_of sc self); [now split|].
  destruct sc; now split.
Qed.

Lemma with_cache_in_range (sc sc' : scalar) (l : list control_point) (self : Loss) :
  in_range sc' (with_cache sc l self) <-> in_range sc' self.
Proof.
  unfold in_range. destruct (with_cache_weights sc l self) as [-> _]. reflexivity.
Qed.

Lemma with_cache_scalar (sc sc' : scalar) (l : list control_point) (self : Loss) :
  scalar_of sc' (with_cache sc l self) = scalar_of sc' self.
Proof.
  unfold scalar_of. destruct (with_cache_weights sc l self) as [-> ->]. reflexivity.
Qed.

Lemma with_cache_fixed (sc : scalar) (l : list control_point) (self : Loss) :
  fixed_attributes (with_cache sc l self) = fixed_attributes self.
Proof.
  unfold with_cache. destruct (cache_of sc self); [reflexivity|].
  destruct sc; reflexivity.
Qed.

Lemma assigned_cache (sc sc' : scalar) (v : Q) (self : Loss) :
  cache_of sc' (assigned sc v self) = cache_of sc' self.
Proof. destruct sc, sc'; reflexivity. Qed.

Lemma assigned_mode (sc sc' : scalar) (v : Q) (self : Loss) :
  mode_of sc' (assigned sc v self) = mode_of sc' self.
Proof. destruct sc, sc'; reflexivity. Qed.

Lemma assigned_fixed (sc : scalar) (v : Q) (self : Loss) :
  fixed_attributes (assigned sc v self) = fixed_attributes self.
Proof. destruct sc; reflexivity. Qed.

Lemma assigned_length (sc : scalar) (v : Q) (self : Loss) :
  length (weights (assigned sc v self)) = length (weights self).
Proof.
  unfold assigned. destruct (target_index sc); [apply length_insert | reflexivity].
Qed.

Lemma assigned_in_range (sc sc' : scalar) (v : Q) (self : Loss) :
  in_range sc' (assigned sc v self) <-> in_range sc' self.
Proof. unfold in_range. now rewrite assigned_length. Qed.

Lemma assigned_scalar (sc : scalar) (v : Q) (self : Loss) :
  in_range sc self -> scalar_of sc (assigned sc v self) = Some v.
Proof.
  unfold in_range, scalar_of, assigned.
  destruct (target_index sc) as [i|]; [|reflexivity].
  intros H. simpl. now apply list_lookup_insert_eq.
Qed.

Lemma assigned_other_weight (sc : scalar) (v : Q) (self : Loss) (i : nat) :
  target_index sc <> Some i ->
  weights (assigned sc v self) !! i = weights self !! i.
Proof.
  unfold assigned. destruct (target_index sc) as [j|]; [|reflexivity].
  intros H. simpl. apply list_lookup_insert_ne. congruence.
Qed.

Lemma assigned_heat_lambda (sc : scalar) (v : Q) (self : Loss) :
  sc <> HeatLambda -> heat_lambda (assigned sc v self) = heat_lambda self.
Proof. destruct sc; intros H; try reflexivity; contradiction. Qed.

Lemma target_index_inj (sc sc' : scalar) :
  target_index sc = target_index sc' -> sc = sc'.
Proof. destruct sc, sc'; simpl; congruence. Qed.

Lemma assigned_other_scalar (sc sc' : scalar) (v : Q) (self : Loss) :
  sc' <> sc -> scalar_of sc' (assigned sc v self) = scalar_of sc' self.
Proof.
  intros H. unfold scalar_of. destruct (target_index sc') as [i|] eqn:T.
  - apply assigned_other_weight. intros E. apply H, target_index_inj. congruence.
  - f_equal. apply assigned_heat_lambda. intros ->. apply H.
    apply target_index_inj. now rewrite T.
Qed.

Lemma assigned_assigned (sc : scalar) (v v' : Q) (self : Loss) :
  assigned sc v' (assigned sc v self) = assigned sc v' self.
Proof.
  destruct self. destruct sc; unfold assigned; simpl; try reflexivity;
    unfold set_weights; simpl; now rewrite list_insert_insert_eq.
Qed.

(** The state a call ends in: [self], possibly with the list cached,
    possibly with the scalar assigned on top. *)
Lemma update_of_state (sc : scalar) (ci n : Z) (params : option (list Q)) (self : Loss) :
  fst (update_of sc ci n params self) = self
  \/ (exists l, checked_list (cache_of sc self) params = Ok l
                /\ fst (update_of sc ci n params self) = with_cache sc l self)
  \/ (exists l v, checked_list (cache_of sc self) params = Ok l
                  /\ in_range sc self
                  /\ snd (update_of sc ci n params self) = Ok tt
                  /\ fst (update_of sc ci n params self)
                     = assigned sc v (with_cache sc l self)).
Proof.
  rewrite update_of_spec.
  destruct (checked_list (cache_of sc self) params) as [l|x]; [|now left].
  destruct (scheduled l (mode_of sc self) ci n) as [[v|]|x];
    [|right; left; eauto..].
  destruct (in_range_dec sc (with_cache sc l self)) as [R|R].
  - rewrite assign_in_range by assumption. right; right. exists l, v.
    apply with_cache_in_range in R. auto.
  - rewrite assign_out_of_range by assumption. right; left. eauto.
Qed.

(** X1.  A call of an update method changes, at most, the cache of its own
    control points and the scalar it governs.  The caches and scalars of the
    other four methods, all five decay modes, the remaining entries of
    [weights], their number and every attribute set by [__init__] alone are
    as before, whatever the call returns or raises. *)
Theorem update_touches_only_its_own
    (sc : scalar) (ci n : Z) (params : option (list Q)) (self : Loss) :
  let self' := fst (update_of sc ci n params self) in
  (forall sc', sc' <> sc -> cache_of sc' self' = cache_of sc' self)
  /\ (forall sc', sc' <> sc -> scalar_of sc' self' = scalar_of sc' self)
  /\ (forall sc', mode_of sc' self' = mode_of sc' self)
  /\ (forall i, target_index sc <> Some i -> weights self' !! i = weights self !! i)
  /\ length (weights self') = length (weights self)
  /\ fixed_attributes self' = fixed_attributes self.
Proof.
  intros self'. subst self'.
  destruct (update_of_state sc ci n params self)
    as [-> | [(l & _ & ->) | (l & v & _ & _ & _ & ->)]].
  - repeat split; reflexivity.
  - repeat split; intros.
    + now apply with_cache_other.
    + apply with_cache_scalar.
    + apply mode_of_with_cache.
    + now destruct (with_cache_weights sc l self) as [-> _].
    + now destruct (with_cache_weights sc l self) as [-> _].
    + apply with_cache_fixed.
  - repeat split; intros.
    + rewrite assigned_cache. now apply with_cache_other.
    + rewrite assigned_other_scalar by assumption. apply with_cache_scalar.
    + rewrite assigned_mode. apply mode_of_with_cache.
    + rewrite assigned_other_weight by assumption.
      now destruct (with_cache_weights sc l self) as [-> _].
    + rewrite assigned_length. now destruct (with_cache_weights sc l self) as [-> _].
    + rewrite assigned_fixed. apply with_cache_fixed.
Qed.

(** ** The five methods agree *)

(** X2.  Two update methods that find the same control points in their
    caches and the same decay mode, and whose assignments are in range, do
    the same on the same query: they raise the same exception or both
    return, they leave the same control points cached, and with a kernel that
    assigns they leave the same value in their scalars. *)
Theorem update_methods_agree
    (sc1 sc2 : scalar) (ci n : Z) (params : option (list Q)) (self1 self2 : Loss) :
  cache_of sc1 self1 = cache_of sc2 self2 ->
  mode_of sc1 self1 = mode_of sc2 self2 ->
  in_range sc1 self1 ->
  in_range sc2 self2 ->
  let r1 := update_of sc1 ci n params self1 in
  let r2 := update_of sc2 ci n params self2 in
  snd r1 = snd r2
  /\ cache_of sc1 (fst r1) = cache_of sc2 (fst r2)
  /\ (snd r1 = Ok tt -> mode_of sc1 self1 <> "none"%string ->
      exists v, scalar_of sc1 (fst r1) = Some v /\ scalar_of sc2 (fst r2) = Some v).
Proof.
  intros Hc Hm R1 R2 r1 r2. subst r1 r2.
  rewrite !update_of_spec, <- Hc, <- Hm.
  destruct (checked_list (cache_of sc1 self1) params) as [l|x] eqn:C.
  2:{ simpl. repeat split; [exact Hc | discriminate]. }
  assert (K1 : cache_of sc1 (with_cache sc1 l self1) = Some l).
  { apply cache_of_with_cache. unfold checked_list in C.
    destruct (cache_of sc1 self1); [right; congruence | now left]. }
  assert (K2 : cache_of sc2 (with_cache sc2 l self2) = Some l).
  { apply cache_of_with_cache. rewrite <- Hc. unfold checked_list in C.
    destruct (cache_of sc1 self1); [right; congruence | now left]. }
  destruct (scheduled l (mode_of sc1 self1) ci n) as [[v|]|x] eqn:S.
  - rewrite !assign_in_range by (now apply with_cache_in_range). simpl.
    rewrite !assigned_cache, K1, K2. repeat split.
    intros _ _. exists v.
    split; apply assigned_scalar; now apply with_cache_in_range.
  - simpl. rewrite K1, K2. repeat split. intros _ N. exfalso.
    unfold scheduled in S. destruct (Qeq_bool (inject_Z n) 0); [discriminate|].
    destruct (upper_bracket l _) as [[we e]|]; [|discriminate].
    destruct (lower_bracket l _) as [[w0 s]|]; [|discriminate].
    unfold anneal_value in S.
    destruct (String.eqb _ "linear"); [discriminate|].
    destruct (String.eqb _ "quintic"); [discriminate|].
    destruct (String.eqb _ "step"); [discriminate|].
    destruct (String.eqb _ "none") eqn:E; [|discriminate].
    apply String.eqb_eq in E. contradiction.
  - simpl. rewrite K1, K2. repeat split. discriminate.
Qed.

Lemma update_methods_agree_witness :
  let self := annealing_loss "quintic" in
  snd (update_of DivWeight 6000 10000 example_params self)
  = snd (update_of HeatLambda 6000 10000 example_params self)
  /\ exists v,
       scalar_of DivWeight (fst (update_of DivWeight 6000 10000 example_params self))
       = Some v
       /\ scalar_of HeatLambda (fst (update_of HeatLambda 6000 10000 example_params self))
          = Some v.
Proof.
  intros self.
  destruct (update_methods_agree DivWeight HeatLambda 6000 10000 example_params
              self self) as (E & _ & V).
  - reflexivity.
  - reflexivity.
  - unfold in_range. cbn. lia.
  - exact I.
  - split; [exact E|]. apply V; [reflexivity | discriminate].
Defined.

(** ** Repeated calls *)

Lemma anneal_value_unknown (mode : string) (w0 s we e : Q) (ci n : Z) (x : exn) :
  anneal_value mode w0 s we e ci n = Raise x -> x = Warning /\ ~ known_mode mode.
Proof.
  unfold anneal_value.
  destruct (String.eqb mode "linear") eqn:E1; [discriminate|].
  destruct (String.eqb mode "quintic") eqn:E2; [discriminate|].
  destruct (String.eqb mode "step") eqn:E3; [discriminate|].
  destruct (String.eqb mode "none") eqn:E4; [discriminate|].
  intros [= <-]. split; [reflexivity|].
  apply String.eqb_neq in E1, E2, E3, E4. unfold known_mode. tauto.
Qed.

(** A call that returned, taken apart. *)
Lemma update_ok_inv (sc : scalar) (ci n : Z) (params : option (list Q)) (self : Loss) :
  snd (update_of sc ci n params self) = Ok tt ->
  exists l,
    checked_list (cache_of sc self) params = Ok l
    /\ cache_of sc (with_cache sc l self) = Some l
    /\ ((scheduled l (mode_of sc self) ci n = Ok None
         /\ fst (update_of sc ci n params self) = with_cache sc l self)
        \/ (exists v, scheduled l (mode_of sc self) ci n = Ok (Some v)
                      /\ in_range sc self
                      /\ fst (update_of sc ci n params self)
                         = assigned sc v (with_cache sc l self))).
Proof.
  rewrite update_of_spec.
  destruct (checked_list (cache_of sc self) params) as [l|x] eqn:C; [|discriminate].
  intros H. exists l. split; [reflexivity|]. split.
  { apply cache_of_with_cache. unfold checked_list in C.
    destruct (cache_of sc self); [right; congruence | now left]. }
  destruct (scheduled l (mode_of sc self) ci n) as [[v|]|x]; [| now left | discriminate].
  right. exists v. split; [reflexivity|].
  destruct (in_range_dec sc (with_cache sc l self)) as [R|R].
  - rewrite assign_in_range by assumption. split; [|reflexivity].
    now apply with_cache_in_range in R.
  - rewrite assign_out_of_range in H by assumption. discriminate.
Qed.

Lemma with_cache_cached (sc : scalar) (l l' : list control_point) (self : Loss) :
  cache_of sc self = Some l -> with_cache sc l' self = self.
Proof. intros H. unfold with_cache. now rewrite H. Qed.

(** Whether a query assigns depends on the mode alone. *)
Lemma scheduled_assigns_by_mode
    (l : list control_point) (mode : string) (ci n ci' n' : Z) (v : Q) :
  scheduled l mode ci n = Ok None ->
  scheduled l mode ci' n' = Ok (Some v) ->
  False.
Proof.
  unfold scheduled. intros S S'.
  destruct (Qeq_bool (inject_Z n) 0); [discriminate|].
  destruct (Qeq_bool (inject_Z n') 0); [discriminate|].
  destruct (upper_bracket l (progress ci n)) as [[we e]|]; [|discriminate].
  destruct (lower_bracket l (progress ci n)) as [[w0 s]|]; [|discriminate].
  destruct (upper_bracket l (progress ci' n')) as [[we' e']|]; [|discriminate].
  destruct (lower_bracket l (progress ci' n')) as [[w0' s']|]; [|discriminate].
  unfold anneal_value in S, S'.
  destruct (String.eqb mode "linear"); [discriminate|].
  destruct (String.eqb mode "quintic"); [discriminate|].
  destruct (String.eqb mode "step"); [discriminate|].
  destruct (String.eqb mode "none"); discriminate.
Qed.

(** A call on the state a returned call left, in closed form. *)
Lemma update_after_update
    (sc : scalar) (ci n ci' n' : Z) (params params' : option (list Q)) (self : Loss) :
  snd (update_of sc ci n params self) = Ok tt ->
  exists l,
    checked_list (cache_of sc self) params = Ok l
    /\ update_of sc ci' n' params' (fst (update_of sc ci n params self))
       = match scheduled l (mode_of sc self) ci' n' with
         | Raise x => (fst (update_of sc ci n params self), Raise x)
         | Ok None => (fst (update_of sc ci n params self), Ok tt)
         | Ok (Some v) => (assigned sc v (with_cache sc l self), Ok tt)
         end
    /\ (forall v, scheduled l (mode_of sc self) ci' n' = Ok (Some v) ->
                  in_range sc self).
Proof.
  intros H. destruct (update_ok_inv sc ci n params self H)
    as (l & C & K & [[S ->] | (v & S & R & ->)]); exists l; (split; [exact C|]).
  - split.
    + rewrite update_of_spec. unfold checked_list at 1. rewrite K.
      rewrite (with_cache_cached sc l l _ K), mode_of_with_cache.
      destruct (scheduled l (mode_of sc self) ci' n') as [[v'|]|x] eqn:S'; try reflexivity.
      exfalso. exact (scheduled_assigns_by_mode _ _ _ _ _ _ _ S S').
    + intros v' S'. exfalso. exact (scheduled_assigns_by_mode _ _ _ _ _ _ _ S S').
  - split; [|intros; assumption].
    rewrite update_of_spec. unfold checked_list at 1.
    rewrite assigned_cache, K.
    assert (K' : cache_of sc (assigned sc v (with_cache sc l self)) = Some l)
      by (now rewrite assigned_cache).
    rewrite (with_cache_cached sc l l _ K'), assigned_mode, mode_of_with_cache.
    destruct (scheduled l (mode_of sc self) ci' n') as [[v'|]|x]; try reflexivity.
    rewrite assign_in_range
      by (apply assigned_in_range; now apply with_cache_in_range).
    now rewrite assigned_assigned.
Qed.

(** X4.  Repeating a call that returned changes nothing: the same query on
    the state it left returns again and leaves that state, whatever params
    the repetition is given. *)
Theorem repeated_call_is_noop
    (sc : scalar) (ci n : Z) (params params' : option (list Q)) (self : Loss) :
  snd (update_of sc ci n params self) = Ok tt ->
  update_of sc ci n params' (fst (update_of sc ci n params self))
  = (fst (update_of sc ci n params self), Ok tt).
Proof.
  intros H.
  destruct (update_after_update sc ci n ci n params params' self H) as (l & C & -> & _).
  destruct (update_ok_inv sc ci n params self H)
    as (l' & C' & _ & [[S ->] | (v & S & _ & ->)]);
    assert (l' = l) by congruence; subst l'; now rewrite S.
Qed.

Lemma repeated_call_is_noop_witness :
  let self1 := fst (update_of HeatWeight 6000 10000 example_params
                      (annealing_loss "linear")) in
  update_of HeatWeight 6000 10000 None self1 = (self1, Ok tt).
Proof.
  intros self1.
  apply (repeated_call_is_noop HeatWeight 6000 10000 example_params None
           (annealing_loss "linear")).
  reflexivity.
Defined.

(** X5.  The last call wins.  After a call that returned, a second call
    that returns leaves the state, scalar included, that this second query
    alone would have left on the original object with the first call's
    params: nothing of the first query survives. *)
Theorem last_call_wins
    (sc : scalar) (ci1 n1 ci2 n2 : Z) (params1 params2 : option (list Q)) (self : Loss) :
  snd (update_of sc ci1 n1 params1 self) = Ok tt ->
  snd (update_of sc ci2 n2 params2 (fst (update_of sc ci1 n1 params1 self))) = Ok tt ->
  update_of sc ci2 n2 params2 (fst (update_of sc ci1 n1 params1 self))
  = update_of sc ci2 n2 params1 self.
Proof.
  intros H1 H2.
  destruct (update_after_update sc ci1 n1 ci2 n2 params1 params2 self H1)
    as (l & C & E & R).
  rewrite E in H2 |- *. rewrite (update_of_spec sc ci2 n2 params1 self), C.
  destruct (scheduled l (mode_of sc self) ci2 n2) as [[v|]|x] eqn:S.
  - rewrite assign_in_range; [reflexivity|].
    apply with_cache_in_range. now apply (R v).
  - destruct (update_ok_inv sc ci1 n1 params1 self H1)
      as (l' & C' & _ & [[S1 ->] | (v & S1 & _ & _)]);
      assert (l' = l) by congruence; subst l'; [reflexivity|].
    exfalso. exact (scheduled_assigns_by_mode _ _ _ _ _ _ _ S S1).
  - discriminate.
Qed.

Lemma last_call_wins_witness :
  let self := annealing_loss "linear" in
  update_of BoundaryCoef 9000 10000 (Some [1])
    (fst (update_of BoundaryCoef 6000 10000 example_params self))
  = update_of BoundaryCoef 9000 10000 example_params self.
Proof.
  intros self.
  apply (last_call_wins BoundaryCoef 6000 10000 9000 10000 example_params (Some [1]) self);
    reflexivity.
Defined.

(** ** Exceptions *)

Lemma scheduled_raise (l : list control_point) (mode : string) (ci n : Z) (x : exn) :
  scheduled l mode ci n = Raise x ->
  (x = ZeroDivisionError /\ n = 0%Z)
  \/ (x = ValueError /\ n <> 0%Z
      /\ ((forall cp, In cp l -> snd cp < progress ci n)
          \/ (forall cp, In cp l -> progress ci n < snd cp)))
  \/ (x = Warning /\ n <> 0%Z /\ ~ known_mode mode).
Proof.
  unfold scheduled.
  destruct (Qeq_bool (inject_Z n) 0) eqn:En.
  { intros [= <-]. left. split; [reflexivity|].
    apply Qeq_bool_eq in En. apply inject_Z_injective. exact En. }
  assert (Hn : n <> 0%Z).
  { intros ->. apply Qeq_bool_neq in En. now apply En. }
  destruct (upper_bracket l (progress ci n)) as [[we e]|y] eqn:U.
  2:{ intros [= <-]. apply upper_bracket_raise in U. destruct U as [-> U].
      right; left. auto. }
  destruct (lower_bracket l (progress ci n)) as [[w0 s]|y] eqn:L.
  2:{ intros [= <-]. apply lower_bracket_raise in L. destruct L as [-> L].
      right; left. auto. }
  intros A. apply anneal_value_unknown in A. destruct A as [-> A].
  right; right. auto.
Qed.

Lemma checked_list_raise (cache : option (list control_point))
    (params : option (list Q)) (x : exn) :
  checked_list cache params = Raise x ->
  cache = None
  /\ ((x = TypeError /\ params = None)
      \/ (x = AssertionError
          /\ exists ps, params = Some ps
                        /\ ((length ps < 2)%nat
                            \/ (length (Py.slice_1_m1 ps) mod 2 <> 0)%nat))).
Proof.
  unfold checked_list. destruct cache as [l|]; [discriminate|].
  destruct params as [ps|].
  - destruct (accepted ps) eqn:A; [discriminate|].
    intros [= <-]. split; [reflexivity|]. right. split; [reflexivity|].
    exists ps. split; [reflexivity | now apply accepted_false].
  - intros [= <-]. split; [reflexivity|]. now left.
Qed.

(** X6.  What each exception of an update method means.  [TypeError]: no
    list is cached and params was left at [None].  [AssertionError]: no list
    is cached and params is too short or has a middle of odd length.
    [ZeroDivisionError]: [n_iterations] is 0.  [ValueError]: the progress
    lies above every cached fraction or below every one.  [Warning]: the
    decay mode is none of the four known names.  [IndexError]: [weights] is
    too short for the governed entry. *)
Theorem update_exception_meaning
    (sc : scalar) (ci n : Z) (params : option (list Q)) (self : Loss) (x : exn) :
  snd (update_of sc ci n params self) = Raise x ->
  match x with
  | TypeError => cache_of sc self = None /\ params = None
  | AssertionError =>
      cache_of sc self = None
      /\ exists ps, params = Some ps
                    /\ ((length ps < 2)%nat
                        \/ (length (Py.slice_1_m1 ps) mod 2 <> 0)%nat)
  | ZeroDivisionError => n = 0%Z
  | ValueError =>
      n <> 0%Z
      /\ exists l, cache_of sc (fst (update_of sc ci n params self)) = Some l
                   /\ ((forall cp, In cp l -> snd cp < progress ci n)
                       \/ (forall cp, In cp l -> progress ci n < snd cp))
  | Warning => ~ known_mode (mode_of sc self)
  | IndexError => ~ in_range sc self
  end.
Proof.
  rewrite update_of_spec.
  destruct (checked_list (cache_of sc self) params) as [l|y] eqn:C.
  2:{ simpl. intros [= <-]. apply checked_list_raise in C.
      destruct C as [C [[-> P] | [-> P]]]; auto. }
  assert (K : cache_of sc (with_cache sc l self) = Some l).
  { apply cache_of_with_cache. unfold checked_list in C.
    destruct (cache_of sc self); [right; congruence | now left]. }
  destruct (scheduled l (mode_of sc self) ci n) as [[v|]|y] eqn:S.
  - destruct (in_range_dec sc (with_cache sc l self)) as [R|R].
    + rewrite assign_in_range by assumption. discriminate.
    + rewrite assign_out_of_range by assumption. simpl. intros [= <-].
      now rewrite with_cache_in_range in R.
  - discriminate.
  - simpl. intros [= <-]. apply scheduled_raise in S.
    destruct S as [[-> S] | [(-> & S1 & S2) | (-> & _ & S)]]; [assumption | | assumption].
    split; [assumption|]. exists l. auto.
Qed.

Lemma update_exception_meaning_witness :
  ~ in_range HeatWeight
      (Loss_init [1; 1; 1; 1; 1] "igr_w_heat" "none" "dir_l1" 100 (1 # 100)
                 "step" "none" "none" "none" true).
Proof.
  apply (update_exception_meaning HeatWeight 6000 10000 example_params _ IndexError).
  reflexivity.
Defined.

(** X7.  The mode "none" switches off the assignment and nothing else.  The
    scalar, all of [weights] and [heat_lambda] are as before the call; but the
    call still builds and caches the control points, and it still raises
    [TypeError] on a first call without params and [AssertionError] on
    malformed params. *)
Theorem none_mode_still_validates
    (sc : scalar) (ci n : Z) (params : option (list Q)) (self : Loss) :
  mode_of sc self = "none"%string ->
  let self' := fst (update_of sc ci n params self) in
  weights self' = weights self
  /\ heat_lambda self' = heat_lambda self
  /\ (cache_of sc self = None -> params = None ->
      update_of sc ci n params self = (self, Raise TypeError))
  /\ (forall ps, cache_of sc self = None -> params = Some ps -> accepted ps = false ->
                 update_of sc ci n params self = (self, Raise AssertionError))
  /\ (forall ps, cache_of sc self = None -> params = Some ps -> accepted ps = true ->
                 cache_of sc self' = Some (built_list ps)).
Proof.
  intros Hm self'. subst self'. rewrite update_of_spec.
  repeat split.
  - destruct (checked_list _ params) as [l|x]; [|reflexivity].
    destruct (scheduled l (mode_of sc self) ci n) as [[v|]|x] eqn:S;
      try (simpl; now destruct (with_cache_weights sc l self)).
    exfalso. rewrite Hm in S. unfold scheduled in S.
    destruct (Qeq_bool _ 0); [discriminate|].
    destruct (upper_bracket l _) as [[we e]|]; [|discriminate].
    destruct (lower_bracket l _) as [[w0 s]|]; discriminate.
  - destruct (checked_list _ params) as [l|x]; [|reflexivity].
    destruct (scheduled l (mode_of sc self) ci n) as [[v|]|x] eqn:S;
      try (simpl; now destruct (with_cache_weights sc l self)).
    exfalso. rewrite Hm in S. unfold scheduled in S.
    destruct (Qeq_bool _ 0); [discriminate|].
    destruct (upper_bracket l _) as [[we e]|]; [|discriminate].
    destruct (lower_bracket l _) as [[w0 s]|]; discriminate.
  - intros -> ->. reflexivity.
  - intros ps -> -> A. unfold checked_list. now rewrite A.
  - intros ps C -> A. rewrite C. unfold checked_list. rewrite A.
    assert (K : cache_of sc (with_cache sc (built_list ps) self) = Some (built_list ps))
      by (apply cache_of_with_cache; now left).
    destruct (scheduled _ (mode_of sc self) ci n) as [[v|]|x]; try exact K.
    destruct (in_range_dec sc (with_cache sc (built_list ps) self)) as [R|R].
    + rewrite assign_in_range by assumption. simpl. now rewrite assigned_cache.
    + rewrite assign_out_of_range by assumption. exact K.
Qed.

Lemma none_mode_still_validates_witness :
  update_of DivWeight 0 1 None (annealing_loss "none")
  = (annealing_loss "none", Raise TypeError).
Proof.
  destruct (none_mode_still_validates DivWeight 0 1 None (annealing_loss "none"))
    as (_ & _ & T & _); [reflexivity|].
  apply T; reflexivity.
Defined.

(** X8.  The first accepted params are frozen even by a call that fails.
    Once the assertions pass, the list is cached whatever the query then
    raises, and every later call works on that list and ignores its own
    params. *)
Theorem failed_call_still_freezes_params
    (sc : scalar) (ci n ci' n' : Z) (ps : list Q) (params' params'' : option (list Q))
    (self : Loss) :
  cache_of sc self = None ->
  accepted ps = true ->
  let self1 := fst (update_of sc ci n (Some ps) self) in
  cache_of sc self1 = Some (built_list ps)
  /\ update_of sc ci' n' params' self1 = update_of sc ci' n' params'' self1
  /\ cache_of sc (fst (update_of sc ci' n' params' self1)) = Some (built_list ps).
Proof.
  intros C A self1.
  assert (K : forall a b p s, cache_of sc s = Some (built_list ps) ->
                              cache_of sc (fst (update_of sc a b p s))
                              = Some (built_list ps)).
  { intros a b p s Hs. rewrite update_of_spec. unfold checked_list. rewrite Hs.
    rewrite (with_cache_cached sc _ _ _ Hs).
    destruct (scheduled _ (mode_of sc s) a b) as [[v|]|x]; try exact Hs.
    destruct (in_range_dec sc s) as [R|R].
    - rewrite assign_in_range by assumption. simpl. now rewrite assigned_cache.
    - rewrite assign_out_of_range by assumption. exact Hs. }
  assert (K1 : cache_of sc self1 = Some (built_list ps)).
  { subst self1. rewrite update_of_spec, C. unfold checked_list. rewrite A.
    assert (K0 : cache_of sc (with_cache sc (built_list ps) self) = Some (built_list ps))
      by (apply cache_of_with_cache; now left).
    destruct (scheduled _ (mode_of sc self) ci n) as [[v|]|x]; try exact K0.
    destruct (in_range_dec sc (with_cache sc (built_list ps) self)) as [R|R].
    - rewrite assign_in_range by assumption. simpl. now rewrite assigned_cache.
    - rewrite assign_out_of_range by assumption. exact K0. }
  split; [exact K1|]. split; [|now apply K].
  rewrite !update_of_spec. unfold checked_list. now rewrite K1.
Qed.

Lemma failed_call_still_freezes_params_witness :
  let self := annealing_loss "linear" in
  let self1 := fst (update_of DivWeight 5 0 (Some [1; 2]) self) in
  snd (update_of DivWeight 5 0 (Some [1; 2]) self) = Raise ZeroDivisionError
  /\ cache_of DivWeight self1 = Some [(1, 0); (2, 1)]
  /\ update_of DivWeight 5 10 example_params self1 = update_of DivWeight 5 10 None self1.
Proof.
  intros self self1.
  destruct (failed_call_still_freezes_params DivWeight 5 0 5 10 [1; 2]
              example_params None self) as (K & E & _); [reflexivity..|].
  split; [reflexivity|]. split; [exact K | exact E].
Defined.

(** ** The brackets of a query *)

(** X9.  The two brackets of a query enclose the progress and are
    neighbours: no control point has its fraction strictly between theirs.
    They have the same fraction exactly when the progress is the fraction of
    some control point. *)
Theorem brackets_are_adjacent
    (l : list control_point) (p : Q) (w0 s we e : Q) :
  lower_bracket l p = Ok (w0, s) ->
  upper_bracket l p = Ok (we, e) ->
  s <= p
  /\ p <= e
  /\ (forall cp, In cp l -> ~ (s < snd cp /\ snd cp < e))
  /\ (s == e <-> exists cp, In cp l /\ snd cp == p).
Proof.
  intros L U.
  destruct (lower_bracket_spec _ _ _ L) as (Lin & Ls & Lmax).
  destruct (upper_bracket_spec _ _ _ U) as (Uin & Ue & Umin).
  cbn [snd] in *. repeat split; try assumption.
  - intros cp Hcp [H1 H2].
    destruct (Qlt_le_dec p (snd cp)) as [C|C].
    + specialize (Umin cp Hcp). lra.
    + specialize (Lmax cp Hcp C). lra.
  - intros E. exists (w0, s). split; [assumption|]. cbn [snd]. lra.
  - intros (cp & Hcp & E).
    specialize (Lmax cp Hcp). specialize (Umin cp Hcp). lra.
Qed.

Lemma brackets_are_adjacent_witness :
  (1 # 2) <= 6 # 10
  /\ (6 # 10) <= 3 # 4
  /\ ~ ((1 # 2) < snd (0, 1) /\ snd (0, 1) < 3 # 4).
Proof.
  destruct (brackets_are_adjacent [(100, 0); (100, 1 # 2); (0, 3 # 4); (0, 1)]
              (6 # 10) 100 (1 # 2) 0 (3 # 4)) as (S & E & A & _);
    [reflexivity | reflexivity |].
  split; [exact S|]. split; [exact E|].
  apply (A (0, 1)). right; right; right; now left.
Defined.

(** X10.  The searches do not need the control points in any order: on a
    rearranged list they fail together, and they return brackets with the
    same fractions; the same control points when no two share a fraction. *)
Theorem brackets_ignore_order (l l' : list control_point) (p : Q) :
  Permutation l l' ->
  (forall w0 s, lower_bracket l p = Ok (w0, s) ->
     exists w0' s', lower_bracket l' p = Ok (w0', s') /\ s' == s
                    /\ (distinct_fractions l -> (w0', s') = (w0, s)))
  /\ (forall we e, upper_bracket l p = Ok (we, e) ->
        exists we' e', upper_bracket l' p = Ok (we', e') /\ e' == e
                       /\ (distinct_fractions l -> (we', e') = (we, e)))
  /\ (forall x, lower_bracket l p = Raise x -> lower_bracket l' p = Raise x)
  /\ (forall x, upper_bracket l p = Raise x -> upper_bracket l' p = Raise x).
Proof.
  intros P. assert (P' : Permutation l' l) by (now symmetry).
  split; [|split; [|split]].
  - intros w0 s L. destruct (lower_bracket_spec _ _ _ L) as (Lin & Ls & Lmax).
    destruct (lower_bracket_exists l' p (w0, s)) as [[w0' s'] L'];
      [now apply (Permutation_in _ P) | exact Ls |].
    destruct (lower_bracket_spec _ _ _ L') as (Lin' & Ls' & Lmax').
    apply (Permutation_in _ P') in Lin'. apply (Permutation_in _ P) in Lin.
    pose proof (Lmax _ Lin' Ls') as A. pose proof (Lmax' _ Lin Ls) as B.
    cbn [snd] in *. exists w0', s'. split; [exact L'|]. split; [lra|].
    intros D. apply D; [exact Lin' | now apply (Permutation_in _ P') | cbn [snd]; lra].
  - intros we e U. destruct (upper_bracket_spec _ _ _ U) as (Uin & Ue & Umin).
    destruct (upper_bracket_exists l' p (we, e)) as [[we' e'] U'];
      [now apply (Permutation_in _ P) | exact Ue |].
    destruct (upper_bracket_spec _ _ _ U') as (Uin' & Ue' & Umin').
    apply (Permutation_in _ P') in Uin'. apply (Permutation_in _ P) in Uin.
    pose proof (Umin _ Uin' Ue') as A. pose proof (Umin' _ Uin Ue) as B.
    cbn [snd] in *. exists we', e'. split; [exact U'|]. split; [lra|].
    intros D. apply D; [exact Uin' | now apply (Permutation_in _ P') | cbn [snd]; lra].
  - intros x L. destruct (lower_bracket_raise _ _ _ L) as [-> A].
    destruct (lower_bracket l' p) as [cp|y] eqn:L'.
    + destruct (lower_bracket_spec _ _ _ L') as (Lin' & Ls' & _).
      apply (Permutation_in _ P') in Lin'. specialize (A cp Lin'). lra.
    + now destruct (lower_bracket_raise _ _ _ L') as [-> _].
  - intros x U. destruct (upper_bracket_raise _ _ _ U) as [-> A].
    destruct (upper_bracket l' p) as [cp|y] eqn:U'.
    + destruct (upper_bracket_spec _ _ _ U') as (Uin' & Ue' & _).
      apply (Permutation_in _ P') in Uin'. specialize (A cp Uin'). lra.
    + now destruct (upper_bracket_raise _ _ _ U') as [-> _].
Qed.

Lemma brackets_ignore_order_witness :
  exists w0' s', lower_bracket [(0, 3 # 4); (0, 1); (100, 0); (100, 1 # 2)] (6 # 10)
                 = Ok (w0', s') /\ s' == 1 # 2.
Proof.
  destruct (brackets_ignore_order
              [(100, 0); (100, 1 # 2); (0, 3 # 4); (0, 1)]
              [(0, 3 # 4); (0, 1); (100, 0); (100, 1 # 2)] (6 # 10)) as (A & _).
  - apply (Permutation_app_comm [(100, 0); (100, 1 # 2)] [(0, 3 # 4); (0, 1)]).
  - destruct (A 100 (1 # 2)) as (w0' & s' & L & E & _); [reflexivity|].
    exists w0', s'. split; assumption.
Defined.

(** ** The value a query assigns *)

Lemma scheduled_brackets (l : list control_point) (mode : string) (ci n : Z)
    (w0 s we e : Q) :
  n <> 0%Z ->
  lower_bracket l (progress ci n) = Ok (w0, s) ->
  upper_bracket l (progress ci n) = Ok (we, e) ->
  scheduled l mode ci n = anneal_value mode w0 s we e ci n.
Proof.
  intros Hn L U. unfold scheduled.
  destruct (Qeq_bool (inject_Z n) 0) eqn:En.
  { apply Qeq_bool_eq in En. exfalso. apply Hn, inject_Z_injective. exact En. }
  now rewrite U, L.
Qed.

(** ** The ends of the schedule *)

Lemma progress_zero (n : Z) : progress 0 n == 0.
Proof. unfold progress, Qdiv. change (inject_Z 0) with 0. ring. Qed.

Lemma progress_full (n : Z) : (0 < n)%Z -> progress n n == 1.
Proof.
  intros Hn. pose proof (inject_Z_pos n Hn). unfold progress. field. lra.
Qed.

Lemma scheduled_at_control_point
    (l : list control_point) (mode : string) (ci n : Z) (cp : control_point) :
  (0 < n)%Z ->
  assigning_mode mode ->
  first_at snd (progress ci n) l = Some cp ->
  scheduled l mode ci n = Ok (Some (fst cp)).
Proof.
  intros Hn Hm F. destruct cp as [w f].
  destruct (first_at_In snd _ _ _ F) as [_ Hf]. cbn [snd] in Hf.
  destruct (brackets_at_fraction _ _ _ F) as [U L].
  rewrite (scheduled_brackets l mode ci n w f w f) by (assumption || lia).
  assert (B : before_start f ci n = false) by (apply before_start_false; [assumption | lra]).
  assert (W : in_window f f ci n = false) by (now apply in_window_degenerate).
  unfold anneal_value.
  destruct Hm as [-> | [-> | ->]]; cbn [String.eqb Ascii.eqb Bool.eqb fst];
    now rewrite B, ?W.
Qed.

Lemma first_at_last (p : Q) (mids : list (Q * Q)) (final : Q) :
  p == 1 ->
  (forall m, In m mids -> ~ fst m == 1) ->
  first_at snd p (map (fun m => (snd m, fst m)) mids ++ [(final, 1)])
  = Some (final, 1).
Proof.
  intros Hp Hm. unfold first_at. induction mids as [|m r IH]; cbn [map app List.find snd].
  - rewrite (Qeq_eq_bool 1 p) by lra. reflexivity.
  - destruct (Qeq_bool (fst m) p) eqn:E.
    + apply Qeq_bool_eq in E. exfalso. apply (Hm m); [now left | lra].
    + apply IH. intros m' Hin. apply Hm. now right.
Qed.

(** X13.  A schedule starts and ends where params say.  With a kernel that
    assigns and the assignment in range, the call at iteration 0 returns and
    leaves the first value of params in the governed scalar.  The call at
    iteration [n_iterations] returns and leaves the last value there,
    provided no middle fraction of params is 1. *)
Theorem schedule_starts_and_ends
    (sc : scalar) (n : Z) (params : option (list Q)) (self : Loss)
    (start final : Q) (mids : list (Q * Q)) :
  let l := (start, 0) :: map (fun m => (snd m, fst m)) mids ++ [(final, 1)] in
  checked_list (cache_of sc self) params = Ok l ->
  (0 < n)%Z ->
  assigning_mode (mode_of sc self) ->
  in_range sc self ->
  (snd (update_of sc 0 n params self) = Ok tt
   /\ scalar_of sc (fst (update_of sc 0 n params self)) = Some start)
  /\ ((forall m, In m mids -> ~ fst m == 1) ->
      snd (update_of sc n n params self) = Ok tt
      /\ scalar_of sc (fst (update_of sc n n params self)) = Some final).
Proof.
  intros l C Hn Hm R.
  assert (A : forall v,
             snd (assign_of sc v (with_cache sc l self)) = Ok tt
             /\ scalar_of sc (fst (assign_of sc v (with_cache sc l self))) = Some v).
  { intros v.
    assert (R' : in_range sc (with_cache sc l self)) by (now apply with_cache_in_range).
    rewrite assign_in_range by assumption. cbn [fst snd].
    split; [reflexivity | now apply assigned_scalar]. }
  split.
  - rewrite update_of_spec, C.
    rewrite (scheduled_at_control_point l _ 0 n (start, 0)); [apply A | assumption..|].
    unfold first_at, l. cbn [List.find snd].
    rewrite (Qeq_eq_bool 0 (progress 0 n)); [reflexivity|].
    symmetry. apply progress_zero.
  - intros Hmid. rewrite update_of_spec, C.
    rewrite (scheduled_at_control_point l _ n n (final, 1)); [apply A | assumption..|].
    pose proof (progress_full n Hn) as P.
    unfold l. unfold first_at. cbn [List.find snd].
    destruct (Qeq_bool 0 (progress n n)) eqn:E.
    { apply Qeq_bool_eq in E. lra. }
    now apply first_at_last.
Qed.

(** The eikonal weight, 1 before the calls, is 100 after the call at
    iteration 0 and 7 after the call at iteration 500 of 500. *)
Lemma schedule_starts_and_ends_witness :
  let self := annealing_loss "quintic" in
  let params := Some [100; 1 # 2; 100; 3 # 4; 0; 7] in
  scalar_of EikonalWeight self = Some 1
  /\ scalar_of EikonalWeight (fst (update_of EikonalWeight 0 500 params self))
     = Some 100
  /\ scalar_of EikonalWeight (fst (update_of EikonalWeight 500 500 params self))
     = Some 7.
Proof.
  intros self params. split; [reflexivity|].
  destruct (schedule_starts_and_ends EikonalWeight 500 params self 100 7
              [(1 # 2, 100); (3 # 4, 0)]) as [[_ S] E].
  - reflexivity.
  - reflexivity.
  - right; now left.
  - unfold in_range. cbn. lia.
  - split; [exact S|]. apply E.
    intros m [<- | [<- | []]]; discriminate.
Defined.

(** ** Updates of different scalars commute *)

Lemma with_cache_assigned (sc sc' : scalar) (l : list control_point) (v : Q) (self : Loss) :
  with_cache sc l (assigned sc' v self) = assigned sc' v (with_cache sc l self).
Proof.
  unfold with_cache. rewrite assigned_cache.
  destruct (cache_of sc self); [reflexivity|].
  destruct sc, sc'; reflexivity.
Qed.

Lemma with_cache_with_cache (sc sc' : scalar) (l l' : list control_point) (self : Loss) :
  sc <> sc' ->
  with_cache sc l (with_cache sc' l' self) = with_cache sc' l' (with_cache sc l self).
Proof.
  intros H. unfold with_cache at 1 3.
  rewrite (with_cache_other sc' sc l' self) by assumption.
  rewrite (with_cache_other sc sc' l self) by congruence.
  unfold with_cache.
  destruct (cache_of sc self), (cache_of sc' self); try reflexivity.
  destruct sc, sc'; try reflexivity; contradiction.
Qed.

Lemma assigned_assigned_other (sc sc' : scalar) (v v' : Q) (self : Loss) :
  sc <> sc' ->
  assigned sc v (assigned sc' v' self) = assigned sc' v' (assigned sc v self).
Proof.
  intros H. destruct self.
  destruct sc, sc'; try contradiction; unfold assigned, set_weights; simpl;
    try reflexivity; f_equal; now apply list_insert_insert_ne.
Qed.

(** A call that returns Ok, as a function of what it reads. *)
Lemma update_ok_state (sc : scalar) (ci n : Z) (params : option (list Q))
    (self : Loss) (l : list control_point) (r : option Q) :
  checked_list (cache_of sc self) params = Ok l ->
  scheduled l (mode_of sc self) ci n = Ok r ->
  (r <> None -> in_range sc self) ->
  update_of sc ci n params self
  = (match r with
     | Some v => assigned sc v (with_cache sc l self)
     | None => with_cache sc l self
     end, Ok tt).
Proof.
  intros C S R. rewrite update_of_spec, C, S. destruct r as [v|]; [|reflexivity].
  apply assign_in_range, with_cache_in_range, R. discriminate.
Qed.

Lemma update_ok_reads (sc : scalar) (ci n : Z) (params : option (list Q)) (self : Loss) :
  snd (update_of sc ci n params self) = Ok tt ->
  exists l r,
    checked_list (cache_of sc self) params = Ok l
    /\ scheduled l (mode_of sc self) ci n = Ok r
    /\ (r <> None -> in_range sc self).
Proof.
  intros H. destruct (update_ok_inv sc ci n params self H)
    as (l & C & _ & [[S _] | (v & S & R & _)]); exists l.
  - exists None. repeat split; [assumption..|]. congruence.
  - exists (Some v). split; [assumption|]. split; [assumption|]. intros _. assumption.
Qed.

(** What a call of one method reads is not written by another method. *)
Lemma update_reads_frame (sc sc' : scalar) (ci n : Z) (params : option (list Q))
    (self : Loss) :
  sc' <> sc ->
  let self' := fst (update_of sc ci n params self) in
  cache_of sc' self' = cache_of sc' self
  /\ mode_of sc' self' = mode_of sc' self
  /\ (in_range sc' self' <-> in_range sc' self).
Proof.
  intros H self'. subst self'.
  destruct (update_of_state sc ci n params self)
    as [-> | [(l & _ & ->) | (l & v & _ & _ & _ & ->)]].
  - repeat split; auto.
  - split; [now apply with_cache_other|]. split; [apply mode_of_with_cache|].
    apply with_cache_in_range.
  - rewrite assigned_cache, assigned_mode, assigned_in_range.
    split; [now apply with_cache_other|]. split; [apply mode_of_with_cache|].
    apply with_cache_in_range.
Qed.

(** X15.  Updates of two different scalars can be called in either order:
    when the one order returns, the other returns too and leaves the same
    object. *)
Theorem updates_commute
    (sc1 sc2 : scalar) (ci1 n1 ci2 n2 : Z) (params1 params2 : option (list Q))
    (self : Loss) :
  sc1 <> sc2 ->
  let first := update_of sc1 ci1 n1 params1 in
  let second := update_of sc2 ci2 n2 params2 in
  snd (bind first (fun _ => second) self) = Ok tt ->
  bind second (fun _ => first) self = bind first (fun _ => second) self.
Proof.
  intros Hne first second H. subst first second. unfold bind in H |- *.
  destruct (update_of sc1 ci1 n1 params1 self) as [self1 [[]|x]] eqn:E1;
    [|discriminate].
  assert (H1 : snd (update_of sc1 ci1 n1 params1 self) = Ok tt) by (now rewrite E1).
  destruct (update_ok_reads _ _ _ _ _ H1) as (l1 & r1 & C1 & S1 & R1).
  destruct (update_reads_frame sc1 sc2 ci1 n1 params1 self) as (F1 & F2 & F3);
    [congruence|]. rewrite E1 in F1, F2, F3. cbn [fst] in F1, F2, F3.
  destruct (update_ok_reads _ _ _ _ _ H) as (l2 & r2 & C2 & S2 & R2).
  rewrite F1 in C2. rewrite F2 in S2. rewrite F3 in R2.
  rewrite (update_ok_state sc2 ci2 n2 params2 self l2 r2 C2 S2 R2).
  rewrite (update_ok_state sc2 ci2 n2 params2 self1 l2 r2)
    by (rewrite ?F1, ?F2, ?F3; assumption).
  rewrite (update_ok_state sc1 ci1 n1 params1 self l1 r1 C1 S1 R1) in E1.
  injection E1 as <-.
  destruct (update_reads_frame sc2 sc1 ci2 n2 params2 self) as (G1 & G2 & G3);
    [assumption|].
  rewrite (update_ok_state sc2 ci2 n2 params2 self l2 r2 C2 S2 R2) in G1, G2, G3.
  cbn [fst] in G1, G2, G3.
  rewrite (update_ok_state sc1 ci1 n1 params1 _ l1 r1)
    by (rewrite ?G1, ?G2, ?G3; assumption).
  f_equal. destruct r1 as [v1|], r2 as [v2|].
  - rewrite !with_cache_assigned, (with_cache_with_cache sc1 sc2) by assumption.
    now apply assigned_assigned_other.
  - rewrite !with_cache_assigned. now rewrite (with_cache_with_cache sc1 sc2).
  - rewrite !with_cache_assigned. now rewrite (with_cache_with_cache sc1 sc2).
  - now apply with_cache_with_cache.
Qed.

Lemma updates_commute_witness :
  let self := annealing_loss "linear" in
  bind (update_of HeatLambda 9000 10000 (Some [8; 2])) (fun _ =>
        update_of DivWeight 6000 10000 example_params) self
  = bind (update_of DivWeight 6000 10000 example_params) (fun _ =>
          update_of HeatLambda 9000 10000 (Some [8; 2])) self.
Proof.
  intros self.
  apply (updates_commute DivWeight HeatLambda 6000 10000 9000 10000
           example_params (Some [8; 2]) self); [discriminate | reflexivity].
Defined.

(** ** [forward]: failures *)

Lemma bind_attr {A B} (f : Loss -> A) (k : A -> M B) (self : Loss) :
  bind (attr f) k self = k (f self) self.
Proof. reflexivity. Qed.

Lemma bind_raise {A B} (m : M A) (k : A -> M B) (self self' : Loss) (x : exn) :
  m self = (self', Raise x) -> bind m k self = (self', Raise x).
Proof. intros H. unfold bind. now rewrite H. Qed.

Lemma bind_ok {A B} (m : M A) (k : A -> M B) (self self' : Loss) (a : A) :
  m self = (self', Ok a) -> bind m k self = k a self'.
Proof. intros H. unfold bind. now rewrite H. Qed.

Lemma bind_ok_inv {A B} (m : M A) (k : A -> M B) (self self' : Loss) (b : B) :
  bind m k self = (self', Ok b) ->
  exists a s1, m self = (s1, Ok a) /\ k a s1 = (self', Ok b).
Proof.
  unfold bind. destruct (m self) as [s1 [a|x]]; [eauto | discriminate].
Qed.

Lemma pure_ok_inv {A} (m : M A) (self s1 : Loss) (a : A) :
  pure m -> m self = (s1, Ok a) -> s1 = self.
Proof. intros Hm H. specialize (Hm self). rewrite H in Hm. exact Hm. Qed.

Lemma pure_ok_state {A} (m : M A) (self s1 : Loss) (a : A) :
  m self = (s1, Ok a) -> pure m -> s1 = self.
Proof. intros H Hm. now apply (pure_ok_inv m self s1 a). Qed.

(** A step that only reads returned in the state it started in. *)
Ltac same_state H :=
  let P := fresh "P" in
  pose proof H as P; apply pure_ok_state in P; [subst | prove_pure].

Lemma when_weight_positive_short (i : nat) (m : M Q) (self : Loss) :
  (length (weights self) <= i)%nat ->
  when_weight_positive i m self = (self, Raise IndexError).
Proof.
  intros H. unfold when_weight_positive, bind, load_weight, Py.getitem.
  now rewrite (lookup_ge_None_2 _ _ H).
Qed.

(** A NaN or an Inf in the predictions or gradients makes [forward] raise
    [ValueError] before it reads or writes anything of [self]. *)
Lemma forward_numeric_fault (batch : Batch) (self : Loss) :
  numeric_fault batch = true ->
  forward batch self = (self, Raise ValueError).
Proof.
  intros H. unfold forward. apply bind_raise. now rewrite H.
Qed.

Lemma forward_numeric_fault_witness :
  let batch := {| numeric_fault := true;
                  full_l2_div := 1; full_l1_div := 1; dir_l2_div := 1; dir_l1_div := 1;
                  eikonal_abs := 1; eikonal_squared := 1; normals_gt := None;
                  boundary := 1; inter := 1; heat := 1; phase := 1;
                  dists_gt := None; dists_sal := None; latent_reg := None |} in
  let self := Loss_init [] "no such preset" "none" "dir_l1" 100 (1 # 100)
                        "none" "none" "none" "none" true in
  forward batch self = (self, Raise ValueError).
Proof.
  intros batch self. apply (forward_numeric_fault batch self). reflexivity.
Defined.

(** X16.  [forward] reads [weights[3]] for every preset: with fewer than
    four weights and a fault-free batch it raises [IndexError] and leaves
    [self] as it was, whatever the preset. *)
Theorem forward_needs_four_weights (batch : Batch) (self : Loss) :
  numeric_fault batch = false ->
  (length (weights self) < 4)%nat ->
  forward batch self = (self, Raise IndexError).
Proof.
  intros Hf Hl. unfold forward.
  rewrite (bind_ok _ _ self self tt) by (now rewrite Hf).
  rewrite bind_attr.
  destruct (use_div self).
  - apply bind_raise. apply when_weight_positive_short. lia.
  - rewrite (bind_ok _ _ self self 0) by reflexivity.
    rewrite bind_attr. apply bind_raise. apply when_weight_positive_short. lia.
Qed.

Lemma forward_needs_four_weights_witness :
  let self := Loss_init [1; 1; 1] "igr" "none" "dir_l1" 100 (1 # 100)
                        "none" "none" "none" "none" true in
  forward example_batch self = (self, Raise IndexError).
Proof.
  intros self. apply (forward_needs_four_weights example_batch self).
  - reflexivity.
  - cbn. lia.
Defined.

Lemma combine_terms_unknown
    (boundary_term inter_term normal_term eikonal_term div_term sal_term
       heat_term phase_term : Q) (self : Loss) :
  ~ In (loss_type self) presets ->
  combine_terms boundary_term inter_term normal_term eikonal_term div_term
    sal_term heat_term phase_term self = (self, Raise Warning).
Proof.
  intros H. unfold combine_terms. rewrite bind_attr.
  repeat match goal with
         | |- context [String.eqb (loss_type self) ?p] =>
             let E := fresh "E" in
             destruct (String.eqb (loss_type self) p) eqn:E;
             [ exfalso; apply H; apply String.eqb_eq in E; rewrite E;
               unfold presets; simpl; tauto | ]
         end.
  reflexivity.
Qed.

(** X17.  With a [loss_type] that is none of the eleven presets, [forward]
    never returns: it raises, and [self] is left as it was. *)
Theorem forward_unknown_preset_raises (batch : Batch) (self : Loss) :
  ~ In (loss_type self) presets ->
  exists x, forward batch self = (self, Raise x).
Proof.
  intros H. unfold forward.
  do 11 (rewrite bind_pure_l by prove_pure;
         match goal with
         | |- context [snd (?m self)] => destruct (snd (m self)); [|eauto]
         end).
  exists Warning. apply bind_raise. now apply combine_terms_unknown.
Qed.

Lemma forward_unknown_preset_raises_witness :
  let self := example_loss "none" "siren_with_div" in
  exists x, forward example_batch self = (self, Raise x).
Proof.
  intros self. apply (forward_unknown_preset_raises example_batch self).
  unfold presets. simpl. intros H.
  repeat (destruct H as [H | H]; [discriminate|]). exact H.
Defined.

(** ** [forward] and the annealed scalars *)

Lemma forward_writes_indices (preset : string) (i : nat) :
  In i (forward_writes preset) -> i = 1%nat \/ i = 2%nat.
Proof.
  unfold forward_writes.
  destruct (String.eqb preset "siren_wo_n"); [intros [<-|[]]; now right|].
  destruct (String.eqb preset "igr"); [intros [<-|[]]; now left|].
  destruct (String.eqb preset "igr_wo_n"); [intros [<-|[<-|[]]]; auto|].
  intros [].
Qed.

(** X18.  [forward] never undoes the annealing: whatever the preset, the
    batch and the outcome, the five governed scalars, the five cached lists
    and the five decay modes are after the call what they were before. *)
Theorem forward_keeps_annealed_scalars (batch : Batch) (self : Loss) (sc : scalar) :
  let self' := fst (forward batch self) in
  scalar_of sc self' = scalar_of sc self
  /\ cache_of sc self' = cache_of sc self
  /\ mode_of sc self' = mode_of sc self.
Proof.
  intros self'. subst self'.
  destruct (forward_zeroes batch self) as [[E Z] _].
  split; [|rewrite E; destruct sc; split; reflexivity].
  unfold scalar_of. destruct (target_index sc) as [i|] eqn:T.
  - destruct (Z i) as [H | [H _]]; [exact H|].
    apply forward_writes_indices in H.
    destruct sc; simpl in T; try discriminate; injection T as <-; lia.
  - rewrite E. reflexivity.
Qed.

(** X19.  After a call of [forward] that returned, further calls leave
    [self] as it is: the weights a preset zeroes are zeroed once. *)
Theorem forward_settles (batch batch' : Batch) (self : Loss) (out : Output) :
  snd (forward batch self) = Ok out ->
  fst (forward batch' (fst (forward batch self))) = fst (forward batch self).
Proof.
  intros H.
  destruct (forward_zeroes batch self) as [[E Z] O].
  specialize (O out H).
  set (self1 := fst (forward batch self)) in *.
  assert (T : loss_type self1 = loss_type self) by (rewrite E; reflexivity).
  destruct (forward_zeroes batch' self1) as [[E' Z'] _].
  rewrite T in Z'.
  assert (W : weights (fst (forward batch' self1)) = weights self1).
  { apply list_eq. intros i. destruct (Z' i) as [Hi | [Hin Hi]]; [exact Hi|].
    rewrite Hi. symmetry. now apply O. }
  rewrite E', W. apply set_weights_same.
Qed.

Lemma forward_settles_witness :
  let self := example_loss "none" "igr_wo_n" in
  weights (fst (forward example_batch self)) = [1; 0; 0; 1; 1; 1; 1; 1]
  /\ fst (forward example_batch (fst (forward example_batch self)))
     = fst (forward example_batch self).
Proof.
  intros self. split; [reflexivity|].
  eapply (forward_settles example_batch example_batch self). reflexivity.
Defined.

(** ** [forward]: the returned terms and the loss *)

Lemma when_weight_positive_inv (i : nat) (m : M Q) (self s1 : Loss) (a : Q) :
  pure m ->
  when_weight_positive i m self = (s1, Ok a) ->
  s1 = self
  /\ exists w, weights self !! i = Some w
               /\ (w <= 0 -> a = 0)
               /\ (0 < w -> m self = (self, Ok a)).
Proof.
  intros Hm H.
  assert (P : s1 = self) by (apply (pure_ok_inv _ _ _ _ (pure_when_weight_positive i m Hm) H)).
  subst s1. split; [reflexivity|].
  unfold when_weight_positive, bind, load_weight, Py.getitem in H.
  destruct (weights self !! i) as [w|]; [|discriminate].
  exists w. split; [reflexivity|].
  destruct (Qlt_bool 0 w) eqn:E.
  - apply Qlt_bool_true in E. split; [intros; lra | intros _; exact H].
  - apply Qlt_bool_false in E. split; [|intros; lra].
    intros _. unfold ret in H. congruence.
Qed.

Lemma weighted_inv (i : nat) (term : Q) (self s1 : Loss) (a : Q) :
  weighted i term self = (s1, Ok a) ->
  s1 = self /\ exists w, weights self !! i = Some w /\ a = w * term.
Proof.
  unfold weighted, bind, load_weight, Py.getitem, ret.
  destruct (weights self !! i) as [w|]; [|discriminate].
  intros [= <- <-]. eauto.
Qed.

Lemma store_weight_inv (i : nat) (v : Q) (self s1 : Loss) (a : unit) :
  store_weight i v self = (s1, Ok a) ->
  (i < length (weights self))%nat
  /\ s1 = set_weights (<[i:=v]> (weights self)) self.
Proof.
  unfold store_weight, Py.setitem.
  destruct (decide (i < length (weights self))%nat); [|discriminate].
  intros [= <-]. auto.
Qed.

(** What a call that returned went through, step by step: every step before
    the combination ran on [self] and returned the term that [out] reports. *)
Lemma forward_ok_inv (batch : Batch) (self self' : Loss) (out : Output) :
  forward batch self = (self', Ok out) ->
  exists phase_term total s,
    numeric_fault batch = false
    /\ (if use_div self then
          when_weight_positive 4
            (let* kind := attr div_type in
             if String.eqb kind "full_l2" then ret (full_l2_div batch)
             else if String.eqb kind "full_l1" then ret (full_l1_div batch)
             else if String.eqb kind "dir_l2" then ret (dir_l2_div batch)
             else if String.eqb kind "dir_l1" then ret (dir_l1_div batch)
             else raise Warning)
        else ret 0) self = (self, Ok (div_term out))
    /\ when_weight_positive 3
         (ret (if String.eqb (loss_type self) "phase" then eikonal_squared batch
               else eikonal_abs batch)) self = (self, Ok (eikonal_term out))
    /\ match normals_gt batch with
       | None => ret 0
       | Some (by_difference, by_cosine) =>
           when_weight_positive 2
             (ret (if Py.contains "igr" (loss_type self)
                      || Py.contains "phase" (loss_type self)
                   then by_difference else by_cosine))
       end self = (self, Ok (normal_term out))
    /\ boundary_term out = boundary batch
    /\ when_weight_positive 1 (ret (inter batch)) self = (self, Ok (inter_term out))
    /\ (if use_heat self then when_weight_positive 6 (ret (heat batch)) else ret 0) self
       = (self, Ok (heat_term out))
    /\ (if use_phase self then when_weight_positive 7 (ret (phase batch)) else ret 0) self
       = (self, Ok phase_term)
    /\ sal_term out = default 0 (dists_sal batch)
    /\ diff_term out = default 0 (dists_gt batch)
    /\ latent_reg_term out = default 0 (latent_reg batch)
    /\ combine_terms (boundary_term out) (inter_term out) (normal_term out)
         (eikonal_term out) (div_term out) (sal_term out) (heat_term out)
         phase_term self = (s, Ok total)
    /\ match latent_reg batch with
       | None => ret total
       | Some reg => let* extra := weighted 5 reg in ret (total + extra)
       end s = (self', Ok (loss out)).
Proof.
  intros H. unfold forward in H.
  apply bind_ok_inv in H as (a0 & s0 & H0 & H).
  destruct (numeric_fault batch); [discriminate|]. injection H0 as <- <-.
  rewrite bind_attr in H.
  apply bind_ok_inv in H as (dv & s1 & Hdiv & H).
  same_state Hdiv.
  rewrite bind_attr in H.
  apply bind_ok_inv in H as (ek & s1 & Heik & H).
  same_state Heik.
  apply bind_ok_inv in H as (nm & s1 & Hnorm & H).
  same_state Hnorm.
  apply bind_ok_inv in H as (it & s1 & Hint & H).
  same_state Hint.
  rewrite bind_attr in H.
  apply bind_ok_inv in H as (ht & s1 & Hheat & H).
  same_state Hheat.
  rewrite bind_attr in H.
  apply bind_ok_inv in H as (ph & s1 & Hphase & H).
  same_state Hphase.
  apply bind_ok_inv in H as (total & s & Hcomb & H).
  apply bind_ok_inv in H as (total' & s2 & Hlat & H).
  unfold ret in H. injection H as <- <-. cbn [loss boundary_term inter_term
    latent_reg_term eikonal_term normal_term div_term sal_term heat_term diff_term].
  exists ph, total, s. repeat split; assumption.
Qed.

(** X20.  A term whose weight is not positive, whose flag is off or whose
    input was not given is not computed: a call that returns reports it as
    exactly 0. *)
Theorem switched_off_terms_are_zero
    (batch : Batch) (self self' : Loss) (out : Output) :
  forward batch self = (self', Ok out) ->
  (weight self 3 <= 0 -> eikonal_term out = 0)
  /\ (weight self 1 <= 0 -> inter_term out = 0)
  /\ (weight self 2 <= 0 \/ normals_gt batch = None -> normal_term out = 0)
  /\ (use_div self = false \/ weight self 4 <= 0 -> div_term out = 0)
  /\ (use_heat self = false \/ weight self 6 <= 0 -> heat_term out = 0)
  /\ (dists_sal batch = None -> sal_term out = 0)
  /\ (dists_gt batch = None -> diff_term out = 0)
  /\ (latent_reg batch = None -> latent_reg_term out = 0).
Proof.
  intros H.
  destruct (forward_ok_inv batch self self' out H)
    as (ph & total & s & _ & Hdiv & Heik & Hnorm & _ & Hint & Hheat & _
        & Hsal & Hdiff & Hlat & _ & _).
  unfold weight. repeat split.
  - apply when_weight_positive_inv in Heik as (_ & w & -> & Z & _); [exact Z | prove_pure].
  - apply when_weight_positive_inv in Hint as (_ & w & -> & Z & _); [exact Z | prove_pure].
  - destruct (normals_gt batch) as [[d c]|].
    + apply when_weight_positive_inv in Hnorm as (_ & w & -> & Z & _); [|prove_pure].
      intros [L | L]; [now apply Z | discriminate].
    + intros _. unfold ret in Hnorm. congruence.
  - destruct (use_div self).
    + apply when_weight_positive_inv in Hdiv as (_ & w & -> & Z & _); [|prove_pure].
      intros [L | L]; [discriminate | now apply Z].
    + intros _. unfold ret in Hdiv. congruence.
  - destruct (use_heat self).
    + apply when_weight_positive_inv in Hheat as (_ & w & -> & Z & _); [|prove_pure].
      intros [L | L]; [discriminate | now apply Z].
    + intros _. unfold ret in Hheat. congruence.
  - intros E. now rewrite Hsal, E.
  - intros E. now rewrite Hdiff, E.
  - intros E. now rewrite Hlat, E.
Qed.

Lemma switched_off_terms_are_zero_witness :
  let self := Loss_init [1; 0; 1; 0; 1; 1; 1; 1] "siren_w_div" "none" "dir_l1" 100
                        (1 # 100) "none" "none" "none" "none" true in
  exists out,
    snd (forward example_batch self) = Ok out
    /\ eikonal_term out = 0 /\ inter_term out = 0 /\ heat_term out = 0.
Proof.
  intros self.
  destruct (forward example_batch self) as [self' [out|x]] eqn:E;
    [|vm_compute in E; discriminate].
  destruct (switched_off_terms_are_zero example_batch self self' out E)
    as (A & B & _ & _ & C & _).
  exists out. split; [reflexivity|].
  split; [apply A; discriminate|]. split; [apply B; discriminate|].
  apply C. now left.
Defined.

(** ** [forward]: the loss of the paper presets *)

Ltac inv_weighted H :=
  let a := fresh "a" in let s := fresh "s" in
  let w := fresh "w" in let Hw := fresh "Hw" in let L := fresh "L" in
  apply bind_ok_inv in H as (a & s & Hw & H);
  apply weighted_inv in Hw as (-> & w & L & ->).

Ltac inv_store H :=
  let a := fresh "a" in let s := fresh "s" in
  let Hs := fresh "Hs" in let R := fresh "R" in
  apply bind_ok_inv in H as (a & s & Hs & H);
  apply store_weight_inv in Hs as (R & ->).

Lemma latent_step_inv (batch : Batch) (total : Q) (s self' : Loss) (result : Q) :
  match latent_reg batch with
  | None => ret total
  | Some reg => let* extra := weighted 5 reg in ret (total + extra)
  end s = (self', Ok result) ->
  self' = s
  /\ result == total + weight s 5 * default 0 (latent_reg batch).
Proof.
  destruct (latent_reg batch) as [reg|]; intros H.
  - inv_weighted H. unfold ret in H. injection H as <- <-.
    split; [reflexivity|]. unfold weight. rewrite L. reflexivity.
  - unfold ret in H. injection H as <- <-. split; [reflexivity|].
    cbn [default from_option id]. ring.
Qed.

(** X21.  The four presets "siren", "siren_wo_n", "igr" and "igr_wo_n" are
    one formula.  For each of them a call that returns has
    loss = w0 * boundary + w1 * inter + w2 * normal + w3 * eikonal
           + w5 * latent_reg
    over the terms it reports and the weights it leaves behind: a preset
    leaves a term out by zeroing its weight. *)
Theorem paper_presets_are_one_formula
    (batch : Batch) (self self' : Loss) (out : Output) :
  In (loss_type self) paper_presets ->
  forward batch self = (self', Ok out) ->
  loss out == weight self' 0 * boundary_term out
              + weight self' 1 * inter_term out
              + weight self' 2 * normal_term out
              + weight self' 3 * eikonal_term out
              + weight self' 5 * latent_reg_term out.
Proof.
  intros Hp H.
  destruct (forward_ok_inv batch self self' out H)
    as (ph & total & s & _ & _ & _ & _ & _ & _ & _ & _ & _ & _ & Hlat & Hcomb & Hl).
  apply latent_step_inv in Hl as (-> & ->). rewrite Hlat.
  unfold combine_terms in Hcomb. rewrite bind_attr in Hcomb.
  unfold paper_presets in Hp. simpl in Hp.
  destruct Hp as [E | [E | [E | [E | []]]]]; rewrite <- E in Hcomb;
    cbn [String.eqb Ascii.eqb Bool.eqb] in Hcomb.
  - inv_weighted Hcomb. inv_weighted Hcomb. inv_weighted Hcomb. inv_weighted Hcomb.
    unfold ret in Hcomb. injection Hcomb as <- <-.
    unfold weight. rewrite L, L0, L1, L2. cbn [default from_option id]. ring.
  - inv_store Hcomb. inv_weighted Hcomb. inv_weighted Hcomb. inv_weighted Hcomb.
    unfold ret in Hcomb. injection Hcomb as <- <-.
    unfold weight. cbn [weights set_weights] in *. rewrite L, L0, L1.
    rewrite (list_lookup_insert_eq (weights self) 2 0 R).
    cbn [default from_option id]. ring.
  - inv_store Hcomb. inv_weighted Hcomb. inv_weighted Hcomb. inv_weighted Hcomb.
    unfold ret in Hcomb. injection Hcomb as <- <-.
    unfold weight. cbn [weights set_weights] in *. rewrite L, L0, L1.
    rewrite (list_lookup_insert_eq (weights self) 1 0 R).
    cbn [default from_option id]. ring.
  - inv_store Hcomb. inv_store Hcomb. inv_weighted Hcomb. inv_weighted Hcomb.
    unfold ret in Hcomb. injection Hcomb as <- <-.
    unfold weight. cbn [weights set_weights] in *. rewrite L, L0.
    rewrite (list_lookup_insert_eq _ 2 0 R0).
    rewrite (list_lookup_insert_ne _ 2 1) by discriminate.
    rewrite (list_lookup_insert_eq (weights self) 1 0 R).
    cbn [default from_option id]. ring.
Qed.

Lemma paper_presets_are_one_formula_witness :
  let self := Loss_init [3; 5; 7; 11; 0; 0; 0; 0] "igr_wo_n" "none" "dir_l1" 100
                        (1 # 100) "none" "none" "none" "none" true in
  exists out self',
    forward example_batch self = (self', Ok out)
    /\ loss out == weight self' 0 * boundary_term out
                   + weight self' 1 * inter_term out
                   + weight self' 2 * normal_term out
                   + weight self' 3 * eikonal_term out
                   + weight self' 5 * latent_reg_term out.
Proof.
  intros self.
  destruct (forward example_batch self) as [self' [out|x]] eqn:E;
    [|vm_compute in E; discriminate].
  exists out, self'. split; [reflexivity|].
  apply (paper_presets_are_one_formula example_batch self self' out);
    [right; right; right; now left | exact E].
Defined.



(** ** [__init__] and [forward] *)

(** Decide a membership in, or an equation between, literal strings. *)
Ltac literal_membership :=
  solve [ reflexivity
        | simpl; repeat first [left; reflexivity | right] ].

Ltac refute_literal_membership H :=
  exfalso; simpl in H;
  repeat (destruct H as [H | H]; [discriminate H|]);
  first [discriminate H | exact H].

Ltac flag_iff :=
  split;
  [ intros H; first [discriminate H | literal_membership]
  | intros H; first [reflexivity | refute_literal_membership H] ].

Lemma init_flags (ws : list Q) (p dd dt : string) (hl pe : Q)
    (hd hld ed bd : string) (imp : bool) :
  In p presets ->
  let self := Loss_init ws p dd dt hl pe hd hld ed bd imp in
  (use_div self = true <-> In p div_presets)
  /\ (use_heat self = true <-> In p heat_presets)
  /\ (use_phase self = true <-> p = "phase"%string).
Proof.
  intros Hp self. subst self. unfold presets in Hp. simpl in Hp.
  unfold div_presets, heat_presets. cbn [use_div use_heat use_phase Loss_init].
  repeat (destruct Hp as [<- | Hp];
          [ repeat match goal with
                   | |- context [Py.contains ?a ?b] =>
                       let v := eval vm_compute in (Py.contains a b) in
                       change (Py.contains a b) with v
                   end;
            split; [flag_iff | split; flag_iff]
          | ]).
  destruct Hp.
Qed.

(** X24.  The flags that [__init__] derives from the name of the preset
    switch on exactly the terms its combination uses.  For an object made by
    [__init__] with one of the eleven presets, a call of [forward] that
    returns reports a divergence term of 0 unless the preset is one of the
    three with a divergence term, and a heat term of 0 unless it is one of
    the three with a heat term; for those presets, a positive weight makes it
    report the batch's divergence of the configured kind and the batch's heat
    term. *)
Theorem init_flags_match_presets
    (ws : list Q) (p dd dt : string) (hl pe : Q) (hd hld ed bd : string) (imp : bool)
    (batch : Batch) (self' : Loss) (out : Output) :
  let self := Loss_init ws p dd dt hl pe hd hld ed bd imp in
  In p presets ->
  forward batch self = (self', Ok out) ->
  (~ In p div_presets -> div_term out = 0)
  /\ (~ In p heat_presets -> heat_term out = 0)
  /\ (In p div_presets -> 0 < weight self 4 ->
      In dt div_types /\ div_term out = divergence_value batch dt)
  /\ (In p heat_presets -> 0 < weight self 6 -> heat_term out = heat batch).
Proof.
  intros self Hp H.
  destruct (init_flags ws p dd dt hl pe hd hld ed bd imp Hp) as (Fd & Fh & _).
  fold self in Fd, Fh.
  destruct (forward_ok_inv batch self self' out H)
    as (ph & total & s & _ & Hdiv & _ & _ & _ & _ & Hheat & _).
  split; [|split; [|split]].
  - intros N. destruct (use_div self) eqn:U.
    + exfalso. apply N, Fd. reflexivity.
    + unfold ret in Hdiv. congruence.
  - intros N. destruct (use_heat self) eqn:U.
    + exfalso. apply N, Fh. reflexivity.
    + unfold ret in Hheat. congruence.
  - intros I W. apply Fd in I. rewrite I in Hdiv.
    apply when_weight_positive_inv in Hdiv as (_ & w & L & _ & Pos); [|prove_pure].
    unfold weight in W. rewrite L in W. specialize (Pos W).
    rewrite bind_attr in Pos. change (div_type self) with dt in Pos.
    unfold divergence_value, div_types.
    destruct (String.eqb dt "full_l2") eqn:E1.
    { apply String.eqb_eq in E1. unfold ret in Pos.
      split; [rewrite E1; literal_membership | congruence]. }
    destruct (String.eqb dt "full_l1") eqn:E2.
    { apply String.eqb_eq in E2. unfold ret in Pos.
      split; [rewrite E2; literal_membership | congruence]. }
    destruct (String.eqb dt "dir_l2") eqn:E3.
    { apply String.eqb_eq in E3. unfold ret in Pos.
      split; [rewrite E3; literal_membership | congruence]. }
    destruct (String.eqb dt "dir_l1") eqn:E4.
    { apply String.eqb_eq in E4. unfold ret in Pos.
      split; [rewrite E4; literal_membership | congruence]. }
    discriminate.
  - intros I W. apply Fh in I. rewrite I in Hheat.
    apply when_weight_positive_inv in Hheat as (_ & w & L & _ & Pos); [|prove_pure].
    unfold weight in W. rewrite L in W. specialize (Pos W).
    unfold ret in Pos. congruence.
Qed.

Lemma init_flags_match_presets_witness :
  let self := Loss_init [1; 1; 1; 1; 1; 1; 1; 1] "igr_w_heat" "none" "dir_l1" 100
                        (1 # 100) "none" "none" "none" "none" true in
  exists self' out,
    forward example_batch self = (self', Ok out)
    /\ div_term out = 0 /\ heat_term out = heat example_batch.
Proof.
  intros self.
  destruct (forward example_batch self) as [self' [out|x]] eqn:E;
    [|vm_compute in E; discriminate].
  destruct (init_flags_match_presets [1; 1; 1; 1; 1; 1; 1; 1] "igr_w_heat" "none"
              "dir_l1" 100 (1 # 100) "none" "none" "none" "none" true
              example_batch self' out) as (A & _ & _ & B).
  - unfold presets. literal_membership.
  - exact E.
  - exists self', out. split; [reflexivity|]. split.
    + apply A. unfold div_presets. simpl. intros [C | [C | [C | []]]]; discriminate.
    + apply B; [unfold heat_presets; literal_membership | reflexivity].
Defined.

(** ** Annealing a weight away *)

Lemma update_at_end
    (sc : scalar) (n : Z) (params : option (list Q)) (self : Loss)
    (start final : Q) (mids : list (Q * Q)) :
  let l := (start, 0) :: map (fun m => (snd m, fst m)) mids ++ [(final, 1)] in
  checked_list (cache_of sc self) params = Ok l ->
  (0 < n)%Z ->
  assigning_mode (mode_of sc self) ->
  (forall m, In m mids -> ~ fst m == 1) ->
  update_of sc n n params self = assign_of sc final (with_cache sc l self).
Proof.
  intros l C Hn Hm Hmid. rewrite update_of_spec, C.
  rewrite (scheduled_at_control_point l _ n n (final, 1)); [reflexivity | assumption..|].
  pose proof (progress_full n Hn) as P.
  unfold l. unfold first_at. cbn [List.find snd].
  destruct (Qeq_bool 0 (progress n n)) eqn:E.
  { apply Qeq_bool_eq in E. lra. }
  now apply first_at_last.
Qed.

(** X25.  A weight annealed to 0 switches its term off.  When the params
    of the divergence, heat or eikonal weight end in the value 0 (and no
    middle fraction is 1), then after the update at the last iteration a call
    of [forward] that returns reports that term as 0: it is no longer
    computed. *)
Theorem annealed_away_term_is_off
    (sc : scalar) (n : Z) (params : option (list Q)) (self self1 self2 : Loss)
    (start : Q) (mids : list (Q * Q)) (batch : Batch) (out : Output) :
  let l := (start, 0) :: map (fun m => (snd m, fst m)) mids ++ [(0, 1)] in
  checked_list (cache_of sc self) params = Ok l ->
  (0 < n)%Z ->
  assigning_mode (mode_of sc self) ->
  (forall m, In m mids -> ~ fst m == 1) ->
  update_of sc n n params self = (self1, Ok tt) ->
  forward batch self1 = (self2, Ok out) ->
  scalar_of sc self1 = Some 0
  /\ (sc = DivWeight -> div_term out = 0)
  /\ (sc = HeatWeight -> heat_term out = 0)
  /\ (sc = EikonalWeight -> eikonal_term out = 0).
Proof.
  intros l C Hn Hm Hmid U F.
  rewrite (update_at_end sc n params self start 0 mids C Hn Hm Hmid) in U.
  fold l in U.
  assert (R : in_range sc (with_cache sc l self)).
  { destruct (in_range_dec sc (with_cache sc l self)) as [R|R]; [exact R|].
    rewrite assign_out_of_range in U by assumption. discriminate. }
  rewrite assign_in_range in U by assumption. injection U as <-.
  assert (S : scalar_of sc (assigned sc 0 (with_cache sc l self)) = Some 0)
    by (now apply assigned_scalar).
  split; [exact S|].
  destruct (forward_ok_inv batch _ self2 out F)
    as (ph & total & s & _ & Hdiv & Heik & _ & _ & _ & Hheat & _).
  split; [|split]; intros ->; unfold scalar_of in S; cbn [target_index] in S.
  - destruct (use_div _); [|unfold ret in Hdiv; congruence].
    apply when_weight_positive_inv in Hdiv as (_ & w & L & Z & _); [|prove_pure].
    apply Z. rewrite S in L. injection L as <-. lra.
  - destruct (use_heat _); [|unfold ret in Hheat; congruence].
    apply when_weight_positive_inv in Hheat as (_ & w & L & Z & _); [|prove_pure].
    apply Z. rewrite S in L. injection L as <-. lra.
  - apply when_weight_positive_inv in Heik as (_ & w & L & Z & _); [|prove_pure].
    apply Z. rewrite S in L. injection L as <-. lra.
Qed.

Lemma annealed_away_term_is_off_witness :
  let self := Loss_init [1; 1; 1; 1; 1; 1; 1; 1] "siren_w_div" "linear" "dir_l1" 100
                        (1 # 100) "none" "none" "none" "none" true in
  exists self1 self2 out,
    update_of DivWeight 10000 10000 example_params self = (self1, Ok tt)
    /\ forward example_batch self1 = (self2, Ok out)
    /\ div_term out = 0.
Proof.
  intros self.
  destruct (update_of DivWeight 10000 10000 example_params self)
    as [self1 [[]|x]] eqn:U; [|vm_compute in U; discriminate].
  destruct (forward example_batch self1) as [self2 [out|x]] eqn:F.
  2:{ exfalso.
      assert (E : self1 = fst (update_of DivWeight 10000 10000 example_params self))
        by (now rewrite U).
      rewrite E in F. vm_compute in F. discriminate. }
  exists self1, self2, out. split; [reflexivity|]. split; [exact F|].
  destruct (annealed_away_term_is_off DivWeight 10000 example_params self self1 self2
              100 [(1 # 2, 100); (3 # 4, 0)] example_batch out) as (_ & D & _).
  - reflexivity.
  - reflexivity.
  - now left.
  - intros m [<- | [<- | []]]; discriminate.
  - exact U.
  - exact F.
  - apply D. reflexivity.
Defined.

(** * Properties on Python's numbers *)

Section Binary64Properties.

Import PrimFloat Binary64.

(** ** Reading a call *)

Lemma binary64_store_weight_ok (i : nat) (v : Num.num) (self : Loss) :
  (i < length (weights self))%nat ->
  store_weight i v self = (set_weights (<[i:=v]> (weights self)) self, Returns tt).
Proof.
  intros H. unfold store_weight, Py.setitem.
  destruct (decide (i < length (weights self))%nat); [reflexivity | contradiction].
Qed.

Lemma binary64_constructed_frame (params : option (list Num.num)) (self self' : Loss)
    (l : list control_point) :
  constructed params self self' l ->
  weights self' = weights self /\ div_decay self' = div_decay self.
Proof.
  intros [B _]. unfold build_decay_params_list, bind, attr in B.
  destruct (decay_params_list self) as [l0|].
  { injection B as <-. auto. }
  unfold lift, py, Py.len in B. destruct params as [ps|]; [|discriminate].
  change (default [] (Some ps)) with ps in B.
  unfold assert in B.
  destruct (2 <=? length ps)%nat; [|discriminate]. cbn [ret] in B.
  destruct (length (Py.slice_1_m1 ps) mod 2 =? 0)%nat; [|discriminate]. cbn [ret] in B.
  destruct (Py.getitem_0 ps); [|discriminate].
  destruct (Py.getitem_m1 ps); [|discriminate].
  injection B as <-. auto.
Qed.

(** A query whose division and two searches succeed runs the kernel on the
    brackets. *)
Lemma binary64_update_query (params : option (list Num.num)) (ci n : Z)
    (self self' : Loss) (l : list control_point) (p : float) (w0 s we e : Num.num) :
  constructed params self self' l ->
  Num.int_truediv ci n = Returns p ->
  lower_bracket l p = Returns (w0, s) ->
  upper_bracket l p = Returns (we, e) ->
  update_div_weight ci n params self = div_kernel w0 s we e ci n self'.
Proof.
  intros [B C] P L U. unfold update_div_weight, bind at 1. rewrite B.
  unfold bind at 1, attr at 1. rewrite C. cbn [default from_option id].
  unfold bind at 1, lift at 1. rewrite P.
  unfold bind at 1, lift at 1. rewrite U.
  unfold bind at 1, lift at 1. rewrite L. reflexivity.
Qed.

(** The kernel once its guards are evaluated. *)
Lemma binary64_kernel_first_branch (w0 s we e : Num.num) (ci n : Z) (self : Loss) :
  assigning_mode (div_decay self) ->
  before_start s ci n = Returns true ->
  div_kernel w0 s we e ci n self = store_weight 4 w0 self.
Proof.
  intros Hm B. unfold div_kernel, bind at 1, attr at 1.
  destruct Hm as [-> | [-> | ->]]; cbn [String.eqb Ascii.eqb Bool.eqb];
    unfold bind, lift; rewrite B; reflexivity.
Qed.

Lemma binary64_kernel_step (w0 s we e : Num.num) (ci n : Z) (self : Loss) (early : bool) :
  div_decay self = "step"%string ->
  before_start s ci n = Returns early ->
  div_kernel w0 s we e ci n self = store_weight 4 (if early then w0 else we) self.
Proof.
  intros Hm B. unfold div_kernel, bind at 1, attr at 1. rewrite Hm.
  cbn [String.eqb Ascii.eqb Bool.eqb]. unfold bind, lift. rewrite B.
  destruct early; reflexivity.
Qed.

Lemma binary64_kernel_linear (w0 s we e v : Num.num) (ci n : Z) (self : Loss) :
  div_decay self = "linear"%string ->
  before_start s ci n = Returns false ->
  in_window s e ci n = Returns true ->
  linear_rhs w0 s we e ci n = Returns v ->
  div_kernel w0 s we e ci n self = store_weight 4 v self.
Proof.
  intros Hm B W V. unfold div_kernel, bind at 1, attr at 1. rewrite Hm.
  cbn [String.eqb Ascii.eqb Bool.eqb]. unfold bind, lift. rewrite B, W, V.
  reflexivity.
Qed.

(** Line 412 recomputes the progress of line 399: its right-hand side is the
    interpolation formula at that progress. *)
Lemma linear_rhs_interpolate (w0 s we e : Num.num) (ci n : Z) (p : float) :
  Num.int_truediv ci n = Returns p ->
  linear_rhs w0 s we e ci n = interpolate w0 s we e (Num.Float p).
Proof.
  intros P. unfold linear_rhs, interpolate, and_then. rewrite P. reflexivity.
Qed.

(** The state after a store that is in range. *)
Lemma binary64_store_weight_state (v : Num.num) (self : Loss) :
  (4 < length (weights self))%nat ->
  let out := store_weight 4 v self in
  snd out = Returns tt
  /\ weights (fst out) !! 4%nat = Some v
  /\ (forall i, i <> 4%nat -> weights (fst out) !! i = weights self !! i)
  /\ decay_params_list (fst out) = decay_params_list self.
Proof.
  intros H out. unfold out. rewrite binary64_store_weight_ok by assumption.
  cbn [fst snd set_weights weights decay_params_list].
  split; [reflexivity|]. split; [now apply list_lookup_insert_eq|].
  split; [|reflexivity].
  intros i Hi. apply list_lookup_insert_ne. congruence.
Qed.

(** ** The searches select among the control points that pass the filter *)

Lemma binary64_max_from_In {A} (key : A -> Num.num) (best : A) (l : list A) :
  Num.max_from key best l = best \/ In (Num.max_from key best l) l.
Proof.
  revert best. induction l as [|x r IH]; intros best; cbn [Num.max_from]; [now left|].
  destruct (Num.gt (key x) (key best)).
  - destruct (IH x) as [-> | H]; right; [now left | now right].
  - destruct (IH best) as [-> | H]; [now left | right; now right].
Qed.

Lemma binary64_min_from_In {A} (key : A -> Num.num) (best : A) (l : list A) :
  Num.min_from key best l = best \/ In (Num.min_from key best l) l.
Proof.
  revert best. induction l as [|x r IH]; intros best; cbn [Num.min_from]; [now left|].
  destruct (Num.lt (key x) (key best)).
  - destruct (IH x) as [-> | H]; right; [now left | now right].
  - destruct (IH best) as [-> | H]; [now left | right; now right].
Qed.

Lemma binary64_lower_bracket_below (l : list control_point) (p : float)
    (cp : control_point) :
  lower_bracket l p = Returns cp ->
  In cp l /\ Num.le (snd cp) (Num.Float p) = true.
Proof.
  unfold lower_bracket, Num.max.
  match goal with
  | |- context [List.filter ?f l] => destruct (List.filter f l) as [|x r] eqn:F
  end; [discriminate|].
  intros [= <-].
  assert (H : In (Num.max_from snd x r) (x :: r)).
  { destruct (binary64_max_from_In snd x r) as [-> | H]; [now left | now right]. }
  rewrite <- F in H. apply filter_In in H. exact H.
Qed.

Lemma binary64_upper_bracket_above (l : list control_point) (p : float)
    (cp : control_point) :
  upper_bracket l p = Returns cp ->
  In cp l /\ Num.ge (snd cp) (Num.Float p) = true.
Proof.
  unfold upper_bracket, Num.min.
  match goal with
  | |- context [List.filter ?f l] => destruct (List.filter f l) as [|x r] eqn:F
  end; [discriminate|].
  intros [= <-].
  assert (H : In (Num.min_from snd x r) (x :: r)).
  { destruct (binary64_min_from_In snd x r) as [-> | H]; [now left | now right]. }
  rewrite <- F in H. apply filter_In in H. exact H.
Qed.

(** ** The linear kernel *)

(** C1, as the code has it.  On a constructed schedule, take a query whose
    progress is the float [p], whose lower bracket is [(w0, s)] and whose
    upper bracket is [(we, e)]; then [s <= p <= e].  When the guards of lines
    409 and 411 select the interpolating branch, that is when
    [s * n_iterations <= current_iteration < e * n_iterations] with the
    products as the code computes them, the call returns and [weights[4]] is
    afterwards the value of [w0 + (we - w0) * (p - s) / (e - s)] in binary64
    arithmetic; no other entry of [weights] changes. *)
Theorem linear_kernel_interpolates
    (params : option (list Num.num)) (ci n : Z) (self self' : Loss)
    (l : list control_point) (p : float) (w0 s we e v : Num.num) :
  constructed params self self' l ->
  div_decay self = "linear"%string ->
  (4 < length (weights self))%nat ->
  Num.int_truediv ci n = Returns p ->
  lower_bracket l p = Returns (w0, s) ->
  upper_bracket l p = Returns (we, e) ->
  before_start s ci n = Returns false ->
  in_window s e ci n = Returns true ->
  interpolate w0 s we e (Num.Float p) = Returns v ->
  let out := update_div_weight ci n params self in
  Num.le s (Num.Float p) = true
  /\ Num.ge e (Num.Float p) = true
  /\ snd out = Returns tt
  /\ weights (fst out) !! 4%nat = Some v
  /\ (forall i, i <> 4%nat -> weights (fst out) !! i = weights self !! i).
Proof.
  intros C Hm Hlen P L U B W V out.
  destruct (binary64_constructed_frame _ _ _ _ C) as [Hw Hd].
  destruct (binary64_lower_bracket_below _ _ _ L) as [_ Ls].
  destruct (binary64_upper_bracket_above _ _ _ U) as [_ Ue].
  cbn [snd] in Ls, Ue.
  split; [exact Ls|]. split; [exact Ue|].
  unfold out.
  rewrite (binary64_update_query params ci n self self' l p w0 s we e C P L U).
  rewrite (binary64_kernel_linear w0 s we e v ci n self');
    [| congruence | assumption | assumption
     | now rewrite (linear_rhs_interpolate w0 s we e ci n p P)].
  destruct (binary64_store_weight_state v self') as (R & S & O & _);
    [now rewrite Hw|].
  split; [exact R|]. split; [exact S|].
  intros i Hi. rewrite <- Hw. now apply O.
Qed.

(** The schedule of the source's comment at iteration 6000 of 10000.  The
    progress is the float 0.6 ([0x1.3333333333333p-1]), the brackets are
    (100, 0.5) and (0, 0.75), and the value stored is
    [0x1.e000000000001p+5], which Python prints as 60.00000000000001. *)
Lemma linear_kernel_interpolates_witness :
  let out := update_div_weight 6000 10000 example_params (example_loss "linear") in
  Num.int_truediv 6000 10000 = Returns 0x1.3333333333333p-1%float
  /\ lower_bracket example_list 0x1.3333333333333p-1
     = Returns (Num.Float 100, Num.Float 0.5)
  /\ upper_bracket example_list 0x1.3333333333333p-1
     = Returns (Num.Float 0, Num.Float 0.75)
  /\ snd out = Returns tt
  /\ weights (fst out) !! 4%nat = Some (Num.Float 0x1.e000000000001p+5).
Proof.
  intros out.
  assert (C : constructed example_params (example_loss "linear")
                (set_decay_params_list example_list (example_loss "linear"))
                example_list) by (split; reflexivity).
  split; [reflexivity|]. split; [reflexivity|]. split; [reflexivity|].
  destruct (linear_kernel_interpolates example_params 6000 10000 _ _ example_list
              0x1.3333333333333p-1 (Num.Float 100) (Num.Float 0.5)
              (Num.Float 0) (Num.Float 0.75) (Num.Float 0x1.e000000000001p+5) C)
    as (_ & _ & R & S & _); try reflexivity.
  - cbn. lia.
  - exact (conj R S).
Defined.

(** C1, as stated, does not hold of the floats the code computes on.  Its
    own example stores [0x1.e000000000001p+5], the float next above 60, and
    not 60.  And [s <= progress < e] does not select the interpolating
    branch: with a control point at [0x1.5555555555556p-2], the float next
    above 1/3, iteration 1 of 3 has the progress [0x1.5555555555555p-2]
    between the fractions 0 and [0x1.5555555555556p-2], but the product
    [e * n_iterations] rounds to 1, the guard [1 < 1] of line 411 fails, and
    the call stores the upper value 0 where the formula gives [0x1p-45]. *)
Lemma linear_example_is_not_60 :
  let out := update_div_weight 6000 10000 example_params (example_loss "linear") in
  let e := Num.Float 0x1.5555555555556p-2 in
  let params := Some [Num.Float 100; e; Num.Float 0; Num.Float 0] in
  let l := [(Num.Float 100, Num.Int 0); (Num.Float 0, e); (Num.Float 0, Num.Int 1)] in
  let out' := update_div_weight 1 3 params (example_loss "linear") in
  (weights (fst out) !! 4%nat = Some (Num.Float 0x1.e000000000001p+5)
   /\ Num.eq (Num.Float 0x1.e000000000001p+5) (Num.Int 60) = false
   /\ Num.gt (Num.Float 0x1.e000000000001p+5) (Num.Int 60) = true)
  /\ (decay_params_list (fst out') = Some l
      /\ Num.int_truediv 1 3 = Returns 0x1.5555555555555p-2%float
      /\ lower_bracket l 0x1.5555555555555p-2 = Returns (Num.Float 100, Num.Int 0)
      /\ upper_bracket l 0x1.5555555555555p-2 = Returns (Num.Float 0, e)
      /\ Num.le (Num.Int 0) (Num.Float 0x1.5555555555555p-2) = true
      /\ Num.lt (Num.Float 0x1.5555555555555p-2) e = true
      /\ in_window (Num.Int 0) e 1 3 = Returns false
      /\ interpolate (Num.Float 100) (Num.Int 0) (Num.Float 0) e
           (Num.Float 0x1.5555555555555p-2) = Returns (Num.Float 0x1p-45)
      /\ snd out' = Returns tt
      /\ weights (fst out') !! 4%nat = Some (Num.Float 0)).
Proof.
  vm_compute. repeat split.
Qed.

(** ** The guard of the first branch *)

(** C10, as the code has it.  The lower bracket [(w0, s)] of a query is
    selected among the control points whose fraction is at most the progress
    [p], so [s <= p]; but the guard of lines 409, 416 and 425 compares
    [current_iteration] with the product [s * n_iterations], which is rounded
    when [s] is a float, and the guard can hold.  When it does, each of the
    three kernels takes its first branch and stores [w0]; the step kernel
    stores [we] when it does not. *)
Theorem first_branch_follows_rounded_guard
    (params : option (list Num.num)) (ci n : Z) (self self' : Loss)
    (l : list control_point) (p : float) (w0 s we e : Num.num) (early : bool) :
  constructed params self self' l ->
  (4 < length (weights self))%nat ->
  Num.int_truediv ci n = Returns p ->
  lower_bracket l p = Returns (w0, s) ->
  upper_bracket l p = Returns (we, e) ->
  before_start s ci n = Returns early ->
  let out := update_div_weight ci n params self in
  In (w0, s) l
  /\ Num.le s (Num.Float p) = true
  /\ (assigning_mode (div_decay self) -> early = true ->
      snd out = Returns tt /\ weights (fst out) !! 4%nat = Some w0)
  /\ (div_decay self = "step"%string ->
      snd out = Returns tt
      /\ weights (fst out) !! 4%nat = Some (if early then w0 else we)).
Proof.
  intros C Hlen P L U B out.
  destruct (binary64_constructed_frame _ _ _ _ C) as [Hw Hd].
  destruct (binary64_lower_bracket_below _ _ _ L) as [Lin Ls]. cbn [snd] in Ls.
  split; [exact Lin|]. split; [exact Ls|].
  unfold out.
  rewrite (binary64_update_query params ci n self self' l p w0 s we e C P L U).
  split.
  - intros Hm ->.
    rewrite (binary64_kernel_first_branch w0 s we e ci n self') by (rewrite ?Hd; assumption).
    destruct (binary64_store_weight_state w0 self') as (R & S & _); [now rewrite Hw|].
    exact (conj R S).
  - intros Hm.
    rewrite (binary64_kernel_step w0 s we e ci n self' early) by (rewrite ?Hd; assumption).
    destruct (binary64_store_weight_state (if early then w0 else we) self')
      as (R & S & _); [now rewrite Hw|].
    exact (conj R S).
Qed.

(** The step kernel on the schedule of the source's comment at iteration
    6000 of 10000: the guard [6000 < 0.5 * 10000] is false and the value
    stored is 0, the value of the upper bracket. *)
Lemma first_branch_follows_rounded_guard_witness :
  let out := update_div_weight 6000 10000 example_params (example_loss "step") in
  before_start (Num.Float 0.5) 6000 10000 = Returns false
  /\ snd out = Returns tt
  /\ weights (fst out) !! 4%nat = Some (Num.Float 0).
Proof.
  intros out.
  assert (C : constructed example_params (example_loss "step")
                (set_decay_params_list example_list (example_loss "step"))
                example_list) by (split; reflexivity).
  split; [reflexivity|].
  destruct (first_branch_follows_rounded_guard example_params 6000 10000 _ _
              example_list 0x1.3333333333333p-1 (Num.Float 100) (Num.Float 0.5)
              (Num.Float 0) (Num.Float 0.75) false C)
    as (_ & _ & _ & S); try reflexivity.
  - cbn. lia.
  - apply S. reflexivity.
Defined.

(** C10, as stated, does not hold: the first branch is reached at iteration
    7 of 100 when a control point has the fraction 0.07.  The progress
    [7 / 100] is the float 0.07 ([0x1.1eb851eb851ecp-4]), both brackets are
    that control point, and the product [0.07 * 100] is the float
    [0x1.c000000000001p+2], which Python prints as 7.000000000000001: the
    guard [7 < 0.07 * 100] of lines 409, 416 and 425 holds. *)
Lemma first_branch_reached :
  let s := Num.Float 0x1.1eb851eb851ecp-4 in
  let params := Some [Num.Float 1; s; Num.Float 2; Num.Float 3] in
  let l := [(Num.Float 1, Num.Int 0); (Num.Float 2, s); (Num.Float 3, Num.Int 1)] in
  let out := update_div_weight 7 100 params (example_loss "step") in
  (0 <= 7)%Z /\ (0 < 100)%Z
  /\ decay_params_list (fst out) = Some l
  /\ Num.int_truediv 7 100 = Returns 0x1.1eb851eb851ecp-4%float
  /\ lower_bracket l 0x1.1eb851eb851ecp-4 = Returns (Num.Float 2, s)
  /\ upper_bracket l 0x1.1eb851eb851ecp-4 = Returns (Num.Float 2, s)
  /\ Num.le s (Num.Float 0x1.1eb851eb851ecp-4) = true
  /\ Num.mul s (Num.Int 100) = Returns (Num.Float 0x1.c000000000001p+2)
  /\ before_start s 7 100 = Returns true
  /\ snd out = Returns tt
  /\ weights (fst out) !! 4%nat = Some (Num.Float 2).
Proof.
  vm_compute. repeat split; discriminate.
Qed.

(** ** A bracket without width *)

Lemma binary64_in_window_zero_width (s : Num.num) (ci n : Z) :
  before_start s ci n = Returns false -> in_window s s ci n = Returns false.
Proof.
  unfold before_start, in_window, and_then.
  destruct (Num.mul s (Num.Int n)) as [start|x]; [|discriminate].
  intros [= B]. destruct (Num.ge (Num.Int ci) start); [now rewrite B | reflexivity].
Qed.

Lemma binary64_kernel_last_branch (w0 s we e : Num.num) (ci n : Z) (self : Loss) :
  assigning_mode (div_decay self) ->
  before_start s ci n = Returns false ->
  in_window s e ci n = Returns false ->
  div_kernel w0 s we e ci n self = store_weight 4 we self.
Proof.
  intros Hm B W. unfold div_kernel, bind at 1, attr at 1.
  destruct Hm as [-> | [-> | ->]]; cbn [String.eqb Ascii.eqb Bool.eqb];
    unfold bind, lift; rewrite B, ?W; reflexivity.
Qed.

(** X27.  A bracket without width stores its control point's value on
    floats too.  When both searches of a query return the same control
    point and the guard of the first branch can be evaluated, each of the
    three kernels returns and leaves that control point's value in
    [weights[4]], whether the rounded guard holds or not: if it holds the
    first branch stores the value; if not, the guard of the interpolating
    branch is false, because both of its products are the same float, and
    the last branch stores the value. *)
Theorem zero_width_bracket_stores_its_value
    (params : option (list Num.num)) (ci n : Z) (self self' : Loss)
    (l : list control_point) (p : float) (cp : control_point) (early : bool) :
  constructed params self self' l ->
  assigning_mode (div_decay self) ->
  (4 < length (weights self))%nat ->
  Num.int_truediv ci n = Returns p ->
  lower_bracket l p = Returns cp ->
  upper_bracket l p = Returns cp ->
  before_start (snd cp) ci n = Returns early ->
  let out := update_div_weight ci n params self in
  snd out = Returns tt
  /\ weights (fst out) !! 4%nat = Some (fst cp)
  /\ (early = false -> in_window (snd cp) (snd cp) ci n = Returns false).
Proof.
  intros C Hm Hlen P L U B out. destruct cp as [w f]. cbn [fst snd] in *.
  destruct (binary64_constructed_frame _ _ _ _ C) as [Hw Hd].
  assert (E : update_div_weight ci n params self = store_weight 4 w self').
  { rewrite (binary64_update_query params ci n self self' l p w f w f C P L U).
    destruct early.
    - apply binary64_kernel_first_branch; [now rewrite Hd | assumption].
    - apply binary64_kernel_last_branch;
        [now rewrite Hd | assumption | now apply binary64_in_window_zero_width]. }
  unfold out. rewrite E.
  destruct (binary64_store_weight_state w self') as (R & S & _); [now rewrite Hw|].
  split; [exact R|]. split; [exact S|].
  intros ->. now apply binary64_in_window_zero_width.
Qed.

(** Iteration 7 of 100 with a control point (2, 0.07): the guard
    [7 < 0.07 * 100] holds on floats, the first branch runs, and the value
    stored is 2. *)
Lemma zero_width_bracket_stores_its_value_witness :
  let s := Num.Float 0x1.1eb851eb851ecp-4 in
  let params := Some [Num.Float 1; s; Num.Float 2; Num.Float 3] in
  let out := update_div_weight 7 100 params (example_loss "quintic") in
  before_start s 7 100 = Returns true
  /\ snd out = Returns tt
  /\ weights (fst out) !! 4%nat = Some (Num.Float 2).
Proof.
  intros s params out.
  pose (l := [(Num.Float 1, Num.Int 0); (Num.Float 2, s); (Num.Float 3, Num.Int 1)]).
  assert (C : constructed params (example_loss "quintic")
                (set_decay_params_list l (example_loss "quintic")) l)
    by (split; reflexivity).
  split; [reflexivity|].
  destruct (zero_width_bracket_stores_its_value params 7 100 _ _ l
              0x1.1eb851eb851ecp-4 (Num.Float 2, s) true C)
    as (R & S & _); try reflexivity.
  - right; now left.
  - cbn. lia.
  - exact (conj R S).
Defined.

(** ** The schedule of the source's comment *)

(** X14.  The comment above the update methods on the floats of its own
    example.  With params (100, 0.5, 100, 0.75, 0, 0), the linear kernel and
    10000 iterations, each call returns, and [weights[4]] is 100 after the
    calls at iterations 0, 2500 and 5000; [0x1.e000000000001p+5]
    (60.00000000000001) at 6000; [0x1.4000000000004p+4]
    (20.000000000000014) at 7000; and 0 at 7500, 9000 and 10000: the weight
    stays at 100 up to one half, decays to 0 up to three quarters, and stays
    at 0. *)
Theorem documented_schedule_in_binary64 :
  let call ci := update_div_weight ci 10000 example_params (example_loss "linear") in
  let stored ci := weights (fst (call ci)) !! 4%nat in
  (forall ci, In ci [0; 2500; 5000; 6000; 7000; 7500; 9000; 10000]%Z ->
              snd (call ci) = Returns tt)
  /\ stored 0%Z = Some (Num.Float 100)
  /\ stored 2500%Z = Some (Num.Float 100)
  /\ stored 5000%Z = Some (Num.Float 100)
  /\ stored 6000%Z = Some (Num.Float 0x1.e000000000001p+5)
  /\ stored 7000%Z = Some (Num.Float 0x1.4000000000004p+4)
  /\ stored 7500%Z = Some (Num.Float 0)
  /\ stored 9000%Z = Some (Num.Float 0)
  /\ stored 10000%Z = Some (Num.Float 0).
Proof.
  intros call stored. split.
  - intros ci H. simpl in H.
    repeat (destruct H as [<- | H]; [vm_compute; reflexivity|]). contradiction.
  - vm_compute. repeat split.
Qed.

End Binary64Properties.

(** ** Iteration counts beyond the floats *)

